(** * Sales, stock ledger and catalogue handlers of the business
      management system: a shallow embedding and its properties.

    The development follows the serverless handlers of the sales, products
    and customers endpoints ([api/sales.js], [api/customers.js] and the
    handler of /api/products), the handlers of registration and login, and
    [api/init-db.js]: the schema it creates, its guard and its seed.

    Modelling conventions.
    - JavaScript numbers are exact rationals ([Q]); the rounding error of
      IEEE doubles is not modelled.  The statements about the amounts of a
      sale are therefore relations between the values stored, which hold
      whichever way a tie falls, or are made for amounts of at most two
      decimals, where that error is far below half a cent.  Identifiers and
      quantities are integers ([Z]), as the INTEGER columns they are
      written to.
    - A column declared DECIMAL(p,2) holds an integer number of hundredths
      ([Z]); a value written to it is rounded to two decimals, ties away
      from zero ([to_decimal2]), and read back with [cents].
    - The precision bound p of DECIMAL(p,2) and the range of INTEGER (an
      overflow error, answered 500) are not modelled.  A statement that
      concludes the success of a create-sale, or a 404 for an id no sale
      has, takes the values within these limits ([within_limits], [int4]).
    - The numeric fields of a request are JSON numbers or absent ([None]);
      other JSON types in their place are outside the model.
    - The tables are lists of rows in insertion order.  Only the columns the
      handlers of this file read or write are kept; timestamps are left out.
    - SERIAL keys come from sequences that, as in PostgreSQL, are not
      rewound by ROLLBACK.
    - The handlers of the sales, products and customers endpoints receive
      the identity [authenticateToken] returns, whose row exists in [users].
      [authenticateToken] itself, registration and login are modelled apart,
      over the users table, with [jwt.sign], [jwt.verify], [bcrypt.hash] and
      [bcrypt.compare] as parameters.
    - Strings are sequences of one-byte characters: their lengths, letter
      case and white space are those of JavaScript and PostgreSQL on ASCII
      text, and the characterisation of the data [validateRegisterData]
      accepts is stated for ASCII text ([ascii_data]).  The string fields
      of a request are JSON strings, absent or null.
    - The length bound of a VARCHAR(n) column ([varchar]) is checked by the
      statements of PUT /api/sales, of the customers endpoint and of
      registration; the INSERT of a sale leaves it out, and
      [within_limits] asks for a payment method that fits. *)

From Stdlib Require Import ZArith NArith QArith Qround Qabs List String Ascii Bool Lia Lqa.
From Stdlib Require Import DecimalString.
From Stdlib Require Decimal DecimalFacts DecimalPos DecimalN.
Import ListNotations.

Local Open Scope string_scope.
Local Open Scope Z_scope.

(* ================================================================= *)
(** ** Numbers *)

(** Reading a DECIMAL(p,2) column: [c] hundredths. *)
Definition cents (c : Z) : Q := (inject_Z c / 100)%Q.

(** Writing a number to a DECIMAL(p,2) column: the number of hundredths
    nearest to [x], ties away from zero. *)
Definition to_decimal2 (x : Q) : Z :=
  if Qle_bool 0 x
  then Qfloor (x * 100 + (1 # 2))
  else - Qfloor (- x * 100 + (1 # 2)).

(** JavaScript truthiness of a number field that may be absent. *)
Definition truthyZ (v : option Z) : bool :=
  match v with
  | Some z => negb (z =? 0)
  | None => false
  end.

Definition truthyQ (v : option Q) : bool :=
  match v with
  | Some q => negb (Qeq_bool q 0)
  | None => false
  end.

(** [a || null] on an integer field. *)
Definition or_null (v : option Z) : option Z :=
  if truthyZ v then v else None.

(** [a || null] on a string field. *)
Definition or_null_string (v : option string) : option string :=
  match v with
  | Some EmptyString => None
  | _ => v
  end.

(* ================================================================= *)
(** ** Strings *)

(** [hay.includes(needle)] *)
Fixpoint includes (needle hay : string) : bool :=
  if prefix needle hay then true
  else match hay with
       | EmptyString => false
       | String _ rest => includes needle rest
       end.

(** [n.toString()] for a non-negative integer. *)
Definition toString (n : N) : string :=
  NilEmpty.string_of_uint (N.to_uint n).

Fixpoint repeat_char (c : ascii) (k : nat) : string :=
  match k with
  | O => EmptyString
  | S k' => String c (repeat_char c k')
  end.

(** [s.padStart(n, c)] *)
Definition padStart (n : nat) (c : ascii) (s : string) : string :=
  (repeat_char c (n - String.length s) ++ s)%string.

(** [s.slice(-k)]: the last [k] characters, the whole string when shorter. *)
Definition slice_last (k : nat) (s : string) : string :=
  substring (String.length s - k) k s.

(* ================================================================= *)
(** ** Schema (init-db.js) *)

Record product := mkProduct {
  product_id : Z;
  stock_quantity : Z                (* INTEGER *)
}.

Record customer := mkCustomer {
  customer_id : Z;
  total_purchases : Z               (* DECIMAL(15,2), hundredths *)
}.

Record sale := mkSale {
  sale_id : Z;
  sale_number : string;             (* UNIQUE NOT NULL *)
  sale_customer_id : option Z;      (* REFERENCES customers(id) *)
  sales_rep_id : Z;
  subtotal : Z;                     (* DECIMAL(15,2) *)
  discount_amount : Z;              (* DECIMAL(10,2) *)
  tax_amount : Z;                   (* DECIMAL(10,2) *)
  total_amount : Z;                 (* DECIMAL(15,2) *)
  commission_amount : Z;            (* DECIMAL(10,2) *)
  commission_rate : Z;              (* DECIMAL(5,2) *)
  payment_method : option string;
  payment_status : string;
  notes : option string
}.

Record sale_item := mkSaleItem {
  sale_item_id : Z;
  item_sale_id : Z;                 (* REFERENCES sales(id) ON DELETE CASCADE *)
  item_product_id : Z;              (* REFERENCES products(id) *)
  item_quantity : Z;                (* INTEGER NOT NULL *)
  item_unit_price : Z;              (* DECIMAL(10,2) *)
  item_total_price : Z              (* DECIMAL(15,2) *)
}.

Record stock_movement := mkMovement {
  movement_id : Z;
  movement_product_id : Z;          (* REFERENCES products(id) *)
  movement_type : string;
  movement_quantity : Z;
  reference_type : string;
  reference_id : option Z;
  movement_notes : string;
  created_by : Z
}.

Record DB := mkDB {
  products : list product;
  customers : list customer;
  sales : list sale;
  sale_items : list sale_item;
  stock_movements : list stock_movement;
  sales_id_seq : Z;
  sale_items_id_seq : Z;
  stock_movements_id_seq : Z
}.

(* ================================================================= *)
(** ** Statements run on a connection *)

(** A statement either returns or throws (a rejected promise); the
    connection's database is threaded through both. *)
Inductive outcome (A : Type) : Type :=
| Returned (a : A)
| Thrown (msg : string).
Arguments Returned {A} a.
Arguments Thrown {A} msg.

Definition Tx (A : Type) : Type := DB -> outcome A * DB.

Definition ret {A} (a : A) : Tx A := fun db => (Returned a, db).
Definition bind {A B} (m : Tx A) (k : A -> Tx B) : Tx B :=
  fun db =>
    match m db with
    | (Returned a, db') => k a db'
    | (Thrown msg, db') => (Thrown msg, db')
    end.

Notation "x <- m ;; k" := (bind m (fun x => k))
  (at level 61, m at next level, right associativity).
Notation "m ;;; k" := (bind m (fun _ => k))
  (at level 61, right associativity).

(** ROLLBACK: the tables are those at BEGIN, the sequences stay where the
    aborted statements left them. *)
Definition rollback (at_begin now : DB) : DB :=
  mkDB (products at_begin) (customers at_begin) (sales at_begin)
       (sale_items at_begin) (stock_movements at_begin)
       (sales_id_seq now) (sale_items_id_seq now) (stock_movements_id_seq now).

(** [try { BEGIN; body; COMMIT } catch (e) { ROLLBACK; throw e }] *)
Definition transaction {A} (body : Tx A) : Tx A :=
  fun db =>
    match body db with
    | (Returned a, db') => (Returned a, db')
    | (Thrown msg, db') => (Thrown msg, rollback db db')
    end.

Definition has_product (db : DB) (p : Z) : bool :=
  existsb (fun r => product_id r =? p) (products db).

Definition has_customer (db : DB) (c : Z) : bool :=
  existsb (fun r => customer_id r =? c) (customers db).

Definition has_sale (db : DB) (s : Z) : bool :=
  existsb (fun r => sale_id r =? s) (sales db).

Definition unique_violation : string :=
  "duplicate key value violates unique constraint sales_sale_number_key".
Definition fk_violation_insert : string :=
  "insert or update on table violates foreign key constraint".
Definition fk_violation_delete : string :=
  "update or delete on table violates foreign key constraint".

(** [SELECT * FROM sales WHERE id = $1] *)
Definition select_sale (db : DB) (id : Z) : list sale :=
  filter (fun r => sale_id r =? id) (sales db).

(** [SELECT * FROM sale_items WHERE sale_id = $1] *)
Definition select_sale_items (db : DB) (id : Z) : list sale_item :=
  filter (fun r => item_sale_id r =? id) (sale_items db).

(** [SELECT * FROM products WHERE id = $1] *)
Definition select_product (db : DB) (id : Z) : list product :=
  filter (fun r => product_id r =? id) (products db).

(** [SELECT * FROM customers WHERE id = $1] *)
Definition select_customer (db : DB) (id : Z) : list customer :=
  filter (fun r => customer_id r =? id) (customers db).

(** [SELECT id FROM sale_items WHERE product_id = $1 LIMIT 1] *)
Definition select_items_of_product (db : DB) (p : Z) : list sale_item :=
  firstn 1 (filter (fun r => item_product_id r =? p) (sale_items db)).

(** [SELECT id FROM sales WHERE customer_id = $1 LIMIT 1] *)
Definition select_sales_of_customer (db : DB) (c : Z) : list sale :=
  firstn 1 (filter (fun r => match sale_customer_id r with
                             | Some c' => c' =? c
                             | None => false
                             end) (sales db)).

(** [INSERT INTO sales (...) VALUES (...) RETURNING *]; the key is drawn
    first, then the unique index on [sale_number] and the reference to
    [customers] are checked. *)
Definition insert_sale (num : string) (cust : option Z) (rep : Z)
    (sub disc tax tot comm rate : Q) (pm : option string) (nt : option string)
    : Tx sale :=
  fun db =>
    let id := sales_id_seq db in
    let drawn := mkDB (products db) (customers db) (sales db) (sale_items db)
                      (stock_movements db) (id + 1) (sale_items_id_seq db)
                      (stock_movements_id_seq db) in
    let row := mkSale id num cust rep (to_decimal2 sub) (to_decimal2 disc)
                      (to_decimal2 tax) (to_decimal2 tot) (to_decimal2 comm)
                      (to_decimal2 rate) pm "completed" nt in
    if existsb (fun r => String.eqb (sale_number r) num) (sales db)
    then (Thrown unique_violation, drawn)
    else if match cust with Some c => has_customer db c | None => true end
    then (Returned row,
          mkDB (products db) (customers db) (sales db ++ [row]) (sale_items db)
               (stock_movements db) (id + 1) (sale_items_id_seq db)
               (stock_movements_id_seq db))
    else (Thrown fk_violation_insert, drawn).

(** [INSERT INTO sale_items (sale_id, product_id, quantity, unit_price,
    total_price, created_at) VALUES (...)] *)
Definition insert_sale_item (sid pid qty : Z) (price total : Q) : Tx unit :=
  fun db =>
    let id := sale_items_id_seq db in
    let drawn := mkDB (products db) (customers db) (sales db) (sale_items db)
                      (stock_movements db) (sales_id_seq db) (id + 1)
                      (stock_movements_id_seq db) in
    let row := mkSaleItem id sid pid qty (to_decimal2 price) (to_decimal2 total) in
    if has_sale db sid && has_product db pid
    then (Returned tt,
          mkDB (products db) (customers db) (sales db) (sale_items db ++ [row])
               (stock_movements db) (sales_id_seq db) (id + 1)
               (stock_movements_id_seq db))
    else (Thrown fk_violation_insert, drawn).

(** [UPDATE products SET stock_quantity = stock_quantity + delta
    WHERE id = pid]; create-sale runs it with [stock_quantity - $1], that
    is with the quantity negated, delete-sale with [stock_quantity + $1]. *)
Definition add_stock (delta pid : Z) (ps : list product) : list product :=
  map (fun r => if product_id r =? pid
                then mkProduct (product_id r) (stock_quantity r + delta)
                else r) ps.

Definition update_stock (delta pid : Z) : Tx unit :=
  fun db =>
    (Returned tt,
     mkDB (add_stock delta pid (products db)) (customers db) (sales db)
          (sale_items db) (stock_movements db) (sales_id_seq db)
          (sale_items_id_seq db) (stock_movements_id_seq db)).

(** [INSERT INTO stock_movements (product_id, movement_type, quantity,
    reference_type, reference_id, notes, created_by, created_at)
    VALUES (...)] *)
Definition insert_stock_movement (pid : Z) (ty : string) (qty : Z)
    (rty : string) (rid : option Z) (nt : string) (by_user : Z) : Tx unit :=
  fun db =>
    let id := stock_movements_id_seq db in
    let row := mkMovement id pid ty qty rty rid nt by_user in
    if has_product db pid
    then (Returned tt,
          mkDB (products db) (customers db) (sales db) (sale_items db)
               (stock_movements db ++ [row]) (sales_id_seq db)
               (sale_items_id_seq db) (id + 1))
    else (Thrown fk_violation_insert,
          mkDB (products db) (customers db) (sales db) (sale_items db)
               (stock_movements db) (sales_id_seq db)
               (sale_items_id_seq db) (id + 1)).

(** [UPDATE customers SET total_purchases = total_purchases + amount
    WHERE id = cid]; the sum is rounded by the column.  Delete-sale runs it
    with [total_purchases - $1], that is with the amount negated. *)
Definition add_purchases (amount : Q) (cid : Z) (cs : list customer)
    : list customer :=
  map (fun r => if customer_id r =? cid
                then mkCustomer (customer_id r)
                       (to_decimal2 (cents (total_purchases r) + amount))
                else r) cs.

Definition update_purchases (amount : Q) (cid : Z) : Tx unit :=
  fun db =>
    (Returned tt,
     mkDB (products db) (add_purchases amount cid (customers db)) (sales db)
          (sale_items db) (stock_movements db) (sales_id_seq db)
          (sale_items_id_seq db) (stock_movements_id_seq db)).

(** [DELETE FROM sales WHERE id = $1]; the line items go with it
    (ON DELETE CASCADE). *)
Definition delete_sale (id : Z) : Tx unit :=
  fun db =>
    (Returned tt,
     mkDB (products db) (customers db)
          (filter (fun r => negb (sale_id r =? id)) (sales db))
          (filter (fun r => negb (item_sale_id r =? id)) (sale_items db))
          (stock_movements db) (sales_id_seq db)
          (sale_items_id_seq db) (stock_movements_id_seq db)).

(** [DELETE FROM products WHERE id = $1]; [sale_items] and
    [stock_movements] reference [products] without a cascade. *)
Definition delete_product (id : Z) : Tx unit :=
  fun db =>
    if has_product db id
       && (existsb (fun r => item_product_id r =? id) (sale_items db)
           || existsb (fun r => movement_product_id r =? id) (stock_movements db))
    then (Thrown fk_violation_delete, db)
    else (Returned tt,
          mkDB (filter (fun r => negb (product_id r =? id)) (products db))
               (customers db) (sales db) (sale_items db) (stock_movements db)
               (sales_id_seq db) (sale_items_id_seq db)
               (stock_movements_id_seq db)).

(** [DELETE FROM customers WHERE id = $1]; [sales] references [customers]
    without a cascade. *)
Definition delete_customer (id : Z) : Tx unit :=
  fun db =>
    if has_customer db id
       && existsb (fun r => match sale_customer_id r with
                            | Some c => c =? id
                            | None => false
                            end) (sales db)
    then (Thrown fk_violation_delete, db)
    else (Returned tt,
          mkDB (products db)
               (filter (fun r => negb (customer_id r =? id)) (customers db))
               (sales db) (sale_items db) (stock_movements db)
               (sales_id_seq db) (sale_items_id_seq db)
               (stock_movements_id_seq db)).

(* ================================================================= *)
(** ** Requests and responses *)

(** The identity returned by [authenticateToken]. *)
Module User.
Record t := make { id : Z; username : string; role : string }.
End User.

(** The JSON body of POST /api/sales. *)
Module Req.
Record item := mkItem {
  product_id : option Z;
  quantity : option Z;
  unit_price : option Q
}.

Record body := mkBody {
  customer_id : option Z;
  items : option (list item);     (* [None]: absent or not an array *)
  discount_amount : option Q;
  tax_amount : option Q;
  payment_method : option string;
  notes : option string
}.
End Req.

(** What [Date.now()] and [Math.floor(Math.random() * 1000)] return during
    the request. *)
Record clock := mkClock { now : N; random1000 : N }.

Record response := mkResponse {
  status : Z;
  message : string;
  body_sale : option sale
}.

(** The methods of the sales endpoint whose branch is modelled; the GET and
    PUT branches are left out, [UNSUPPORTED] is any method outside
    GET, POST, PUT, DELETE and OPTIONS. *)
Inductive method := POST | DELETE | OPTIONS | UNSUPPORTED.

Record request := mkRequest {
  req_method : method;
  query_id : option Z;              (* [req.query.id] *)
  req_body : Req.body
}.

(** The [catch] of every [handler]: the status is chosen from the text of
    the error. *)
Definition api_catch (m : Tx response) : DB -> response * DB :=
  fun db =>
    match m db with
    | (Returned r, db') => (r, db')
    | (Thrown msg, db') =>
        (if includes "token" msg || includes "Invalid" msg
            || includes "inactive" msg
         then mkResponse 401 msg None
         else mkResponse 500 "Server error" None, db')
    end.

(* ================================================================= *)
(** ** api/sales.js *)

Definition generateSaleNumber (clk : clock) : string :=
  let timestamp := toString (now clk) in
  let random := padStart 3 "0"%char (toString (random1000 clk)) in
  ("SALE-" ++ slice_last 6 timestamp ++ random)%string.

(** A line item once the test of the first loop has passed: its three
    fields are present and non-zero. *)
Record line := mkLine {
  line_product : Z;
  line_quantity : Z;
  line_unit_price : Q
}.

Definition item_error : string :=
  "Each item must have product_id, quantity, and unit_price".

(** The first loop of [handleCreateSale]: it throws on the first item with
    a falsy field and otherwise accumulates the subtotal.  The items read
    are returned for the second loop. *)
Fixpoint calculate_totals (items : list Req.item) (subtotal : Q)
    : outcome (Q * list line) :=
  match items with
  | [] => Returned (subtotal, [])
  | it :: rest =>
      if negb (truthyZ (Req.product_id it))
         || negb (truthyZ (Req.quantity it))
         || negb (truthyQ (Req.unit_price it))
      then Thrown item_error
      else
        match Req.product_id it, Req.quantity it, Req.unit_price it with
        | Some p, Some q, Some u =>
            match calculate_totals rest (subtotal + inject_Z q * u)%Q with
            | Returned (s, ls) => Returned (s, mkLine p q u :: ls)
            | Thrown msg => Thrown msg
            end
        | _, _, _ => Thrown item_error
        end
  end.

Definition lift {A} (o : outcome A) : Tx A := fun db => (o, db).

(** The second loop of [handleCreateSale]. *)
Fixpoint create_sale_items (sid : Z) (num : string) (uid : Z)
    (ls : list line) : Tx unit :=
  match ls with
  | [] => ret tt
  | l :: rest =>
      insert_sale_item sid (line_product l) (line_quantity l)
        (line_unit_price l) (inject_Z (line_quantity l) * line_unit_price l)%Q ;;;
      update_stock (- line_quantity l) (line_product l) ;;;
      insert_stock_movement (line_product l) "out" (line_quantity l) "sale"
        (Some sid) ("Sale: " ++ num)%string uid ;;;
      create_sale_items sid num uid rest
  end.

Definition default0 (v : option Q) : Q :=
  match v with
  | Some q => q
  | None => 0%Q
  end.

(** POST /api/sales *)
Definition handleCreateSale (clk : clock) (user : User.t) (body : Req.body)
    : Tx response :=
  let discount_amount := default0 (Req.discount_amount body) in
  let tax_amount := default0 (Req.tax_amount body) in
  match Req.items body with
  | None | Some [] => ret (mkResponse 400 "Sale items are required" None)
  | Some items =>
      transaction (
        totals <- lift (calculate_totals items 0%Q) ;;
        let subtotal := fst totals in
        let total_amount := (subtotal - discount_amount + tax_amount)%Q in
        let sale_number := generateSaleNumber clk in
        let commission_rate :=
          if String.eqb (User.role user) "sales_rep" then 5%Q else 0%Q in
        let commission_amount := (total_amount * commission_rate / 100)%Q in
        sale <- insert_sale sale_number (or_null (Req.customer_id body))
                  (User.id user) subtotal discount_amount tax_amount
                  total_amount commission_amount commission_rate
                  (or_null_string (Req.payment_method body))
                  (or_null_string (Req.notes body)) ;;
        create_sale_items (sale_id sale) sale_number (User.id user)
          (snd totals) ;;;
        match or_null (Req.customer_id body) with
        | Some c => update_purchases total_amount c
        | None => ret tt
        end ;;;
        ret (mkResponse 201 "Sale created successfully" (Some sale)))
  end.

(** The loop of [handleDeleteSale].  [sale.id] is read on the query result,
    not on its row, so the reference of the movement is NULL. *)
Fixpoint restore_items (num : string) (uid : Z) (its : list sale_item)
    : Tx unit :=
  match its with
  | [] => ret tt
  | it :: rest =>
      update_stock (item_quantity it) (item_product_id it) ;;;
      insert_stock_movement (item_product_id it) "in" (item_quantity it)
        "sale_delete" None ("Sale deletion: " ++ num)%string uid ;;;
      restore_items num uid rest
  end.

(** DELETE /api/sales *)
Definition handleDeleteSale (user : User.t) (id : option Z) : Tx response :=
  match id with
  | None => ret (mkResponse 400 "Sale ID is required" None)
  | Some id =>
      if negb (String.eqb (User.role user) "admin")
      then ret (mkResponse 403 "Only admins can delete sales" None)
      else fun db =>
        match select_sale db id with
        | [] => (Returned (mkResponse 404 "Sale not found" None), db)
        | row :: _ =>
            transaction (
              (fun db' => restore_items (sale_number row) (User.id user)
                            (select_sale_items db' id) db') ;;;
              match or_null (sale_customer_id row) with
              | Some c => update_purchases (- cents (total_amount row)) c
              | None => ret tt
              end ;;;
              delete_sale id ;;;
              ret (mkResponse 200 "Sale deleted successfully" None)) db
        end
  end.

Module SalesApi.
Definition handler (clk : clock) (user : User.t) (req : request)
    : DB -> response * DB :=
  match req_method req with
  | OPTIONS => fun db => (mkResponse 200 "" None, db)
  | POST => api_catch (handleCreateSale clk user (req_body req))
  | DELETE => api_catch (handleDeleteSale user (query_id req))
  | UNSUPPORTED => fun db => (mkResponse 405 "Method not allowed" None, db)
  end.
End SalesApi.

(* ================================================================= *)
(** ** The products handler and api/customers.js *)

(** DELETE /api/products *)
Definition handleDeleteProduct (id : option Z) : Tx response :=
  match id with
  | None => ret (mkResponse 400 "Product ID is required" None)
  | Some id => fun db =>
      match select_product db id with
      | [] => (Returned (mkResponse 404 "Product not found" None), db)
      | _ :: _ =>
          match select_items_of_product db id with
          | _ :: _ =>
              (Returned (mkResponse 400
                 "Cannot delete product that has been used in sales" None), db)
          | [] =>
              (delete_product id ;;;
               ret (mkResponse 200 "Product deleted successfully" None)) db
          end
      end
  end.

(** DELETE /api/customers *)
Definition handleDeleteCustomer (id : option Z) : Tx response :=
  match id with
  | None => ret (mkResponse 400 "Customer ID is required" None)
  | Some id => fun db =>
      match select_customer db id with
      | [] => (Returned (mkResponse 404 "Customer not found" None), db)
      | _ :: _ =>
          match select_sales_of_customer db id with
          | _ :: _ =>
              (Returned (mkResponse 400
                 "Cannot delete customer that has sales history" None), db)
          | [] =>
              (delete_customer id ;;;
               ret (mkResponse 200 "Customer deleted successfully" None)) db
          end
      end
  end.

Module ProductsApi.
(** The DELETE branch of the products [handler]. *)
Definition handler_delete (id : option Z) : DB -> response * DB :=
  api_catch (handleDeleteProduct id).
End ProductsApi.

Module CustomersApi.
(** The DELETE branch of the customers [handler]. *)
Definition handler_delete (id : option Z) : DB -> response * DB :=
  api_catch (handleDeleteCustomer id).
End CustomersApi.

(* ================================================================= *)
(** ** Views of the database used in the statements *)

Definition stock_of (db : DB) (p : Z) : option Z :=
  option_map stock_quantity (find (fun r => product_id r =? p) (products db)).

Definition purchases_of (db : DB) (c : Z) : option Z :=
  option_map total_purchases
    (find (fun r => customer_id r =? c) (customers db)).

(** The tables, without the sequences. *)
Definition tables (db : DB) :=
  (products db, customers db, sales db, sale_items db, stock_movements db).

(** The integrity the schema maintains: keys are below their sequence and
    the references of [sale_items] resolve. *)
Definition consistent (db : DB) : bool :=
  forallb (fun s => sale_id s <? sales_id_seq db) (sales db)
  && forallb (fun i => has_sale db (item_sale_id i)
                       && has_product db (item_product_id i)) (sale_items db).

(* ================================================================= *)
(** ** Vocabulary of the statements: create-sale *)

(** The test of the first loop, negated. *)
Definition valid_item (it : Req.item) : bool :=
  truthyZ (Req.product_id it) && truthyZ (Req.quantity it)
  && truthyQ (Req.unit_price it).

(** Quantity times unit price of a request item. *)
Definition item_amount (it : Req.item) : Q :=
  match Req.quantity it, Req.unit_price it with
  | Some q, Some u => inject_Z q * u
  | _, _ => 0
  end.

Definition items_amount (items : list Req.item) : Q :=
  fold_right (fun it acc => item_amount it + acc)%Q 0%Q items.

Definition line_amount (l : line) : Q :=
  (inject_Z (line_quantity l) * line_unit_price l)%Q.

(** The line read from a valid item. *)
Definition line_of (it : Req.item) : line :=
  mkLine (match Req.product_id it with Some p => p | None => 0 end)
         (match Req.quantity it with Some q => q | None => 0 end)
         (match Req.unit_price it with Some u => u | None => 0%Q end).

(** Rows written by the second loop, drawn from the sequences at [next]. *)
Fixpoint item_rows (sid next : Z) (ls : list line) : list sale_item :=
  match ls with
  | [] => []
  | l :: rest =>
      mkSaleItem next sid (line_product l) (line_quantity l)
        (to_decimal2 (line_unit_price l)) (to_decimal2 (line_amount l))
      :: item_rows sid (next + 1) rest
  end.

Fixpoint out_movements (sid : Z) (num : string) (uid next : Z)
    (ls : list line) : list stock_movement :=
  match ls with
  | [] => []
  | l :: rest =>
      mkMovement next (line_product l) "out" (line_quantity l) "sale"
        (Some sid) ("Sale: " ++ num)%string uid
      :: out_movements sid num uid (next + 1) rest
  end.

(** Stock after the decrements of the lines, in order. *)
Fixpoint sell_stock (ls : list line) (ps : list product) : list product :=
  match ls with
  | [] => ps
  | l :: rest => sell_stock rest (add_stock (- line_quantity l) (line_product l) ps)
  end.

(* ================================================================= *)
(** ** The effect of a create-sale that commits *)

(** [commission_rate] as computed by the handler. *)
Definition rate_of (user : User.t) : Q :=
  if String.eqb (User.role user) "sales_rep" then 5%Q else 0%Q.

(** [total_amount] as computed by the handler from the subtotal. *)
Definition computed_total (body : Req.body) (sub : Q) : Q :=
  (sub - default0 (Req.discount_amount body)
   + default0 (Req.tax_amount body))%Q.

(** [commission_amount] as computed by the handler. *)
Definition computed_commission (user : User.t) (body : Req.body) (sub : Q) : Q :=
  (computed_total body sub * rate_of user / 100)%Q.

(** The row returned by the INSERT into [sales]. *)
Definition new_sale (clk : clock) (user : User.t) (body : Req.body)
    (db : DB) (sub : Q) : sale :=
  mkSale (sales_id_seq db) (generateSaleNumber clk)
    (or_null (Req.customer_id body)) (User.id user)
    (to_decimal2 sub)
    (to_decimal2 (default0 (Req.discount_amount body)))
    (to_decimal2 (default0 (Req.tax_amount body)))
    (to_decimal2 (computed_total body sub))
    (to_decimal2 (computed_commission user body sub))
    (to_decimal2 (rate_of user))
    (or_null_string (Req.payment_method body)) "completed"
    (or_null_string (Req.notes body)).

(** The database after COMMIT. *)
Definition after_create (clk : clock) (user : User.t) (body : Req.body)
    (db : DB) (sub : Q) (ls : list line) : DB :=
  mkDB (sell_stock ls (products db))
       (match or_null (Req.customer_id body) with
        | Some c => add_purchases (computed_total body sub) c (customers db)
        | None => customers db
        end)
       (sales db ++ [new_sale clk user body db sub])
       (sale_items db ++ item_rows (sales_id_seq db) (sale_items_id_seq db) ls)
       (stock_movements db
          ++ out_movements (sales_id_seq db) (generateSaleNumber clk)
               (User.id user) (stock_movements_id_seq db) ls)
       (sales_id_seq db + 1)
       (sale_items_id_seq db + Z.of_nat (List.length ls))
       (stock_movements_id_seq db + Z.of_nat (List.length ls)).

Definition number_taken (clk : clock) (db : DB) : bool :=
  existsb (fun r => String.eqb (sale_number r) (generateSaleNumber clk))
    (sales db).

Definition customer_resolves (body : Req.body) (db : DB) : bool :=
  match or_null (Req.customer_id body) with
  | Some c => has_customer db c
  | None => true
  end.

Definition products_resolve (ls : list line) (db : DB) : bool :=
  forallb (fun l => has_product db (line_product l)) ls.

Definition created (clk : clock) (user : User.t) (body : Req.body)
    (db : DB) (sub : Q) : response :=
  mkResponse 201 "Sale created successfully"
    (Some (new_sale clk user body db sub)).

(* ================================================================= *)
(** ** Units sold and returned *)

(** Units of product [p] on the lines. *)
Definition sold (ls : list line) (p : Z) : Z :=
  fold_right (fun l acc => (if line_product l =? p then line_quantity l else 0) + acc)
    0 ls.

Definition shift_stock (d : Z -> Z) (ps : list product) : list product :=
  map (fun r => mkProduct (product_id r) (stock_quantity r + d (product_id r))) ps.

(* ================================================================= *)
(** ** The effect of a delete-sale that commits *)

Fixpoint restock (its : list sale_item) (ps : list product) : list product :=
  match its with
  | [] => ps
  | it :: rest =>
      restock rest (add_stock (item_quantity it) (item_product_id it) ps)
  end.

Fixpoint in_movements (num : string) (uid next : Z) (its : list sale_item)
    : list stock_movement :=
  match its with
  | [] => []
  | it :: rest =>
      mkMovement next (item_product_id it) "in" (item_quantity it)
        "sale_delete" None ("Sale deletion: " ++ num)%string uid
      :: in_movements num uid (next + 1) rest
  end.

(** Units of product [p] on the stored line items. *)
Definition returned (its : list sale_item) (p : Z) : Z :=
  fold_right (fun it acc =>
                (if item_product_id it =? p then item_quantity it else 0) + acc)
    0 its.

Definition items_resolve (its : list sale_item) (db : DB) : bool :=
  forallb (fun it => has_product db (item_product_id it)) its.

(** The database after the COMMIT of a delete-sale of [row]. *)
Definition after_delete (user : User.t) (id : Z) (row : sale) (db : DB) : DB :=
  let its := select_sale_items db id in
  mkDB (restock its (products db))
       (match or_null (sale_customer_id row) with
        | Some c => add_purchases (- cents (total_amount row)) c (customers db)
        | None => customers db
        end)
       (filter (fun r => negb (sale_id r =? id)) (sales db))
       (filter (fun r => negb (item_sale_id r =? id)) (sale_items db))
       (stock_movements db
          ++ in_movements (sale_number row) (User.id user)
               (stock_movements_id_seq db) its)
       (sales_id_seq db) (sale_items_id_seq db)
       (stock_movements_id_seq db + Z.of_nat (List.length its)).

Definition deleted : response :=
  mkResponse 200 "Sale deleted successfully" None.

(* ================================================================= *)
(** ** Vocabulary of the statements: predicates *)

Definition zero_field (it : Req.item) : Prop :=
  Req.quantity it = Some 0
  \/ exists u, Req.unit_price it = Some u /\ (u == 0)%Q.

Definition nonzero_fields (it : Req.item) : Prop :=
  exists p q u,
    Req.product_id it = Some p /\ Req.quantity it = Some q
    /\ Req.unit_price it = Some u /\ q <> 0 /\ ~ (u == 0)%Q.

Definition product_in_items (db : DB) (id : Z) : bool :=
  existsb (fun r => item_product_id r =? id) (sale_items db).

Definition product_in_movements (db : DB) (id : Z) : bool :=
  existsb (fun r => movement_product_id r =? id) (stock_movements db).

Definition customer_in_sales (db : DB) (id : Z) : bool :=
  existsb (fun r => match sale_customer_id r with
                    | Some c => c =? id
                    | None => false
                    end) (sales db).






(* ================================================================= *)
(** ** Sample data *)

Definition db0 : DB :=
  mkDB [mkProduct 1 10; mkProduct 2 3] [mkCustomer 1 0] [] [] [] 1 1 1.

Definition rep : User.t := User.make 2 "sales_rep" "sales_rep".
Definition admin : User.t := User.make 1 "admin" "admin".
Definition clk0 : clock := mkClock 1700000123456 7.

(** Two units of product 1 at 10.00 and one of product 2 at 5.00,
    discount 2.00, tax 1.00, for customer 1. *)
Definition cart0 : Req.body :=
  Req.mkBody (Some 1)
    (Some [Req.mkItem (Some 1) (Some 2) (Some 10%Q);
           Req.mkItem (Some 2) (Some 1) (Some 5%Q)])
    (Some 2%Q) (Some 1%Q) None None.

Definition no_body : Req.body := Req.mkBody None None None None None None.

(** [db0] after [cart0] was sold by [rep]. *)
Definition db1 : DB :=
  snd (SalesApi.handler clk0 rep (mkRequest POST None cart0) db0).

Definition cart_missing_price : Req.body :=
  Req.mkBody (Some 1) (Some [Req.mkItem (Some 1) (Some 2) None])
    None None None None.

Definition cart_free_line : Req.body :=
  Req.mkBody None
    (Some [Req.mkItem (Some 1) (Some 2) (Some 10%Q);
           Req.mkItem (Some 2) (Some 1) (Some 0%Q)])
    None None None None.

(** [db1] after its sale was deleted by [admin]: no line item is left, the
    four movement rows of product 1 and 2 are. *)
Definition db2 : DB :=
  snd (SalesApi.handler clk0 admin (mkRequest DELETE (Some 1) no_body) db1).

(** One unit of product 1 at 24.10, sold by a sales representative. *)
Definition cart_2410 : Req.body :=
  Req.mkBody None (Some [Req.mkItem (Some 1) (Some 1) (Some (241 # 10)%Q)])
    None None None None.





(* ================================================================= *)
(** ** PUT /api/sales *)

(** Writing a string to a VARCHAR(n) column: a longer string is an error,
    unless the characters in excess are all spaces, which are cut off. *)
Fixpoint all_spaces (s : string) : bool :=
  match s with
  | EmptyString => true
  | String c rest => Ascii.eqb c " "%char && all_spaces rest
  end.

Definition too_long : string := "value too long for type character varying".

Definition varchar (n : nat) (s : string) : outcome string :=
  if (String.length s <=? n)%nat then Returned s
  else if all_spaces (substring n (String.length s - n) s)
       then Returned (substring 0 n s)
       else Thrown too_long.

(** The same for a value that may be NULL. *)
Definition varchar_opt (n : nat) (v : option string) : outcome (option string) :=
  match v with
  | Some s => match varchar n s with
              | Returned s' => Returned (Some s')
              | Thrown msg => Thrown msg
              end
  | None => Returned None
  end.

(** The JSON body of PUT /api/sales: [None] is a field that is absent (or
    null, for the two fields read with [||]); [notes] tells absent ([None])
    from null ([Some None]). *)
Module Upd.
Record body := mkBody {
  payment_method : option string;
  payment_status : option string;
  notes : option (option string)
}.
End Upd.

(** [a || b] on strings: [a] unless it is absent, null or empty. *)
Definition or_else (a : option string) (b : option string) : option string :=
  match or_null_string a with
  | Some s => Some s
  | None => b
  end.

(** [UPDATE sales SET payment_method = $1, payment_status = $2, notes = $3
    WHERE id = $4 RETURNING *] *)
Definition update_sale (pm : option string) (ps : string)
    (nt : option string) (id : Z) : Tx (list sale) :=
  fun db =>
    match varchar_opt 50 pm, varchar 20 ps with
    | Returned pm', Returned ps' =>
        let rows :=
          map (fun r => if sale_id r =? id
                        then mkSale (sale_id r) (sale_number r)
                               (sale_customer_id r) (sales_rep_id r)
                               (subtotal r) (discount_amount r) (tax_amount r)
                               (total_amount r) (commission_amount r)
                               (commission_rate r) pm' ps' nt
                        else r) (sales db) in
        (Returned (filter (fun r => sale_id r =? id) rows),
         mkDB (products db) (customers db) rows (sale_items db)
              (stock_movements db) (sales_id_seq db) (sale_items_id_seq db)
              (stock_movements_id_seq db))
    | Thrown msg, _ => (Thrown msg, db)
    | _, Thrown msg => (Thrown msg, db)
    end.

(** PUT /api/sales *)
Definition handleUpdateSale (id : option Z) (body : Upd.body) : Tx response :=
  match id with
  | None => ret (mkResponse 400 "Sale ID is required" None)
  | Some id => fun db =>
      match select_sale db id with
      | [] => (Returned (mkResponse 404 "Sale not found" None), db)
      | existing :: _ =>
          (rows <- update_sale
                     (or_else (Upd.payment_method body) (payment_method existing))
                     (match or_null_string (Upd.payment_status body) with
                      | Some s => s
                      | None => payment_status existing
                      end)
                     (match Upd.notes body with
                      | Some n => n
                      | None => notes existing
                      end) id ;;
           ret (mkResponse 200 "Sale updated successfully" (hd_error rows))) db
      end
  end.

(** The PUT branch of the sales [handler]. *)
Definition handler_put (id : option Z) (body : Upd.body)
    : DB -> response * DB :=
  api_catch (handleUpdateSale id body).

(** The columns of a sale that PUT does not name. *)
Definition frozen (r : sale) :=
  (sale_id r, sale_number r, sale_customer_id r, sales_rep_id r,
   (subtotal r, discount_amount r, tax_amount r, total_amount r),
   (commission_amount r, commission_rate r)).

Definition put_method (body : Upd.body) (existing : sale) : option string :=
  or_else (Upd.payment_method body) (payment_method existing).

Definition put_status (body : Upd.body) (existing : sale) : string :=
  match or_null_string (Upd.payment_status body) with
  | Some s => s
  | None => payment_status existing
  end.

Definition put_notes (body : Upd.body) (existing : sale) : option string :=
  match Upd.notes body with
  | Some n => n
  | None => notes existing
  end.

Definition put_row (pm : option string) (ps : string) (nt : option string)
    (id : Z) (r : sale) : sale :=
  if sale_id r =? id
  then mkSale (sale_id r) (sale_number r) (sale_customer_id r)
         (sales_rep_id r) (subtotal r) (discount_amount r) (tax_amount r)
         (total_amount r) (commission_amount r) (commission_rate r) pm ps nt
  else r.

Definition long_status : string := "pending-approval-by-manager".

(** A PUT that sends the empty text for its three fields. *)
Definition blank_put : Upd.body :=
  Upd.mkBody (Some EmptyString) (Some EmptyString) (Some (Some EmptyString)).

(** Product 1 exists in [db0], product 99 does not. *)
Definition cart_unknown_product : Req.body :=
  Req.mkBody (Some 1)
    (Some [Req.mkItem (Some 1) (Some 2) (Some 10%Q);
           Req.mkItem (Some 99) (Some 1) (Some 5%Q)])
    None None None None.

(* ================================================================= *)
(** ** Integrity kept by the sales endpoint *)

(** References resolve, keys are below their sequence, and no two sales
    share an id or a number. *)
Definition sound (db : DB) : Prop :=
  consistent db = true
  /\ NoDup (map sale_id (sales db))
  /\ NoDup (map sale_number (sales db)).

(* ================================================================= *)
(** ** Stock and ledger move together *)

(** What a movement row adds to the stock of its product. *)
Definition movement_delta (m : stock_movement) : Z :=
  if String.eqb (movement_type m) "in" then movement_quantity m
  else if String.eqb (movement_type m) "out" then - movement_quantity m
  else 0.

(** The sum of the movements of product [p]. *)
Definition net_of (ms : list stock_movement) (p : Z) : Z :=
  fold_right (fun m acc =>
                (if movement_product_id m =? p then movement_delta m else 0)
                + acc) 0 ms.

(** The stock of [p] that the ledger does not account for. *)
Definition off_ledger (db : DB) (p : Z) : option Z :=
  option_map (fun st => st - net_of (stock_movements db) p) (stock_of db p).

(* ================================================================= *)
(** ** The line items of a created sale *)


Section Digits.
Import Decimal DecimalFacts DecimalPos DecimalN.
Local Open Scope N_scope.

(** The decimal digit [n mod 10] as a character. *)
Definition digit_char (n : N) : ascii :=
  match n mod 10 with
  | 0 => "0" | 1 => "1" | 2 => "2" | 3 => "3" | 4 => "4"
  | 5 => "5" | 6 => "6" | 7 => "7" | 8 => "8" | _ => "9"
  end%char.

(** The last [k] decimal digits of [n], with leading zeros. *)
Fixpoint last_digits (k : nat) (n : N) : string :=
  match k with
  | O => EmptyString
  | S k' => (last_digits k' (n / 10)%N ++ String (digit_char n) EmptyString)%string
  end.

Definition digit_of (dg : digits) : N :=
  match dg with
  | d0 => 0 | d1 => 1 | d2 => 2 | d3 => 3 | d4 => 4
  | d5 => 5 | d6 => 6 | d7 => 7 | d8 => 8 | d9 => 9
  end.

Fixpoint string_of_digits (l : list digits) : string :=
  match l with
  | [] => EmptyString
  | dg :: rest => String (digit_char (digit_of dg)) (string_of_digits rest)
  end.

Definition digit_at (n : N) : digits :=
  match n mod 10 with
  | 0 => d0 | 1 => d1 | 2 => d2 | 3 => d3 | 4 => d4
  | 5 => d5 | 6 => d6 | 7 => d7 | 8 => d8 | _ => d9
  end.

End Digits.

(* ================================================================= *)
(** ** The users table and authenticateToken *)

Module Users.
Record row := mkRow {
  id : Z;
  username : string;                (* VARCHAR(50) UNIQUE NOT NULL *)
  email : string;                   (* VARCHAR(100) UNIQUE NOT NULL *)
  password_hash : string;           (* VARCHAR(255) NOT NULL *)
  full_name : string;               (* VARCHAR(100) NOT NULL *)
  role : string;                    (* VARCHAR(20) NOT NULL *)
  is_active : bool                  (* BOOLEAN; NULL reads as false *)
}.
Record table := mkTable {
  rows : list row;
  id_seq : Z
}.
End Users.

(** [s.split(' ')]: the pieces of [s] between single spaces. *)
Fixpoint split_space (s : string) : list string :=
  match s with
  | EmptyString => [EmptyString]
  | String c rest =>
      match split_space rest with
      | piece :: pieces =>
          if Ascii.eqb c " "%char
          then EmptyString :: piece :: pieces
          else String c piece :: pieces
      | [] => []
      end
  end.

(** [authHeader && authHeader.split(' ')[1]]; [None] is undefined (or the
    empty header, falsy as well). *)
Definition bearer (authorization : option string) : option string :=
  match authorization with
  | None => None
  | Some EmptyString => None
  | Some h => nth_error (split_space h) 1
  end.

(** [authenticateToken]; [verify] is [jwt.verify] with the secret of the
    server: the claims (userId, username, role) of a token it accepts, [None]
    for a token it rejects.  Whatever is thrown inside the [try] is replaced
    by the error of the [catch]. *)
Definition authenticateToken (verify : string -> option User.t)
    (users : list Users.row) (authorization : option string)
    : outcome User.t :=
  match bearer authorization with
  | None | Some EmptyString => Thrown "Access token required"
  | Some token =>
      match
        match verify token with
        | None => Thrown "jwt malformed"
        | Some decoded =>
            match filter (fun a => Users.id a =? User.id decoded) users with
            | [] => Thrown "Invalid or inactive user"
            | a :: _ =>
                if Users.is_active a
                then Returned (User.make (User.id decoded)
                                 (User.username decoded) (User.role decoded))
                else Thrown "Invalid or inactive user"
            end
        end
      with
      | Returned user => Returned user
      | Thrown _ => Thrown "Invalid or expired token"
      end
  end.

(** The [try] of a [handler] around [authenticateToken] and the branch [k]
    of the method: an authentication error goes through the [catch]. *)
Definition authenticated (verify : string -> option User.t)
    (users : list Users.row) (authorization : option string)
    (k : User.t -> DB -> response * DB) : DB -> response * DB :=
  match authenticateToken verify users authorization with
  | Returned user => k user
  | Thrown msg => api_catch (fun db => (Thrown msg, db))
  end.

(** A request to the sales endpoint: one of the methods of [request], or a
    PUT with its id and body. *)
Inductive sales_request :=
  | Call (req : request)
  | Put (id : option Z) (body : Upd.body).

(** The branch of the [switch] of the sales [handler]. *)
Definition branch (clk : clock) (user : User.t) (r : sales_request)
    : DB -> response * DB :=
  match r with
  | Call req => SalesApi.handler clk user req
  | Put id body => handler_put id body
  end.

Definition preflight (r : sales_request) : bool :=
  match r with
  | Call req => match req_method req with OPTIONS => true | _ => false end
  | Put _ _ => false
  end.

(** The sales [handler] from the request on: OPTIONS is answered before
    authentication, every other method after it. *)
Definition sales_endpoint (verify : string -> option User.t)
    (users : list Users.row) (authorization : option string)
    (clk : clock) (r : sales_request) : DB -> response * DB :=
  if preflight r then fun db => (mkResponse 200 EmptyString None, db)
  else authenticated verify users authorization (fun user => branch clk user r).

Fixpoint no_space (s : string) : bool :=
  match s with
  | EmptyString => true
  | String c rest => negb (Ascii.eqb c " "%char) && no_space rest
  end.

(** What [authenticateToken] reads of an account. *)
Definition standing (a : Users.row) : Z * bool :=
  (Users.id a, Users.is_active a).

(* ================================================================= *)
(** ** Regular expressions of the register handler *)

Inductive regex :=
  | Empty
  | Eps
  | Class (p : ascii -> bool)
  | Seq (r s : regex)
  | Alt (r s : regex)
  | Star (r : regex).

(** [r+] *)
Definition Plus (r : regex) : regex := Seq r (Star r).

Fixpoint nullable (r : regex) : bool :=
  match r with
  | Empty => false
  | Eps => true
  | Class _ => false
  | Seq r s => nullable r && nullable s
  | Alt r s => nullable r || nullable s
  | Star _ => true
  end.

(** The derivative of [r] by the character [c]. *)
Fixpoint deriv (c : ascii) (r : regex) : regex :=
  match r with
  | Empty => Empty
  | Eps => Empty
  | Class p => if p c then Eps else Empty
  | Seq r s =>
      if nullable r then Alt (Seq (deriv c r) s) (deriv c s)
      else Seq (deriv c r) s
  | Alt r s => Alt (deriv c r) (deriv c s)
  | Star r => Seq (deriv c r) (Star r)
  end.

(** [r] matches the whole of [s]: [/^r$/.test(s)]. *)
Fixpoint matches (r : regex) (s : string) : bool :=
  match s with
  | EmptyString => nullable r
  | String c rest => matches (deriv c r) rest
  end.

Definition any_char (c : ascii) : bool := true.

(** [r] matches somewhere in [s]: [/r/.test(s)]. *)
Definition test (r : regex) (s : string) : bool :=
  matches (Seq (Star (Class any_char)) (Seq r (Star (Class any_char)))) s.

Definition between (lo hi : N) (c : ascii) : bool :=
  ((lo <=? N_of_ascii c) && (N_of_ascii c <=? hi))%N.

(** [[a-zA-Z0-9_]] *)
Definition word_char (c : ascii) : bool :=
  between 97 122 c || between 65 90 c || between 48 57 c
  || Ascii.eqb c "_"%char.

(** [\S] on ASCII text: anything but tab, line feed, vertical tab, form
    feed, carriage return and space. *)
Definition non_space (c : ascii) : bool :=
  negb (between 9 13 c || Ascii.eqb c " "%char).

(** [/^[a-zA-Z0-9_]+$/] *)
Definition username_pattern : regex := Plus (Class word_char).

(** [/\S+@\S+\.\S+/] *)
Definition email_pattern : regex :=
  Seq (Plus (Class non_space))
   (Seq (Class (Ascii.eqb "@"%char))
     (Seq (Plus (Class non_space))
       (Seq (Class (Ascii.eqb "."%char))
            (Plus (Class non_space))))).

(** The strings of a regular expression. *)
Inductive lang : regex -> string -> Prop :=
  | lang_eps : lang Eps EmptyString
  | lang_class p c : p c = true -> lang (Class p) (String c EmptyString)
  | lang_seq r1 r2 s1 s2 :
      lang r1 s1 -> lang r2 s2 -> lang (Seq r1 r2) (s1 ++ s2)
  | lang_alt_l r1 r2 s : lang r1 s -> lang (Alt r1 r2) s
  | lang_alt_r r1 r2 s : lang r2 s -> lang (Alt r1 r2) s
  | lang_star_nil r : lang (Star r) EmptyString
  | lang_star_cons r s1 s2 :
      lang r s1 -> lang (Star r) s2 -> lang (Star r) (s1 ++ s2).

Fixpoint all_chars (p : ascii -> bool) (s : string) : bool :=
  match s with
  | EmptyString => true
  | String c rest => p c && all_chars p rest
  end.

(** A non-empty run of characters other than white space. *)
Definition solid (s : string) : Prop :=
  s <> EmptyString /\ all_chars non_space s = true.

(** Some text, an at sign, some text, a dot, some text, none of the three
    texts holding white space, anywhere in [s]. *)
Definition email_shape (s : string) : Prop :=
  exists before u v w after,
    s = before ++ u ++ "@" ++ v ++ "." ++ w ++ after
    /\ solid u /\ solid v /\ solid w.

(* ================================================================= *)
(** ** The register and login handlers *)

(** The body of POST /api/auth/register: [None] is a field that is absent
    or null; [role] tells absent ([None]) from null ([Some None]). *)
Module Reg.
Record body := mkBody {
  username : option string;
  email : option string;
  password : option string;
  full_name : option string;
  role : option (option string)
}.
End Reg.

Definition username_length : string :=
  "Username must be between 3 and 50 characters".
Definition username_chars : string :=
  "Username can only contain letters, numbers, and underscores".
Definition email_invalid : string := "Must be a valid email address".
Definition password_short : string :=
  "Password must be at least 6 characters long".
Definition full_name_length : string :=
  "Full name must be between 2 and 100 characters".

(** [!s || s.length < lo || s.length > hi] *)
Definition outside (lo hi : nat) (s : option string) : bool :=
  match or_null_string s with
  | None => true
  | Some s => (String.length s <? lo)%nat || (hi <? String.length s)%nat
  end.

(** [String(v)] of a field that may be undefined. *)
Definition text_of (s : option string) : string :=
  match s with
  | Some s => s
  | None => "undefined"
  end.

Definition validateRegisterData (data : Reg.body) : list string :=
  ((if outside 3 50 (Reg.username data) then [username_length] else [])
   ++ (if negb (matches username_pattern (text_of (Reg.username data)))
       then [username_chars] else [])
   ++ (if match or_null_string (Reg.email data) with
          | None => true
          | Some e => negb (test email_pattern e)
          end
       then [email_invalid] else [])
   ++ (if match or_null_string (Reg.password data) with
          | None => true
          | Some p => (String.length p <? 6)%nat
          end
       then [password_short] else [])
   ++ (if outside 2 100 (Reg.full_name data) then [full_name_length] else [])
  )%list.

(** [c.toLowerCase()] on ASCII text. *)
Definition lower_char (c : ascii) : ascii :=
  if between 65 90 c then ascii_of_N (N_of_ascii c + 32) else c.

Fixpoint toLowerCase (s : string) : string :=
  match s with
  | EmptyString => EmptyString
  | String c rest => String (lower_char c) (toLowerCase rest)
  end.

(** The part of a user row the handlers answer with. *)
Record profile := mkProfile {
  profile_id : Z;
  profile_username : string;
  profile_email : string;
  profile_full_name : string;
  profile_role : string
}.

Definition profile_of (u : Users.row) : profile :=
  mkProfile (Users.id u) (Users.username u) (Users.email u)
    (Users.full_name u) (Users.role u).

Record auth_response := mkAuthResponse {
  auth_status : Z;
  auth_message : string;
  auth_user : option profile;
  auth_token : option string
}.

(** [INSERT INTO users (...) VALUES ($1, $2, $3, $4, $5, true, ...)
    RETURNING ...]: the length bounds of the columns, NOT NULL on [role],
    then the two UNIQUE constraints. *)
Definition insert_user (username email password_hash full_name : string)
    (role : option string) (t : Users.table)
    : outcome Users.row * Users.table :=
  match varchar 50 username, varchar 100 email, varchar 255 password_hash,
        varchar 100 full_name, varchar_opt 20 role with
  | Returned username, Returned email, Returned password_hash,
    Returned full_name, Returned role =>
      let t' := Users.mkTable (Users.rows t) (Users.id_seq t + 1) in
      match role with
      | None => (Thrown "null value in column role", t')
      | Some role =>
          if existsb (fun u => String.eqb (Users.username u) username
                               || String.eqb (Users.email u) email)
               (Users.rows t)
          then (Thrown "duplicate key value violates unique constraint", t')
          else
            let u := Users.mkRow (Users.id_seq t) username email
                       password_hash full_name role true in
            (Returned u,
             Users.mkTable (Users.rows t ++ [u]) (Users.id_seq t + 1))
      end
  | _, _, _, _, _ => (Thrown too_long, t)
  end.

(** POST /api/auth/register.  [hash] is [bcrypt.hash] with the salt of this
    request, [sign] is [jwt.sign] with the secret of the server at the time
    of the request. *)
Definition register (hash : string -> string) (sign : User.t -> string)
    (body : Reg.body) (t : Users.table) : auth_response * Users.table :=
  match validateRegisterData body with
  | (_ :: _) as errors =>
      (mkAuthResponse 400 (String.concat ", " errors) None None, t)
  | [] =>
      match Reg.username body, Reg.email body, Reg.password body,
            Reg.full_name body with
      | Some username, Some email, Some password, Some full_name =>
          if existsb (fun u => String.eqb (Users.username u) username
                               || String.eqb (Users.email u) email)
               (Users.rows t)
          then (mkAuthResponse 400 "Username or email already exists"
                  None None, t)
          else
            match insert_user username (toLowerCase email) (hash password)
                    full_name
                    (match Reg.role body with
                     | None => Some "sales_rep"
                     | Some r => r
                     end) t with
            | (Returned newUser, t') =>
                (mkAuthResponse 201 "User registered successfully"
                   (Some (profile_of newUser))
                   (Some (sign (User.make (Users.id newUser)
                                  (Users.username newUser)
                                  (Users.role newUser)))), t')
            | (Thrown _, t') =>
                (mkAuthResponse 500 "Registration failed" None None, t')
            end
      | _, _, _, _ =>
          (mkAuthResponse 500 "Registration failed" None None, t)
      end
  end.

Module Login.
Record body := mkBody {
  username : option string;
  password : option string
}.
End Login.

(** POST /api/auth/login.  [compare] is [bcrypt.compare]; the update of
    [last_login], a column left out of [Users.row], changes nothing here. *)
Definition login (compare : string -> string -> bool)
    (sign : User.t -> string) (body : Login.body) (users : list Users.row)
    : auth_response :=
  match or_null_string (Login.username body),
        or_null_string (Login.password body) with
  | Some username, Some password =>
      match filter (fun u => String.eqb (Users.username u) username) users with
      | [] => mkAuthResponse 401 "Invalid username or password" None None
      | user :: _ =>
          if negb (Users.is_active user)
          then mkAuthResponse 401 "Account is inactive" None None
          else if negb (compare password (Users.password_hash user))
          then mkAuthResponse 401 "Invalid username or password" None None
          else mkAuthResponse 200 "Login successful"
                 (Some (profile_of user))
                 (Some (sign (User.make (Users.id user) (Users.username user)
                                (Users.role user))))
      end
  | _, _ => mkAuthResponse 400 "Username and password are required" None None
  end.

(** The keys of the users table are unique and below the sequence. *)
Definition users_sound (t : Users.table) : Prop :=
  NoDup (map Users.id (Users.rows t))
  /\ NoDup (map Users.username (Users.rows t))
  /\ NoDup (map Users.email (Users.rows t))
  /\ Forall (fun u => Users.id u < Users.id_seq t) (Users.rows t).

(** The data [validateRegisterData] has nothing to say against. *)
Definition acceptable (d : Reg.body) : Prop :=
  exists u e p f,
    Reg.username d = Some u /\ Reg.email d = Some e
    /\ Reg.password d = Some p /\ Reg.full_name d = Some f
    /\ (3 <= String.length u <= 50)%nat /\ all_chars word_char u = true
    /\ email_shape e
    /\ (6 <= String.length p)%nat
    /\ (2 <= String.length f <= 100)%nat.

(** The claims of the token issued for an account. *)
Definition claims_of (u : Users.row) : User.t :=
  User.make (Users.id u) (Users.username u) (Users.role u).

Definition taken (username email : string) (users : list Users.row) : bool :=
  existsb (fun u => String.eqb (Users.username u) username
                    || String.eqb (Users.email u) email) users.

(** Sample data. *)
Definition sample_verify (token : string) : option User.t :=
  if String.eqb token "good" then Some admin else None.

Definition users0 : Users.table :=
  Users.mkTable
    [Users.mkRow 1 "admin" "admin@nerho.com" "h:admin123"
       "System Administrator" "admin" true;
     Users.mkRow 2 "sales_rep" "sales@nerho.com" "h:sales123"
       "Demo Sales Representative" "sales_rep" true] 3.

Definition sample_hash (password : string) : string := "h:" ++ password.
Definition sample_compare (password hash : string) : bool :=
  String.eqb hash ("h:" ++ password).
Definition sample_sign (u : User.t) : string :=
  if (User.id u =? 3) && String.eqb (User.role u) "admin"
  then "token-3-admin" else "token".
Definition mallory : Reg.body :=
  Reg.mkBody (Some "mallory") (Some "Mallory@Example.com") (Some "secret1")
    (Some "Mallory M") (Some (Some "admin")).

Definition requested_role (body : Reg.body) : option string :=
  match Reg.role body with
  | None => Some "sales_rep"
  | Some r => r
  end.

(* ================================================================= *)
(** ** POST and PUT /api/customers *)

(** The customers table with the columns that POST and PUT write; the sales
    handlers see of a row its [slim] part. *)
Module Cust.
Record row := mkRow {
  id : Z;
  name : string;                    (* VARCHAR(255) NOT NULL *)
  email : option string;            (* VARCHAR(100) *)
  phone : option string;            (* VARCHAR(20) *)
  address : option string;          (* TEXT *)
  customer_type : option string;    (* VARCHAR(20) *)
  total_purchases : Z;              (* DECIMAL(15,2), hundredths *)
  created_by : Z
}.
Record table := mkTable {
  rows : list row;
  id_seq : Z
}.
Record response := mkResponse {
  status : Z;
  message : string;
  customer : option row
}.
(** The body of POST: [None] is a field that is absent or null;
    [customer_type] tells absent ([None]) from null ([Some None]). *)
Record create := mkCreate {
  c_name : option string;
  c_email : option string;
  c_phone : option string;
  c_address : option string;
  c_customer_type : option (option string)
}.
(** The body of PUT: [email], [phone] and [address] tell absent ([None])
    from null ([Some None]). *)
Record update := mkUpdate {
  u_name : option string;
  u_email : option (option string);
  u_phone : option (option string);
  u_address : option (option string);
  u_customer_type : option string
}.
Inductive request :=
  | Post (body : create)
  | Put (id : option Z) (body : update).
End Cust.

Definition slim (r : Cust.row) : customer :=
  mkCustomer (Cust.id r) (Cust.total_purchases r).

(** [SELECT id FROM customers WHERE email = $1 AND id != $2]; PUT excludes
    the row [but], POST excludes none. *)
Definition email_in_use (e : string) (but : option Z) (rows : list Cust.row)
    : bool :=
  existsb (fun r =>
             match Cust.email r with
             | Some e' => String.eqb e' e
             | None => false
             end
             && match but with
                | Some i => negb (Cust.id r =? i)
                | None => true
                end) rows.

(** [INSERT INTO customers (...) VALUES ($1, $2, $3, $4, $5, 0, $6, ...)
    RETURNING *] *)
Definition insert_customer (name : string)
    (email phone address customer_type : option string) (created_by : Z)
    (t : Cust.table) : outcome Cust.row * Cust.table :=
  match varchar 255 name, varchar_opt 100 email, varchar_opt 20 phone,
        varchar_opt 20 customer_type with
  | Returned name, Returned email, Returned phone, Returned customer_type =>
      let r := Cust.mkRow (Cust.id_seq t) name email phone address
                 customer_type 0 created_by in
      (Returned r, Cust.mkTable (Cust.rows t ++ [r]) (Cust.id_seq t + 1))
  | _, _, _, _ => (Thrown too_long, t)
  end.

(** POST /api/customers *)
Definition handleCreateCustomer (user : User.t) (body : Cust.create)
    (t : Cust.table) : outcome Cust.response * Cust.table :=
  match or_null_string (Cust.c_name body) with
  | None =>
      (Returned (Cust.mkResponse 400 "Customer name is required" None), t)
  | Some name =>
      if match or_null_string (Cust.c_email body) with
         | Some email => email_in_use email None (Cust.rows t)
         | None => false
         end
      then (Returned (Cust.mkResponse 400 "Email already exists" None), t)
      else
        match insert_customer name
                (or_null_string (Cust.c_email body))
                (or_null_string (Cust.c_phone body))
                (or_null_string (Cust.c_address body))
                (match Cust.c_customer_type body with
                 | None => Some "individual"
                 | Some v => v
                 end)
                (User.id user) t with
        | (Returned row, t') =>
            (Returned (Cust.mkResponse 201 "Customer created successfully"
                         (Some row)), t')
        | (Thrown msg, t') => (Thrown msg, t')
        end
  end.

(** The row [UPDATE customers SET name = $1, email = $2, phone = $3,
    address = $4, customer_type = $5 WHERE id = $6] leaves in the place of
    [r]. *)
Definition set_customer (name : string)
    (email phone address customer_type : option string) (id : Z)
    (r : Cust.row) : Cust.row :=
  if Cust.id r =? id
  then Cust.mkRow (Cust.id r) name email phone address customer_type
         (Cust.total_purchases r) (Cust.created_by r)
  else r.

Definition update_customer (name : string)
    (email phone address customer_type : option string) (id : Z)
    (t : Cust.table) : outcome (list Cust.row) * Cust.table :=
  match varchar 255 name, varchar_opt 100 email, varchar_opt 20 phone,
        varchar_opt 20 customer_type with
  | Returned name, Returned email, Returned phone, Returned customer_type =>
      let rows := map (set_customer name email phone address customer_type id)
                    (Cust.rows t) in
      (Returned (filter (fun r => Cust.id r =? id) rows),
       Cust.mkTable rows (Cust.id_seq t))
  | _, _, _, _ => (Thrown too_long, t)
  end.

(** [v !== undefined ? v : current] *)
Definition unless_undefined (v : option (option string))
    (current : option string) : option string :=
  match v with
  | Some v => v
  | None => current
  end.

(** PUT /api/customers *)
Definition handleUpdateCustomer (id : option Z) (body : Cust.update)
    (t : Cust.table) : outcome Cust.response * Cust.table :=
  match id with
  | None => (Returned (Cust.mkResponse 400 "Customer ID is required" None), t)
  | Some id =>
      match filter (fun r => Cust.id r =? id) (Cust.rows t) with
      | [] => (Returned (Cust.mkResponse 404 "Customer not found" None), t)
      | current :: _ =>
          if match Cust.u_email body with
             | Some (Some (String c e)) =>
                 if match Cust.email current with
                    | Some e' => negb (String.eqb (String c e) e')
                    | None => true
                    end
                 then email_in_use (String c e) (Some id) (Cust.rows t)
                 else false
             | _ => false
             end
          then (Returned (Cust.mkResponse 400 "Email already exists" None), t)
          else
            match update_customer
                    (match or_null_string (Cust.u_name body) with
                     | Some n => n
                     | None => Cust.name current
                     end)
                    (unless_undefined (Cust.u_email body) (Cust.email current))
                    (unless_undefined (Cust.u_phone body) (Cust.phone current))
                    (unless_undefined (Cust.u_address body)
                       (Cust.address current))
                    (or_else (Cust.u_customer_type body)
                       (Cust.customer_type current))
                    id t with
            | (Returned rows, t') =>
                (Returned (Cust.mkResponse 200 "Customer updated successfully"
                             (hd_error rows)), t')
            | (Thrown msg, t') => (Thrown msg, t')
            end
      end
  end.

(** The [catch] of the customers [handler]. *)
Definition customers_catch
    (m : Cust.table -> outcome Cust.response * Cust.table)
    : Cust.table -> Cust.response * Cust.table :=
  fun t =>
    match m t with
    | (Returned r, t') => (r, t')
    | (Thrown msg, t') =>
        (if includes "token" msg || includes "Invalid" msg
            || includes "inactive" msg
         then Cust.mkResponse 401 msg None
         else Cust.mkResponse 500 "Server error" None, t')
    end.

(** The POST and PUT branches of the customers [handler]. *)
Definition customers_endpoint (user : User.t) (r : Cust.request)
    : Cust.table -> Cust.response * Cust.table :=
  match r with
  | Cust.Post body => customers_catch (handleCreateCustomer user body)
  | Cust.Put id body => customers_catch (handleUpdateCustomer id body)
  end.

(** The emails that count for the check of the handlers: the non-empty
    ones, in the order of the rows. *)
Definition used_email (r : Cust.row) : list string :=
  match Cust.email r with
  | Some (String c e) => [String c e]
  | _ => []
  end.

Definition used_emails (rows : list Cust.row) : list string :=
  flat_map used_email rows.

(** The keys are unique and below the sequence, the emails fit their
    column, and no two customers share a non-empty email. *)
Definition customers_sound (t : Cust.table) : Prop :=
  NoDup (map Cust.id (Cust.rows t))
  /\ Forall (fun r => Cust.id r < Cust.id_seq t) (Cust.rows t)
  /\ Forall (fun r => varchar_opt 100 (Cust.email r)
                      = Returned (Cust.email r)) (Cust.rows t)
  /\ NoDup (used_emails (Cust.rows t)).

(** The email a request carries, if any. *)
Definition email_sent (r : Cust.request) : option string :=
  match r with
  | Cust.Post body => Cust.c_email body
  | Cust.Put _ body =>
      match Cust.u_email body with
      | Some e => e
      | None => None
      end
  end.

Definition email_fits (r : Cust.request) : Prop :=
  match email_sent r with
  | Some e => (String.length e <= 100)%nat
  | None => True
  end.

Definition customers0 : Cust.table :=
  Cust.mkTable
    [Cust.mkRow 1 "John Smith" (Some "john.smith@email.com")
       (Some "+1-555-0101") (Some "123 Main St") (Some "individual") 0 1;
     Cust.mkRow 2 "Sarah Johnson" (Some "sarah.j@email.com")
       (Some "+1-555-0102") (Some "456 Oak Ave") (Some "individual") 12050 1]
    3.

(* ================================================================= *)
(** ** POST and PUT /api/products *)

(** The products table with the columns that POST and PUT write, the ids of
    [categories], and [price_history]. *)
Module Prod.
Record row := mkRow {
  id : Z;
  name : string;                    (* VARCHAR(255) NOT NULL *)
  description : option string;      (* TEXT *)
  category_id : option Z;           (* REFERENCES categories(id) *)
  sku : option string;              (* VARCHAR(100) UNIQUE *)
  cost_price : Z;                   (* DECIMAL(10,2), hundredths *)
  selling_price : Z;                (* DECIMAL(10,2), hundredths *)
  stock_quantity : Z;
  min_stock_level : Z;
  created_by : Z
}.
Record price := mkPrice {
  price_id : Z;
  price_product : Z;                (* REFERENCES products(id) *)
  event_type : string;
  old_price : option Z;             (* DECIMAL(10,2), hundredths *)
  new_price : Z;                    (* DECIMAL(10,2), hundredths *)
  changed_by : Z
}.
Record state := mkState {
  rows : list row;
  id_seq : Z;
  categories : list Z;
  history : list price;
  history_seq : Z
}.
Record response := mkResponse {
  status : Z;
  message : string;
  product : option row
}.
(** The body of POST: [None] is a field that is absent (or null, for a
    string). *)
Record create := mkCreate {
  c_name : option string;
  c_description : option string;
  c_category_id : option Z;
  c_sku : option string;
  c_cost_price : option Q;
  c_selling_price : option Q;
  c_stock_quantity : option Z;
  c_min_stock_level : option Z
}.
(** The body of PUT: [description] and [sku] tell absent ([None]) from null
    ([Some None]). *)
Record update := mkUpdate {
  u_name : option string;
  u_description : option (option string);
  u_category_id : option Z;
  u_sku : option (option string);
  u_cost_price : option Q;
  u_selling_price : option Q;
  u_stock_quantity : option Z;
  u_min_stock_level : option Z
}.
Inductive request :=
  | Post (body : create)
  | Put (id : option Z) (body : update).
End Prod.

(** [SELECT id FROM products WHERE sku = $1 AND id != $2], and the UNIQUE
    constraint on [sku]; [but] is the row left out, if any. *)
Definition sku_in_use (s : string) (but : option Z) (rows : list Prod.row)
    : bool :=
  existsb (fun r =>
             match Prod.sku r with
             | Some s' => String.eqb s' s
             | None => false
             end
             && match but with
                | Some i => negb (Prod.id r =? i)
                | None => true
                end) rows.

(** The foreign key of [products.category_id]. *)
Definition category_missing (c : option Z) (st : Prod.state) : bool :=
  match c with
  | Some c => negb (existsb (Z.eqb c) (Prod.categories st))
  | None => false
  end.

Definition next_product_id (st : Prod.state) : Prod.state :=
  Prod.mkState (Prod.rows st) (Prod.id_seq st + 1) (Prod.categories st)
    (Prod.history st) (Prod.history_seq st).

(** [INSERT INTO products (...) VALUES ($1, ..., $9, ...) RETURNING *] *)
Definition insert_product (name : string) (description : option string)
    (category_id : option Z) (sku : option string) (cost_price : Q)
    (selling_price : Q) (stock_quantity min_stock_level created_by : Z)
    (st : Prod.state) : outcome Prod.row * Prod.state :=
  match varchar 255 name, varchar_opt 100 sku with
  | Returned name, Returned sku =>
      if category_missing category_id st
      then (Thrown "violates foreign key constraint", next_product_id st)
      else if match sku with
              | Some s => sku_in_use s None (Prod.rows st)
              | None => false
              end
      then (Thrown "duplicate key value violates unique constraint",
            next_product_id st)
      else
        let r := Prod.mkRow (Prod.id_seq st) name description category_id sku
                   (to_decimal2 cost_price) (to_decimal2 selling_price)
                   stock_quantity min_stock_level created_by in
        (Returned r,
         Prod.mkState (Prod.rows st ++ [r]) (Prod.id_seq st + 1)
           (Prod.categories st) (Prod.history st) (Prod.history_seq st))
  | _, _ => (Thrown too_long, st)
  end.

(** [INSERT INTO price_history (product_id, event_type, old_price,
    new_price, changed_by, created_at) VALUES (...)] *)
Definition insert_price (product : Z) (event : string) (old : option Z)
    (new : Q) (user : Z) (st : Prod.state) : Prod.state :=
  Prod.mkState (Prod.rows st) (Prod.id_seq st) (Prod.categories st)
    (Prod.history st
     ++ [Prod.mkPrice (Prod.history_seq st) product event old
           (to_decimal2 new) user])
    (Prod.history_seq st + 1).

(** POST /api/products *)
Definition handleCreateProduct (user : User.t) (body : Prod.create)
    (st : Prod.state) : outcome Prod.response * Prod.state :=
  match or_null_string (Prod.c_name body),
        (if truthyQ (Prod.c_cost_price body)
         then Prod.c_cost_price body else None),
        (if truthyQ (Prod.c_selling_price body)
         then Prod.c_selling_price body else None) with
  | Some name, Some cost_price, Some selling_price =>
      if match or_null_string (Prod.c_sku body) with
         | Some sku => sku_in_use sku None (Prod.rows st)
         | None => false
         end
      then (Returned (Prod.mkResponse 400 "SKU already exists" None), st)
      else
        match insert_product name (Prod.c_description body)
                (or_null (Prod.c_category_id body))
                (or_null_string (Prod.c_sku body))
                cost_price selling_price
                (match Prod.c_stock_quantity body with
                 | Some q => q
                 | None => 0
                 end)
                (match Prod.c_min_stock_level body with
                 | Some q => q
                 | None => 0
                 end)
                (User.id user) st with
        | (Returned row, st') =>
            (Returned (Prod.mkResponse 201 "Product created successfully"
                         (Some row)),
             insert_price (Prod.id row) "created" None selling_price
               (User.id user) st')
        | (Thrown msg, st') => (Thrown msg, st')
        end
  | _, _, _ =>
      (Returned (Prod.mkResponse 400
                   "Name, cost price, and selling price are required" None),
       st)
  end.

(** The row [UPDATE products SET name = $1, ..., min_stock_level = $8
    WHERE id = $9] leaves in the place of [r]. *)
Definition set_product (name : string) (description : option string)
    (category_id : option Z) (sku : option string)
    (cost_price selling_price stock_quantity min_stock_level : Z) (id : Z)
    (r : Prod.row) : Prod.row :=
  if Prod.id r =? id
  then Prod.mkRow (Prod.id r) name description category_id sku cost_price
         selling_price stock_quantity min_stock_level (Prod.created_by r)
  else r.

Definition update_product (name : string) (description : option string)
    (category_id : option Z) (sku : option string)
    (cost_price selling_price stock_quantity min_stock_level : Z) (id : Z)
    (st : Prod.state) : outcome (list Prod.row) * Prod.state :=
  match varchar 255 name, varchar_opt 100 sku with
  | Returned name, Returned sku =>
      if category_missing category_id st
      then (Thrown "violates foreign key constraint", st)
      else if match sku with
              | Some s => sku_in_use s (Some id) (Prod.rows st)
              | None => false
              end
      then (Thrown "duplicate key value violates unique constraint", st)
      else
        let rows := map (set_product name description category_id sku
                           cost_price selling_price stock_quantity
                           min_stock_level id) (Prod.rows st) in
        (Returned (filter (fun r => Prod.id r =? id) rows),
         Prod.mkState rows (Prod.id_seq st) (Prod.categories st)
           (Prod.history st) (Prod.history_seq st))
  | _, _ => (Thrown too_long, st)
  end.

(** PUT /api/products.  The stored price is read back as a string, so the
    test [selling_price !== current.selling_price] holds for every number
    sent. *)
Definition handleUpdateProduct (user : User.t) (id : option Z)
    (body : Prod.update) (st : Prod.state)
    : outcome Prod.response * Prod.state :=
  match id with
  | None => (Returned (Prod.mkResponse 400 "Product ID is required" None), st)
  | Some id =>
      match filter (fun r => Prod.id r =? id) (Prod.rows st) with
      | [] => (Returned (Prod.mkResponse 404 "Product not found" None), st)
      | current :: _ =>
          if match Prod.u_sku body with
             | Some (Some (String c s)) =>
                 if match Prod.sku current with
                    | Some s' => negb (String.eqb (String c s) s')
                    | None => true
                    end
                 then sku_in_use (String c s) (Some id) (Prod.rows st)
                 else false
             | _ => false
             end
          then (Returned (Prod.mkResponse 400 "SKU already exists" None), st)
          else
            match update_product
                    (match or_null_string (Prod.u_name body) with
                     | Some n => n
                     | None => Prod.name current
                     end)
                    (unless_undefined (Prod.u_description body)
                       (Prod.description current))
                    (match Prod.u_category_id body with
                     | Some c => Some c
                     | None => Prod.category_id current
                     end)
                    (unless_undefined (Prod.u_sku body) (Prod.sku current))
                    (match Prod.u_cost_price body with
                     | Some q => if truthyQ (Some q) then to_decimal2 q
                                 else Prod.cost_price current
                     | None => Prod.cost_price current
                     end)
                    (match Prod.u_selling_price body with
                     | Some q => if truthyQ (Some q) then to_decimal2 q
                                 else Prod.selling_price current
                     | None => Prod.selling_price current
                     end)
                    (match Prod.u_stock_quantity body with
                     | Some q => q
                     | None => Prod.stock_quantity current
                     end)
                    (match Prod.u_min_stock_level body with
                     | Some q => q
                     | None => Prod.min_stock_level current
                     end)
                    id st with
            | (Returned rows, st') =>
                (Returned (Prod.mkResponse 200 "Product updated successfully"
                             (hd_error rows)),
                 match Prod.u_selling_price body with
                 | Some q =>
                     if truthyQ (Some q)
                     then insert_price id "updated"
                            (Some (Prod.selling_price current)) q
                            (User.id user) st'
                     else st'
                 | None => st'
                 end)
            | (Thrown msg, st') => (Thrown msg, st')
            end
      end
  end.

(** The [catch] of the products [handler]. *)
Definition products_catch
    (m : Prod.state -> outcome Prod.response * Prod.state)
    : Prod.state -> Prod.response * Prod.state :=
  fun st =>
    match m st with
    | (Returned r, st') => (r, st')
    | (Thrown msg, st') =>
        (if includes "token" msg || includes "Invalid" msg
            || includes "inactive" msg
         then Prod.mkResponse 401 msg None
         else Prod.mkResponse 500 "Server error" None, st')
    end.

(** The POST and PUT branches of the products [handler]. *)
Definition products_endpoint (user : User.t) (r : Prod.request)
    : Prod.state -> Prod.response * Prod.state :=
  match r with
  | Prod.Post body => products_catch (handleCreateProduct user body)
  | Prod.Put id body => products_catch (handleUpdateProduct user id body)
  end.

(** The price last written to [price_history] for product [p]. *)
Definition last_logged (h : list Prod.price) (p : Z) : option Z :=
  option_map Prod.new_price
    (hd_error (rev (filter (fun x => Prod.price_product x =? p) h))).

(** The keys are unique and below the sequence, every row of the price
    history belongs to a product, and a product with a price history sells
    at the price its history ends with. *)
Definition products_sound (st : Prod.state) : Prop :=
  NoDup (map Prod.id (Prod.rows st))
  /\ Forall (fun r => Prod.id r < Prod.id_seq st) (Prod.rows st)
  /\ Forall (fun x => In (Prod.price_product x) (map Prod.id (Prod.rows st)))
       (Prod.history st)
  /\ Forall (fun r => last_logged (Prod.history st) (Prod.id r) = None
                      \/ last_logged (Prod.history st) (Prod.id r)
                         = Some (Prod.selling_price r)) (Prod.rows st).

Definition products0 : Prod.state :=
  Prod.mkState
    [Prod.mkRow 1 "Wireless Bluetooth Headphones" (Some "High-quality")
       (Some 1) (Some "WBH-001") 7500 14999 50 10 1;
     Prod.mkRow 2 "Premium Cotton T-Shirt" (Some "Comfortable") (Some 2)
       (Some EmptyString) 800 2499 100 20 1]
    3 [1; 2; 3] [] 1.

(** The selling price PUT writes. *)
Definition put_price (body : Prod.update) (current : Prod.row) : Z :=
  match Prod.u_selling_price body with
  | Some q => if truthyQ (Some q) then to_decimal2 q
              else Prod.selling_price current
  | None => Prod.selling_price current
  end.

(* ================================================================= *)
(** ** api/init-db.js: the guard and seedInitialData *)

(** The four tables [seedInitialData] reads and writes.  [createTables]
    creates the tables that are missing and changes no row; a table that is
    missing is an empty one here. *)
Module Seed.
Record category := mkCategory {
  category_id : Z;
  category_name : string;           (* VARCHAR(100) NOT NULL *)
  category_description : string     (* TEXT *)
}.
Record db := mkDb {
  users : Users.table;
  categories : list category;
  categories_id_seq : Z;
  products : list Prod.row;
  products_id_seq : Z;
  customers : Cust.table
}.
Record response := mkResponse {
  status : Z;
  message : string
}.
(** The rows of the four tables, without the sequences. *)
Definition tables (s : db) :=
  (Users.rows (users s), categories s, products s, Cust.rows (customers s)).
End Seed.

(** A state and error monad over the four tables. *)
Definition Seeding (A : Type) : Type := Seed.db -> outcome A * Seed.db.

Definition seed_ret {A} (a : A) : Seeding A := fun s => (Returned a, s).

Definition seed_bind {A B} (m : Seeding A) (k : A -> Seeding B) : Seeding B :=
  fun s =>
    match m s with
    | (Returned a, s') => k a s'
    | (Thrown msg, s') => (Thrown msg, s')
    end.

(** [INSERT INTO users ...] on the connection of the seed. *)
Definition seed_user (username email password_hash full_name role : string)
    : Seeding unit :=
  fun s =>
    match insert_user username email password_hash full_name (Some role)
            (Seed.users s) with
    | (Returned _, t) =>
        (Returned tt,
         Seed.mkDb t (Seed.categories s) (Seed.categories_id_seq s)
           (Seed.products s) (Seed.products_id_seq s) (Seed.customers s))
    | (Thrown msg, t) =>
        (Thrown msg,
         Seed.mkDb t (Seed.categories s) (Seed.categories_id_seq s)
           (Seed.products s) (Seed.products_id_seq s) (Seed.customers s))
    end.

(** The rows a multi-row INSERT appends: the keys are taken from the
    sequence in the order of the rows. *)
Fixpoint numbered {A B} (mk : Z -> A -> B) (next : Z) (l : list A) : list B :=
  match l with
  | [] => []
  | a :: l' => mk next a :: numbered mk (next + 1) l'
  end.

Definition sample_categories : list (string * string) :=
  [("Electronics", "Electronic devices and accessories");
   ("Clothing", "Apparel and fashion items");
   ("Books", "Books and educational materials");
   ("Home & Garden", "Home improvement and garden supplies");
   ("Sports", "Sports equipment and accessories")].

Definition seed_categories : Seeding unit :=
  fun s =>
    (Returned tt,
     Seed.mkDb (Seed.users s)
       (Seed.categories s
        ++ numbered (fun i c => Seed.mkCategory i (fst c) (snd c))
             (Seed.categories_id_seq s) sample_categories)
       (Seed.categories_id_seq s + Z.of_nat (List.length sample_categories))
       (Seed.products s) (Seed.products_id_seq s) (Seed.customers s)).

(** [rows[0].id] of [SELECT id FROM users WHERE username = $1]; reading the
    id of a row that is not there throws a TypeError. *)
Definition user_named (username : string) : Seeding Z :=
  fun s =>
    match filter (fun u => String.eqb (Users.username u) username)
            (Users.rows (Seed.users s)) with
    | u :: _ => (Returned (Users.id u), s)
    | [] => (Thrown "Cannot read properties of undefined (reading 'id')", s)
    end.

(** [rows[0].id] of [SELECT id FROM categories WHERE name = $1] *)
Definition category_named (name : string) : Seeding Z :=
  fun s =>
    match filter (fun c => String.eqb (Seed.category_name c) name)
            (Seed.categories s) with
    | c :: _ => (Returned (Seed.category_id c), s)
    | [] => (Thrown "Cannot read properties of undefined (reading 'id')", s)
    end.

(** The sample products: name, description, category, SKU, cost price and
    selling price in hundredths, stock and minimum stock. *)
Definition sample_products (electronics clothing books : Z)
    : list (string * string * Z * string * (Z * Z) * (Z * Z)) :=
  [("Wireless Bluetooth Headphones",
    "High-quality wireless headphones with noise cancellation",
    electronics, "WBH-001", (7500, 14999), (50, 10));
   ("Premium Cotton T-Shirt", "Comfortable 100% cotton t-shirt",
    clothing, "CT-001", (800, 2499), (100, 20));
   ("JavaScript Programming Guide",
    "Complete guide to modern JavaScript programming",
    books, "JS-001", (1500, 3999), (25, 5));
   ("Smart Home Security Camera",
    "WiFi-enabled security camera with mobile app",
    electronics, "SC-001", (4500, 8999), (30, 5));
   ("Running Shoes", "Professional running shoes for athletes",
    clothing, "RS-001", (3500, 7999), (75, 15))].

Definition seed_products (admin electronics clothing books : Z)
    : Seeding unit :=
  fun s =>
    let rows := sample_products electronics clothing books in
    (Returned tt,
     Seed.mkDb (Seed.users s) (Seed.categories s) (Seed.categories_id_seq s)
       (Seed.products s
        ++ numbered
             (fun i p =>
                match p with
                | (name, description, category, sku, (cost, price),
                   (stock, min_stock)) =>
                    Prod.mkRow i name (Some description) (Some category)
                      (Some sku) cost price stock min_stock admin
                end) (Seed.products_id_seq s) rows)
       (Seed.products_id_seq s + Z.of_nat (List.length rows))
       (Seed.customers s)).

Definition sample_customers : list (string * string * string * string * string) :=
  [("John Smith", "john.smith@email.com", "+1-555-0101",
    "123 Main St, City, State 12345", "individual");
   ("Sarah Johnson", "sarah.j@email.com", "+1-555-0102",
    "456 Oak Ave, City, State 12345", "individual");
   ("ABC Corporation", "orders@abc-corp.com", "+1-555-0200",
    "789 Business Blvd, City, State 12345", "business")].

Definition seed_customers (admin : Z) : Seeding unit :=
  fun s =>
    (Returned tt,
     Seed.mkDb (Seed.users s) (Seed.categories s) (Seed.categories_id_seq s)
       (Seed.products s) (Seed.products_id_seq s)
       (Cust.mkTable
          (Cust.rows (Seed.customers s)
           ++ numbered
                (fun i c =>
                   match c with
                   | (name, email, phone, address, type) =>
                       Cust.mkRow i name (Some email) (Some phone)
                         (Some address) (Some type) 0 admin
                   end) (Cust.id_seq (Seed.customers s)) sample_customers)
          (Cust.id_seq (Seed.customers s)
           + Z.of_nat (List.length sample_customers)))).

(** ROLLBACK: the rows are those of [before]; the sequences stay where the
    statements left them. *)
Definition seed_rollback (before after : Seed.db) : Seed.db :=
  Seed.mkDb
    (Users.mkTable (Users.rows (Seed.users before))
       (Users.id_seq (Seed.users after)))
    (Seed.categories before) (Seed.categories_id_seq after)
    (Seed.products before) (Seed.products_id_seq after)
    (Cust.mkTable (Cust.rows (Seed.customers before))
       (Cust.id_seq (Seed.customers after))).

(** The four blocks of [seedInitialData]; [hash] is [bcrypt.hash] with the
    salts of this run. *)
Definition seed_users_block (hash : string -> string) : Seeding unit :=
  fun s =>
    match filter (fun u => String.eqb (Users.username u) "admin")
            (Users.rows (Seed.users s)) with
    | [] =>
        seed_bind
          (seed_user "admin" "admin@nerho.com" (hash "admin123")
             "System Administrator" "admin")
          (fun _ =>
             seed_user "sales_rep" "sales@nerho.com" (hash "sales123")
               "Demo Sales Representative" "sales_rep") s
    | _ :: _ => seed_ret tt s
    end.

Definition seed_categories_block : Seeding unit :=
  fun s =>
    match Seed.categories s with
    | [] => seed_categories s
    | _ :: _ => seed_ret tt s
    end.

Definition seed_products_block : Seeding unit :=
  fun s =>
    match Seed.products s with
    | [] =>
        seed_bind (user_named "admin") (fun adminId =>
        seed_bind (category_named "Electronics") (fun electronics =>
        seed_bind (category_named "Clothing") (fun clothing =>
        seed_bind (category_named "Books") (fun books =>
        seed_products adminId electronics clothing books)))) s
    | _ :: _ => seed_ret tt s
    end.

Definition seed_customers_block : Seeding unit :=
  fun s =>
    match Cust.rows (Seed.customers s) with
    | [] => seed_bind (user_named "admin") seed_customers s
    | _ :: _ => seed_ret tt s
    end.

(** [seedInitialData]: the four blocks between BEGIN and COMMIT, ROLLBACK
    when one of them throws. *)
Definition seedInitialData (hash : string -> string) : Seeding unit :=
  fun s =>
    match
      seed_bind (seed_users_block hash) (fun _ =>
      seed_bind seed_categories_block (fun _ =>
      seed_bind seed_products_block (fun _ =>
      seed_customers_block))) s
    with
    | (Returned done, s') => (Returned done, s')
    | (Thrown msg, s') => (Thrown msg, seed_rollback s s')
    end.

(** [init_key !== process.env.DB_INIT_KEY] *)
Definition keys_differ (init_key configured : option string) : bool :=
  match init_key, configured with
  | Some a, Some b => negb (String.eqb a b)
  | None, None => false
  | _, _ => true
  end.

(** The POST branch of the init-db [handler]: [configured] is
    [process.env.DB_INIT_KEY], [init_key] the field of the body, [None]
    when undefined. *)
Definition init_db (configured init_key : option string)
    (hash : string -> string) (s : Seed.db) : Seed.response * Seed.db :=
  if keys_differ init_key configured
  then (Seed.mkResponse 403 "Invalid initialization key", s)
  else
    match seedInitialData hash s with
    | (Returned _, s') =>
        (Seed.mkResponse 200 "Database initialized successfully", s')
    | (Thrown _, s') =>
        (Seed.mkResponse 500 "Database initialization failed", s')
    end.

Definition empty_db : Seed.db :=
  Seed.mkDb (Users.mkTable [] 1) [] 1 [] 1 (Cust.mkTable [] 1).

(** The account named admin is there. *)
Definition has_admin (s : Seed.db) : bool :=
  existsb (fun u => String.eqb (Users.username u) "admin")
    (Users.rows (Seed.users s)).

(** Nothing is left for [seedInitialData] to do. *)
Definition seeded (s : Seed.db) : Prop :=
  has_admin s = true /\ Seed.categories s <> [] /\ Seed.products s <> []
  /\ Cust.rows (Seed.customers s) <> [].

(** What each block does to the tables when it returns. *)
Definition grows (s s' : Seed.db) (lu : list Users.row)
    (lc : list Seed.category) (lp : list Prod.row) (lk : list Cust.row)
    : Prop :=
  Users.rows (Seed.users s') = (Users.rows (Seed.users s) ++ lu)%list
  /\ Seed.categories s' = (Seed.categories s ++ lc)%list
  /\ Seed.products s' = (Seed.products s ++ lp)%list
  /\ Cust.rows (Seed.customers s') = (Cust.rows (Seed.customers s) ++ lk)%list.

(* ================================================================= *)
(** ** Vocabulary of the statements: the limits of the columns *)

(** The values of an INTEGER column or parameter. *)
Definition int4 (z : Z) : bool := (-2147483648 <=? z) && (z <=? 2147483647).




(** Text of characters below 128, on which the lengths, the classes
    [\w] and [\S] and the letter case of JavaScript are those of the
    model. *)
Definition is_ascii (s : string) : bool :=
  all_chars (fun c => (N_of_ascii c <? 128)%N) s.

Definition ascii_field (v : option string) : bool :=
  match v with
  | Some s => is_ascii s
  | None => true
  end.

(** The four fields [validateRegisterData] reads are ASCII text. *)
Definition ascii_data (d : Reg.body) : bool :=
  ascii_field (Reg.username d) && ascii_field (Reg.email d)
  && ascii_field (Reg.password d) && ascii_field (Reg.full_name d).

(* ================================================================= *)
(** * Properties *)

(* ================================================================= *)
(** ** Rounding to two decimals *)




Lemma to_decimal2_comp (x y : Q) : (x == y)%Q -> to_decimal2 x = to_decimal2 y.
Proof.
  intros E. unfold to_decimal2.
  assert (Hb : Qle_bool 0 x = Qle_bool 0 y) by (rewrite E; reflexivity).
  rewrite Hb. destruct (Qle_bool 0 y); [| f_equal]; apply Qfloor_comp; rewrite E; reflexivity.
Qed.




Lemma cents_mult (c : Z) : (cents c == inject_Z c * (1 # 100))%Q.
Proof. unfold cents. field. Qed.


Lemma to_decimal2_nearest (x : Q) :
  (Qabs (cents (to_decimal2 x) - x) <= 1 # 200)%Q.
Proof.
  apply Qabs_Qle_condition.
  rewrite cents_mult. unfold to_decimal2.
  destruct (Qle_bool 0 x) eqn:E.
  - pose proof (Qfloor_le (x * 100 + (1 # 2))) as Hf.
    pose proof (Qlt_floor (x * 100 + (1 # 2))) as Hg.
    rewrite inject_Z_plus in Hg. change (inject_Z 1) with 1%Q in Hg.
    split; lra.
  - pose proof (Qfloor_le (- x * 100 + (1 # 2))) as Hf.
    pose proof (Qlt_floor (- x * 100 + (1 # 2))) as Hg.
    rewrite inject_Z_plus in Hg. change (inject_Z 1) with 1%Q in Hg.
    rewrite inject_Z_opp.
    split; lra.
Qed.





(** An integer whose absolute value is below [n + 1] is at most [n] away
    from zero. *)
Lemma Zabs_le_Q (a n : Z) :
  (Qabs (inject_Z a) < inject_Z (n + 1))%Q -> Z.abs a <= n.
Proof.
  intros H.
  assert (H1 : (inject_Z a < inject_Z (n + 1))%Q).
  { eapply Qle_lt_trans; [apply Qle_Qabs | exact H]. }
  assert (H2 : (inject_Z (- a) < inject_Z (n + 1))%Q).
  { rewrite inject_Z_opp. eapply Qle_lt_trans; [|exact H].
    rewrite <- Qabs_opp. apply Qle_Qabs. }
  rewrite <- Zlt_Qlt in H1, H2. lia.
Qed.

Lemma Qabs_bounds (x b : Q) : (Qabs x <= b)%Q -> (- b <= x /\ x <= b)%Q.
Proof. intros H. apply Qabs_Qle_condition. exact H. Qed.

Lemma Qabs_scaled (m : Z) :
  (Qabs (inject_Z m * (1 # 2000)) == inject_Z (Z.abs m) * (1 # 2000))%Q.
Proof. rewrite Qabs_Qmult. reflexivity. Qed.



(** Five percent of an amount, both rounded: twenty times the one is at
    most ten cents away from the other. *)
Lemma rounded_twentieth (x : Q) :
  Z.abs (20 * to_decimal2 (x * 5 / 100) - to_decimal2 x) <= 10.
Proof.
  assert (E : (x * 5 / 100 == x * (1 # 20))%Q) by field.
  revert E. generalize (x * 5 / 100)%Q. intros y E.
  apply Zabs_le_Q.
  pose proof (Qabs_bounds _ _ (to_decimal2_nearest y)) as [A1 A2].
  pose proof (Qabs_bounds _ _ (to_decimal2_nearest x)) as [B1 B2].
  rewrite cents_mult in A1, A2, B1, B2.
  unfold Z.sub. rewrite inject_Z_plus, inject_Z_opp, inject_Z_mult.
  change (inject_Z (10 + 1)) with 11%Q. change (inject_Z 20) with 20%Q.
  apply Qabs_Qlt_condition. split; lra.
Qed.


(* ================================================================= *)
(** ** The first loop of create-sale *)

Lemma calculate_totals_valid (items : list Req.item) (s : Q) :
  forallb valid_item items = true ->
  exists r, calculate_totals items s = Returned (r, map line_of items)
            /\ (r == s + items_amount items)%Q.
Proof.
  revert s. induction items as [|it rest IH]; intros s Hv; simpl in *.
  - exists s. split; [reflexivity | lra].
  - apply andb_true_iff in Hv as [Hit Hrest].
    unfold valid_item in Hit.
    apply andb_true_iff in Hit as [Hit Hu].
    apply andb_true_iff in Hit as [Hp Hq].
    rewrite Hp, Hq, Hu. simpl.
    unfold line_of, item_amount.
    destruct (Req.product_id it) as [p|]; [|discriminate].
    destruct (Req.quantity it) as [q|]; [|discriminate].
    destruct (Req.unit_price it) as [u|]; [|discriminate].
    destruct (IH (s + inject_Z q * u)%Q Hrest) as [r [Hr Er]].
    rewrite Hr. exists r. split; [reflexivity|].
    rewrite Er. ring.
Qed.

Lemma calculate_totals_invalid (items : list Req.item) (s : Q) :
  forallb valid_item items = false ->
  calculate_totals items s = Thrown item_error.
Proof.
  revert s. induction items as [|it rest IH]; intros s Hv; simpl in *.
  - discriminate.
  - destruct (valid_item it) eqn:Hit; simpl in Hv.
    + unfold valid_item in Hit.
      apply andb_true_iff in Hit as [Hit Hu].
      apply andb_true_iff in Hit as [Hp Hq].
      rewrite Hp, Hq, Hu. simpl.
      destruct (Req.product_id it) as [p|]; [|discriminate].
      destruct (Req.quantity it) as [q|]; [|discriminate].
      destruct (Req.unit_price it) as [u|]; [|discriminate].
      rewrite (IH _ Hv). reflexivity.
    + unfold valid_item in Hit.
      destruct (truthyZ (Req.product_id it)); simpl in *; [|reflexivity].
      destruct (truthyZ (Req.quantity it)); simpl in *; [|reflexivity].
      rewrite Hit. reflexivity.
Qed.

(* ================================================================= *)
(** ** The second loop of create-sale *)

Lemma existsb_add_stock (d pid p : Z) (ps : list product) :
  existsb (fun r => product_id r =? p) (add_stock d pid ps)
  = existsb (fun r => product_id r =? p) ps.
Proof.
  induction ps as [|r ps IH]; simpl; [reflexivity|].
  rewrite IH. destruct (product_id r =? pid); reflexivity.
Qed.

Lemma forallb_has_product (ls : list line) (db db' : DB) :
  (forall p, has_product db' p = has_product db p) ->
  forallb (fun l => has_product db' (line_product l)) ls
  = forallb (fun l => has_product db (line_product l)) ls.
Proof.
  intros H. induction ls as [|l rest IH]; simpl; [reflexivity|].
  rewrite H, IH. reflexivity.
Qed.

Lemma create_sale_items_run (sid : Z) (num : string) (uid : Z)
    (ls : list line) (db : DB) :
  has_sale db sid = true ->
  forallb (fun l => has_product db (line_product l)) ls = true ->
  create_sale_items sid num uid ls db
  = (Returned tt,
     mkDB (sell_stock ls (products db)) (customers db) (sales db)
          (sale_items db ++ item_rows sid (sale_items_id_seq db) ls)
          (stock_movements db
             ++ out_movements sid num uid (stock_movements_id_seq db) ls)
          (sales_id_seq db)
          (sale_items_id_seq db + Z.of_nat (List.length ls))
          (stock_movements_id_seq db + Z.of_nat (List.length ls))).
Proof.
  revert db. induction ls as [|l rest IH]; intros db Hs Hp.
  - simpl. unfold ret. rewrite !app_nil_r, !Z.add_0_r. destruct db; reflexivity.
  - simpl in Hp. apply andb_true_iff in Hp as [Hl Hrest].
    cbn [create_sale_items]. unfold bind at 1.
    unfold insert_sale_item. rewrite Hs, Hl. cbn [andb].
    unfold bind at 1. unfold update_stock.
    unfold bind at 1. unfold insert_stock_movement at 1.
    unfold has_product at 1. cbn [products].
    rewrite existsb_add_stock. fold (has_product db (line_product l)).
    rewrite Hl.
    rewrite IH.
    + cbn [products customers sales sale_items stock_movements sales_id_seq
           sale_items_id_seq stock_movements_id_seq sell_stock item_rows
           out_movements List.length].
      rewrite <- !app_assoc. cbn [app].
      rewrite Nat2Z.inj_succ.
      f_equal. f_equal; lia.
    + exact Hs.
    + etransitivity; [|exact Hrest].
      apply forallb_has_product. intros p.
      unfold has_product. cbn [products]. apply existsb_add_stock.
Qed.

Lemma create_sale_items_fail (sid : Z) (num : string) (uid : Z)
    (ls : list line) (db : DB) :
  forallb (fun l => has_product db (line_product l)) ls = false ->
  exists db', create_sale_items sid num uid ls db = (Thrown fk_violation_insert, db').
Proof.
  revert db. induction ls as [|l rest IH]; intros db Hp.
  - discriminate.
  - simpl in Hp. cbn [create_sale_items]. unfold bind at 1.
    unfold insert_sale_item.
    destruct (has_product db (line_product l)) eqn:Hl.
    + destruct (has_sale db sid); cbn [andb]; [|eexists; reflexivity].
      unfold bind at 1. unfold update_stock.
      unfold bind at 1. unfold insert_stock_movement at 1.
      unfold has_product at 1. cbn [products].
      rewrite existsb_add_stock. fold (has_product db (line_product l)).
      rewrite Hl. apply IH.
      simpl in Hp. etransitivity; [|exact Hp].
      apply forallb_has_product. intros p.
      unfold has_product. cbn [products]. apply existsb_add_stock.
    + rewrite andb_false_r. eexists; reflexivity.
Qed.

(* ================================================================= *)
(** ** Create-sale, case by case *)

Lemma rollback_same (db : DB) : rollback db db = db.
Proof. destruct db; reflexivity. Qed.

Lemma existsb_snoc {A} (f : A -> bool) (l : list A) (a : A) :
  existsb f (l ++ [a]) = existsb f l || f a.
Proof. rewrite existsb_app. simpl. rewrite orb_false_r. reflexivity. Qed.

(** What [handleCreateSale] does on a non-empty item list, case by case. *)
Lemma handleCreateSale_cases (clk : clock) (user : User.t) (body : Req.body)
    (db : DB) (it : Req.item) (rest : list Req.item) :
  Req.items body = Some (it :: rest) ->
  match calculate_totals (it :: rest) 0%Q with
  | Thrown msg => handleCreateSale clk user body db = (Thrown msg, db)
  | Returned (sub, ls) =>
      if number_taken clk db
      then exists db', handleCreateSale clk user body db
                       = (Thrown unique_violation, db')
                       /\ tables db' = tables db
      else if customer_resolves body db && products_resolve ls db
      then handleCreateSale clk user body db
           = (Returned (created clk user body db sub),
              after_create clk user body db sub ls)
      else exists db', handleCreateSale clk user body db
                       = (Thrown fk_violation_insert, db')
                       /\ tables db' = tables db
  end.
Proof.
  intros Hitems. unfold handleCreateSale. rewrite Hitems.
  unfold transaction, bind, lift.
  destruct (calculate_totals (it :: rest) 0%Q) as [[sub ls]|msg].
  2:{ rewrite rollback_same. reflexivity. }
  cbn [fst snd]. unfold insert_sale.
  fold (number_taken clk db).
  destruct (number_taken clk db) eqn:Hn.
  { eexists. split; reflexivity. }
  fold (customer_resolves body db).
  destruct (customer_resolves body db) eqn:Hc; cbn [andb].
  2:{ eexists. split; reflexivity. }
  destruct (products_resolve ls db) eqn:Hp.
  - rewrite create_sale_items_run.
    + unfold update_purchases, ret, created, after_create, new_sale,
        computed_commission, computed_total, rate_of.
      destruct (or_null (Req.customer_id body)) as [c|];
        cbn [products customers sales sale_items stock_movements sales_id_seq
             sale_items_id_seq stock_movements_id_seq sale_id];
        reflexivity.
    + unfold has_sale. cbn [sales sale_id]. rewrite existsb_snoc.
      cbn [sale_id]. rewrite Z.eqb_refl. apply orb_true_r.
    + exact Hp.
  - match goal with
    | |- context [create_sale_items ?a ?b ?c ?d ?e] =>
        destruct (create_sale_items_fail a b c d e) as [db' Hf]
    end.
    + exact Hp.
    + rewrite Hf. eexists. split; reflexivity.
Qed.

Lemma calculate_totals_returned (items : list Req.item) (s r : Q)
    (ls : list line) :
  calculate_totals items s = Returned (r, ls) ->
  forallb valid_item items = true
  /\ ls = map line_of items
  /\ (r == s + items_amount items)%Q.
Proof.
  intros H. destruct (forallb valid_item items) eqn:Hv.
  - destruct (calculate_totals_valid items s Hv) as [r' [Hr Er]].
    rewrite Hr in H. inversion H; subst. auto.
  - rewrite (calculate_totals_invalid items s Hv) in H. discriminate.
Qed.

(** A POST answered 201 went through every step of the transaction. *)
Lemma created_inv (clk : clock) (user : User.t) (req : request)
    (db db' : DB) (resp : response) :
  req_method req = POST ->
  SalesApi.handler clk user req db = (resp, db') ->
  status resp = 201 ->
  exists items sub,
    Req.items (req_body req) = Some items
    /\ items <> []
    /\ forallb valid_item items = true
    /\ (sub == items_amount items)%Q
    /\ number_taken clk db = false
    /\ customer_resolves (req_body req) db = true
    /\ products_resolve (map line_of items) db = true
    /\ resp = created clk user (req_body req) db sub
    /\ db' = after_create clk user (req_body req) db sub (map line_of items).
Proof.
  intros Hm Hh Hs. unfold SalesApi.handler in Hh. rewrite Hm in Hh.
  unfold api_catch in Hh.
  destruct (Req.items (req_body req)) as [[|it rest]|] eqn:Hitems.
  - unfold handleCreateSale in Hh. rewrite Hitems in Hh.
    inversion Hh; subst. discriminate.
  - pose proof (handleCreateSale_cases clk user (req_body req) db it rest Hitems)
      as Hc.
    destruct (calculate_totals (it :: rest) 0%Q) as [[sub ls]|msg] eqn:Hcalc.
    + apply calculate_totals_returned in Hcalc as [Hv [Hls Hsub]].
      destruct (number_taken clk db) eqn:Hn.
      { destruct Hc as [d [Hc _]]. rewrite Hc in Hh.
        inversion Hh; subst. discriminate. }
      destruct (customer_resolves (req_body req) db) eqn:Hcr; cbn [andb] in Hc.
      2:{ destruct Hc as [d [Hc _]]. rewrite Hc in Hh.
          inversion Hh; subst. discriminate. }
      destruct (products_resolve ls db) eqn:Hpr.
      2:{ destruct Hc as [d [Hc _]]. rewrite Hc in Hh.
          inversion Hh; subst. discriminate. }
      rewrite Hc in Hh. inversion Hh; subst.
      exists (it :: rest), sub.
      repeat split; try assumption; try reflexivity; try discriminate.
      rewrite Hsub. ring.
    + rewrite Hc in Hh.
      destruct (includes "token" msg || includes "Invalid" msg
                || includes "inactive" msg);
        inversion Hh; subst; discriminate.
  - unfold handleCreateSale in Hh. rewrite Hitems in Hh.
    inversion Hh; subst. discriminate.
Qed.


(* ================================================================= *)
(** ** Stock arithmetic *)

Lemma add_stock_shift (delta pid : Z) (ps : list product) :
  add_stock delta pid ps
  = shift_stock (fun p => if pid =? p then delta else 0) ps.
Proof.
  unfold add_stock, shift_stock. apply map_ext. intros [i s]. simpl.
  rewrite (Z.eqb_sym pid i).
  destruct (i =? pid); [reflexivity|]. rewrite Z.add_0_r. reflexivity.
Qed.

Lemma shift_stock_shift (d e : Z -> Z) (ps : list product) :
  shift_stock e (shift_stock d ps) = shift_stock (fun p => d p + e p) ps.
Proof.
  unfold shift_stock. rewrite map_map. apply map_ext. intros [i s]. simpl.
  f_equal. ring.
Qed.

Lemma shift_stock_ext (d e : Z -> Z) (ps : list product) :
  (forall p, d p = e p) -> shift_stock d ps = shift_stock e ps.
Proof.
  intros H. unfold shift_stock. apply map_ext. intros r. rewrite H. reflexivity.
Qed.

Lemma shift_stock_zero (ps : list product) :
  shift_stock (fun _ => 0) ps = ps.
Proof.
  unfold shift_stock. rewrite <- (map_id ps) at 2. apply map_ext.
  intros [i s]. simpl. rewrite Z.add_0_r. reflexivity.
Qed.

Lemma sell_stock_shift (ls : list line) (ps : list product) :
  sell_stock ls ps = shift_stock (fun p => - sold ls p) ps.
Proof.
  revert ps. induction ls as [|l rest IH]; intros ps; simpl.
  - symmetry. apply shift_stock_zero.
  - rewrite IH, add_stock_shift, shift_stock_shift.
    apply shift_stock_ext. intros p.
    destruct (line_product l =? p); lia.
Qed.

Lemma stock_of_shift (d : Z -> Z) (ps : list product) (p : Z) :
  option_map stock_quantity
    (find (fun r => product_id r =? p) (shift_stock d ps))
  = option_map (fun s => s + d p)
      (option_map stock_quantity (find (fun r => product_id r =? p) ps)).
Proof.
  induction ps as [|[i s] ps IH]; simpl; [reflexivity|].
  destruct (i =? p) eqn:E; simpl.
  - apply Z.eqb_eq in E. subst. reflexivity.
  - exact IH.
Qed.

(* ================================================================= *)
(** ** Delete-sale, step by step *)

Lemma restock_shift (its : list sale_item) (ps : list product) :
  restock its ps = shift_stock (returned its) ps.
Proof.
  revert ps. induction its as [|it rest IH]; intros ps; simpl.
  - symmetry. apply shift_stock_zero.
  - rewrite IH, add_stock_shift, shift_stock_shift.
    apply shift_stock_ext. intros p. reflexivity.
Qed.

Lemma items_resolve_same_ids (its : list sale_item) (db db' : DB) :
  (forall p, has_product db' p = has_product db p) ->
  items_resolve its db' = items_resolve its db.
Proof.
  intros H. unfold items_resolve.
  induction its as [|it rest IH]; simpl; [reflexivity|].
  rewrite H, IH. reflexivity.
Qed.

Lemma restore_items_run (num : string) (uid : Z) (its : list sale_item)
    (db : DB) :
  items_resolve its db = true ->
  restore_items num uid its db
  = (Returned tt,
     mkDB (restock its (products db)) (customers db) (sales db)
          (sale_items db)
          (stock_movements db
             ++ in_movements num uid (stock_movements_id_seq db) its)
          (sales_id_seq db) (sale_items_id_seq db)
          (stock_movements_id_seq db + Z.of_nat (List.length its))).
Proof.
  revert db. induction its as [|it rest IH]; intros db Hp.
  - simpl. unfold ret. rewrite app_nil_r, Z.add_0_r. destruct db; reflexivity.
  - unfold items_resolve in Hp. simpl in Hp.
    apply andb_true_iff in Hp as [Hit Hrest].
    cbn [restore_items]. unfold bind, update_stock.
    unfold insert_stock_movement at 1.
    unfold has_product at 1. cbn [products].
    rewrite existsb_add_stock. fold (has_product db (item_product_id it)).
    rewrite Hit. rewrite IH.
    + cbn [products customers sales sale_items stock_movements sales_id_seq
           sale_items_id_seq stock_movements_id_seq restock in_movements
           List.length].
      rewrite <- app_assoc. cbn [app]. rewrite Nat2Z.inj_succ.
      f_equal. f_equal. lia.
    + etransitivity; [|exact Hrest].
      apply items_resolve_same_ids. intros p.
      unfold has_product. cbn [products]. apply existsb_add_stock.
Qed.

Lemma handleDeleteSale_run (user : User.t) (id : Z) (db : DB) (row : sale)
    (more : list sale) :
  String.eqb (User.role user) "admin" = true ->
  select_sale db id = row :: more ->
  items_resolve (select_sale_items db id) db = true ->
  handleDeleteSale user (Some id) db
  = (Returned deleted, after_delete user id row db).
Proof.
  intros Hrole Hsel Hres. unfold handleDeleteSale.
  rewrite Hrole. cbn [negb]. rewrite Hsel.
  unfold transaction, bind. rewrite restore_items_run by exact Hres.
  unfold after_delete, deleted, update_purchases, delete_sale, ret.
  destruct (or_null (sale_customer_id row)) as [c|];
    cbn [products customers sales sale_items stock_movements sales_id_seq
         sale_items_id_seq stock_movements_id_seq];
    reflexivity.
Qed.

Lemma consistent_items_resolve (db : DB) (id : Z) :
  consistent db = true ->
  items_resolve (select_sale_items db id) db = true.
Proof.
  unfold consistent, items_resolve, select_sale_items.
  intros H. apply andb_true_iff in H as [_ H].
  rewrite forallb_forall in *. intros it Hin.
  apply filter_In in Hin as [Hin _].
  specialize (H it Hin). apply andb_true_iff in H as [_ H]. exact H.
Qed.

(* ================================================================= *)
(** ** The examples of the specification *)

(** Cart [{A, 2, 10.00}, {B, 1, 5.00}], discount 2.00, tax 1.00: subtotal
    25.00, total 24.00, commission 1.20 for a sales representative. *)
Example cart0_by_rep :
  option_map (fun s => (subtotal s, total_amount s, commission_amount s))
    (body_sale (fst (SalesApi.handler clk0 rep (mkRequest POST None cart0) db0)))
  = Some (2500, 2400, 120).
Proof. vm_compute. reflexivity. Qed.

(** The same cart recorded by an administrator: commission 0.00. *)
Example cart0_by_admin :
  option_map (fun s => (subtotal s, total_amount s, commission_amount s))
    (body_sale (fst (SalesApi.handler clk0 admin (mkRequest POST None cart0) db0)))
  = Some (2500, 2400, 0).
Proof. vm_compute. reflexivity. Qed.

(** Deleting that sale gives product A its 2 units back and takes 24.00
    from the total of the customer. *)
Example delete_cart0 :
  (stock_of db1 1, purchases_of db1 1) = (Some 8, Some 2400)
  /\ (stock_of db2 1, purchases_of db2 1) = (Some 10, Some 0).
Proof. vm_compute. split; reflexivity. Qed.

(* ================================================================= *)
(** ** Delete-sale: authorization and outcome *)




(* ================================================================= *)
(** ** Create-sale: validation *)

Lemma includes_item_error :
  includes "token" item_error || includes "Invalid" item_error
  || includes "inactive" item_error = false.
Proof. reflexivity. Qed.

(** An absent or empty item list is answered 400 before any statement. *)
Lemma empty_items_rejected (clk : clock) (user : User.t) (q : option Z)
    (body : Req.body) (db : DB) :
  Req.items body = None \/ Req.items body = Some [] ->
  SalesApi.handler clk user (mkRequest POST q body) db
  = (mkResponse 400 "Sale items are required" None, db).
Proof.
  intros [H|H]; unfold SalesApi.handler, api_catch, handleCreateSale;
    cbn [req_method req_body]; rewrite H; reflexivity.
Qed.

(** An item with a falsy field makes the first loop throw; the transaction
    is rolled back and the [catch] of the handler answers 500. *)
Lemma invalid_item_rejected (clk : clock) (user : User.t) (q : option Z)
    (body : Req.body) (db : DB) (items : list Req.item) :
  Req.items body = Some items ->
  items <> [] ->
  forallb valid_item items = false ->
  SalesApi.handler clk user (mkRequest POST q body) db
  = (mkResponse 500 "Server error" None, db).
Proof.
  intros Hitems Hne Hv. destruct items as [|it rest]; [congruence|].
  pose proof (handleCreateSale_cases clk user body db it rest Hitems) as Hc.
  rewrite (calculate_totals_invalid _ _ Hv) in Hc.
  unfold SalesApi.handler, api_catch. cbn [req_method req_body].
  rewrite Hc, includes_item_error. reflexivity.
Qed.

(** C5.  A cart whose only line lacks [unit_price] is answered
    500 "Server error", not 400; nothing is written. *)
Theorem missing_field_is_server_error :
  SalesApi.handler clk0 rep (mkRequest POST None cart_missing_price) db0
  = (mkResponse 500 "Server error" None, db0).
Proof. reflexivity. Qed.

Lemma zero_field_invalid (it : Req.item) :
  zero_field it -> valid_item it = false.
Proof.
  unfold valid_item. intros [Hq | [u [Hu E]]].
  - rewrite Hq. simpl. rewrite andb_false_r. reflexivity.
  - rewrite Hu. simpl. apply Qeq_bool_iff in E. rewrite E.
    simpl. rewrite andb_false_r. reflexivity.
Qed.

Lemma valid_item_nonzero (it : Req.item) :
  valid_item it = true -> nonzero_fields it.
Proof.
  unfold valid_item, nonzero_fields, truthyZ, truthyQ. intros H.
  apply andb_true_iff in H as [H Hu]. apply andb_true_iff in H as [Hp Hq].
  destruct (Req.product_id it) as [p|]; [|discriminate].
  destruct (Req.quantity it) as [q|]; [|discriminate].
  destruct (Req.unit_price it) as [u|]; [|discriminate].
  exists p, q, u. repeat split.
  - apply negb_true_iff, Z.eqb_neq in Hq. exact Hq.
  - apply negb_true_iff in Hu. intros E. apply Qeq_bool_iff in E. congruence.
Qed.

(** C10.  The test of the first loop is a falsiness test: a line whose
    quantity is 0 or whose unit price is 0 fails it like a line without the
    field; the request is then answered with an error and the database is
    left as it was.  Hence every line of a sale that was created has a
    non-zero quantity and a non-zero unit price. *)
Theorem zero_quantity_or_price_rejected (clk : clock) (user : User.t)
    (q : option Z) (body : Req.body) (db : DB) (items : list Req.item) :
  Req.items body = Some items ->
  (forall it, In it items -> zero_field it ->
     valid_item it = false
     /\ SalesApi.handler clk user (mkRequest POST q body) db
        = (mkResponse 500 "Server error" None, db))
  /\ (forall resp db',
        SalesApi.handler clk user (mkRequest POST q body) db = (resp, db') ->
        status resp = 201 ->
        Forall nonzero_fields items).
Proof.
  intros Hitems. split.
  - intros it Hin Hz. pose proof (zero_field_invalid it Hz) as Hv.
    split; [exact Hv|].
    apply (invalid_item_rejected clk user q body db items Hitems).
    + intros ->. inversion Hin.
    + destruct (forallb valid_item items) eqn:E; [|reflexivity].
      rewrite forallb_forall in E. rewrite (E it Hin) in Hv. discriminate.
  - intros resp db' Hh Hs.
    destruct (created_inv clk user (mkRequest POST q body) db db' resp
                eq_refl Hh Hs)
      as [items' [sub [Hi [_ [Hv _]]]]].
    cbn [req_body] in Hi. rewrite Hitems in Hi. inversion Hi; subst items'.
    apply Forall_forall. intros it Hin.
    rewrite forallb_forall in Hv. apply valid_item_nonzero, Hv, Hin.
Qed.

Lemma zero_quantity_or_price_rejected_witness :
  SalesApi.handler clk0 rep (mkRequest POST None cart_free_line) db0
  = (mkResponse 500 "Server error" None, db0).
Proof.
  apply (proj1 (zero_quantity_or_price_rejected clk0 rep None cart_free_line
                  db0 _ eq_refl)
           (Req.mkItem (Some 2) (Some 1) (Some 0%Q))).
  - right. left. reflexivity.
  - right. exists 0%Q. split; reflexivity.
Defined.

(* ================================================================= *)
(** ** Create-sale: a sale number that is already taken *)

Lemma includes_unique_violation :
  includes "token" unique_violation || includes "Invalid" unique_violation
  || includes "inactive" unique_violation = false.
Proof. reflexivity. Qed.

(** C6, as amended.  [generateSaleNumber] is called once.  When its result
    is the number of an existing sale, the INSERT is rejected by the unique
    index, the transaction is rolled back and the request is answered
    500 "Server error": no table changes and nothing is retried. *)
Theorem taken_sale_number_fails (clk : clock) (user : User.t) (q : option Z)
    (body : Req.body) (db : DB) (items : list Req.item) :
  Req.items body = Some items ->
  items <> [] ->
  forallb valid_item items = true ->
  number_taken clk db = true ->
  exists db',
    SalesApi.handler clk user (mkRequest POST q body) db
    = (mkResponse 500 "Server error" None, db')
    /\ tables db' = tables db.
Proof.
  intros Hitems Hne Hv Hn. destruct items as [|it rest]; [congruence|].
  pose proof (handleCreateSale_cases clk user body db it rest Hitems) as Hc.
  destruct (calculate_totals_valid (it :: rest) 0%Q Hv) as [sub [Hcalc _]].
  rewrite Hcalc, Hn in Hc. destruct Hc as [db' [Hc Ht]].
  exists db'. split; [|exact Ht].
  unfold SalesApi.handler, api_catch. cbn [req_method req_body].
  rewrite Hc, includes_unique_violation. reflexivity.
Qed.

Lemma taken_sale_number_fails_witness :
  exists db',
    SalesApi.handler clk0 rep (mkRequest POST None cart0) db1
    = (mkResponse 500 "Server error" None, db')
    /\ tables db' = tables db1.
Proof.
  apply (taken_sale_number_fails clk0 rep None cart0 db1 _ eq_refl).
  - discriminate.
  - reflexivity.
  - reflexivity.
Defined.

(** C6, as stated, fails: [db1] holds the sale numbered as [clk0] numbers
    it; a second valid request at [clk0] is not answered 201. *)
Lemma taken_sale_number_counterexample :
  number_taken clk0 db1 = true
  /\ forallb valid_item
       [Req.mkItem (Some 1) (Some 2) (Some 10%Q);
        Req.mkItem (Some 2) (Some 1) (Some 5%Q)] = true
  /\ status (fst (SalesApi.handler clk0 rep (mkRequest POST None cart0) db1))
     = 500
  /\ sales (snd (SalesApi.handler clk0 rep (mkRequest POST None cart0) db1))
     = sales db1.
Proof. vm_compute. repeat split. Qed.

(* ================================================================= *)
(** ** Deleting products and customers *)

Lemma includes_fk_violation_delete :
  includes "token" fk_violation_delete
  || includes "Invalid" fk_violation_delete
  || includes "inactive" fk_violation_delete = false.
Proof. reflexivity. Qed.

Lemma firstn1_filter_nil {A} (f : A -> bool) (l : list A) :
  firstn 1 (filter f l) = [] <-> existsb f l = false.
Proof.
  induction l as [|a l IH]; simpl; [tauto|].
  destruct (f a); simpl; [split; discriminate | exact IH].
Qed.

(** A product on a sale line: 400, the row stays. *)
Lemma delete_product_on_sale_line (id : Z) (db : DB) :
  has_product db id = true ->
  product_in_items db id = true ->
  ProductsApi.handler_delete (Some id) db
  = (mkResponse 400 "Cannot delete product that has been used in sales" None,
     db).
Proof.
  intros Hp Hi. unfold ProductsApi.handler_delete, api_catch, handleDeleteProduct.
  destruct (select_product db id) eqn:E.
  - unfold select_product in E. unfold has_product in Hp.
    apply existsb_exists in Hp as [r [Hin Hr]].
    assert (Hf : In r (filter (fun r => product_id r =? id) (products db)))
      by (apply filter_In; auto).
    rewrite E in Hf. inversion Hf.
  - destruct (select_items_of_product db id) eqn:F; [|reflexivity].
    apply firstn1_filter_nil in F. unfold product_in_items in Hi. congruence.
Qed.

(** A product on no sale line and in no stock movement: 200, the row is
    removed. *)
Lemma delete_product_unreferenced (id : Z) (db : DB) :
  has_product db id = true ->
  product_in_items db id = false ->
  product_in_movements db id = false ->
  exists db',
    ProductsApi.handler_delete (Some id) db
    = (mkResponse 200 "Product deleted successfully" None, db')
    /\ has_product db' id = false.
Proof.
  intros Hp Hi Hm. unfold ProductsApi.handler_delete, api_catch, handleDeleteProduct.
  destruct (select_product db id) eqn:E.
  - unfold select_product in E. unfold has_product in Hp.
    apply existsb_exists in Hp as [r [Hin Hr]].
    assert (Hf : In r (filter (fun r => product_id r =? id) (products db)))
      by (apply filter_In; auto).
    rewrite E in Hf. inversion Hf.
  - apply firstn1_filter_nil in Hi. unfold select_items_of_product.
    rewrite Hi. unfold bind, delete_product.
    unfold product_in_items, product_in_movements in *.
    apply firstn1_filter_nil in Hi.
    rewrite Hi, Hm, andb_false_r. eexists. split; [reflexivity|].
    unfold has_product. cbn [products].
    clear. induction (products db) as [|r rs IH]; simpl; [reflexivity|].
    destruct (product_id r =? id) eqn:F; simpl; [exact IH|].
    rewrite F. exact IH.
Qed.

(** A product on no sale line but with stock movements: the DELETE
    statement is rejected by the reference from [stock_movements] and the
    handler answers 500; the row stays. *)
Lemma delete_product_with_movements (id : Z) (db : DB) :
  has_product db id = true ->
  product_in_items db id = false ->
  product_in_movements db id = true ->
  ProductsApi.handler_delete (Some id) db
  = (mkResponse 500 "Server error" None, db).
Proof.
  intros Hp Hi Hm. unfold ProductsApi.handler_delete, api_catch, handleDeleteProduct.
  destruct (select_product db id) eqn:E.
  - unfold select_product in E. unfold has_product in Hp.
    apply existsb_exists in Hp as [r [Hin Hr]].
    assert (Hf : In r (filter (fun r => product_id r =? id) (products db)))
      by (apply filter_In; auto).
    rewrite E in Hf. inversion Hf.
  - apply firstn1_filter_nil in Hi. unfold select_items_of_product.
    rewrite Hi. unfold bind, delete_product.
    unfold product_in_movements in Hm. rewrite Hp, Hm, orb_true_r.
    cbn [andb]. rewrite includes_fk_violation_delete. reflexivity.
Qed.

(** A customer with a sale: 400, the row stays. *)
Lemma delete_customer_with_sales (id : Z) (db : DB) :
  has_customer db id = true ->
  customer_in_sales db id = true ->
  CustomersApi.handler_delete (Some id) db
  = (mkResponse 400 "Cannot delete customer that has sales history" None, db).
Proof.
  intros Hp Hi.
  unfold CustomersApi.handler_delete, api_catch, handleDeleteCustomer.
  destruct (select_customer db id) eqn:E.
  - unfold select_customer in E. unfold has_customer in Hp.
    apply existsb_exists in Hp as [r [Hin Hr]].
    assert (Hf : In r (filter (fun r => customer_id r =? id) (customers db)))
      by (apply filter_In; auto).
    rewrite E in Hf. inversion Hf.
  - destruct (select_sales_of_customer db id) eqn:F; [|reflexivity].
    apply firstn1_filter_nil in F. unfold customer_in_sales in Hi. congruence.
Qed.

(** A customer without a sale: 200, the row is removed. *)
Lemma delete_customer_without_sales (id : Z) (db : DB) :
  has_customer db id = true ->
  customer_in_sales db id = false ->
  exists db',
    CustomersApi.handler_delete (Some id) db
    = (mkResponse 200 "Customer deleted successfully" None, db')
    /\ has_customer db' id = false.
Proof.
  intros Hp Hi.
  unfold CustomersApi.handler_delete, api_catch, handleDeleteCustomer.
  destruct (select_customer db id) eqn:E.
  - unfold select_customer in E. unfold has_customer in Hp.
    apply existsb_exists in Hp as [r [Hin Hr]].
    assert (Hf : In r (filter (fun r => customer_id r =? id) (customers db)))
      by (apply filter_In; auto).
    rewrite E in Hf. inversion Hf.
  - unfold customer_in_sales in Hi.
    pose proof (proj2 (firstn1_filter_nil _ _) Hi) as F.
    unfold select_sales_of_customer. rewrite F.
    unfold bind, delete_customer. rewrite Hi, andb_false_r.
    eexists. split; [reflexivity|].
    unfold has_customer. cbn [customers].
    clear. induction (customers db) as [|r rs IH]; simpl; [reflexivity|].
    destruct (customer_id r =? id) eqn:G; simpl; [exact IH|].
    rewrite G. exact IH.
Qed.

(** C8.  Product 1 of [db2] is on no sale line (its sale was deleted) and
    still has its stock movements: DELETE /api/products?id=1 is answered
    500 "Server error" and the product is still there. *)
Theorem delete_product_after_sale_reversal :
  has_product db2 1 = true
  /\ product_in_items db2 1 = false
  /\ ProductsApi.handler_delete (Some 1) db2
     = (mkResponse 500 "Server error" None, db2).
Proof. vm_compute. repeat split. Qed.

(* ================================================================= *)
(** ** Create-sale: the amounts of the persisted sale *)








Lemma computed_total_comp (body : Req.body) (x y : Q) :
  (x == y)%Q -> (computed_total body x == computed_total body y)%Q.
Proof. intros E. unfold computed_total. rewrite E. reflexivity. Qed.

Lemma computed_commission_comp (user : User.t) (body : Req.body) (x y : Q) :
  (x == y)%Q ->
  (computed_commission user body x == computed_commission user body y)%Q.
Proof.
  intros E. unfold computed_commission.
  rewrite (computed_total_comp body x y E). reflexivity.
Qed.

Lemma rate_stored (user : User.t) :
  (cents (to_decimal2 (rate_of user)) == rate_of user)%Q.
Proof. unfold rate_of. destruct (String.eqb _ _); reflexivity. Qed.

(** The sale of a POST answered 201 is the row appended to [sales]. *)
Lemma created_sale (clk : clock) (user : User.t) (req : request)
    (db db' : DB) (resp : response) :
  req_method req = POST ->
  SalesApi.handler clk user req db = (resp, db') ->
  status resp = 201 ->
  exists items sub,
    Req.items (req_body req) = Some items
    /\ items <> []
    /\ (sub == items_amount items)%Q
    /\ body_sale resp = Some (new_sale clk user (req_body req) db sub)
    /\ sales db' = (sales db ++ [new_sale clk user (req_body req) db sub])%list.
Proof.
  intros Hm Hh Hs.
  destruct (created_inv clk user req db db' resp Hm Hh Hs)
    as [items [sub [Hi [Hne [_ [Hsub [_ [_ [_ [Hr Hd]]]]]]]]]].
  exists items, sub. subst resp db'. repeat split; assumption.
Qed.

(** The stored commission against the stored total and the stored rate:
    within half a cent of total_amount * commission_rate / 100, and no
    amount of whole cents is nearer. *)
Lemma commission_nearest (user : User.t) (body : Req.body) (sub : Q) :
  let a := to_decimal2 (computed_commission user body sub) in
  let exact := (cents (to_decimal2 (computed_total body sub))
                * cents (to_decimal2 (rate_of user)) / 100)%Q in
  (Qabs (cents a - exact) <= 1 # 200)%Q
  /\ forall z : Z, (Qabs (cents a - exact) <= Qabs (cents z - exact))%Q.
Proof.
  cbv zeta. unfold computed_commission.
  generalize (computed_total body sub). intros x.
  assert (G : exists m : Z,
             Z.abs m <= 10
             /\ (cents (to_decimal2 (x * rate_of user / 100))
                 - cents (to_decimal2 x) * cents (to_decimal2 (rate_of user))
                   / 100
                 == inject_Z m * (1 # 2000))%Q
             /\ forall z : Z, exists n : Z,
                  Z.abs m <= Z.abs n
                  /\ (cents z
                      - cents (to_decimal2 x)
                        * cents (to_decimal2 (rate_of user)) / 100
                      == inject_Z n * (1 # 2000))%Q).
  { unfold rate_of. destruct (String.eqb (User.role user) "sales_rep").
    - exists (20 * to_decimal2 (x * 5 / 100) - to_decimal2 x).
      pose proof (rounded_twentieth x) as Hm.
      split; [exact Hm|]. split.
      + change (to_decimal2 5) with 500. unfold cents, Z.sub.
        rewrite inject_Z_plus, inject_Z_opp, inject_Z_mult. field.
      + intros z. exists (20 * z - to_decimal2 x). split; [lia|].
        change (to_decimal2 5) with 500. unfold cents, Z.sub.
        rewrite inject_Z_plus, inject_Z_opp, inject_Z_mult. field.
    - exists 0. split; [simpl; lia|]. split.
      + rewrite (to_decimal2_comp (x * 0 / 100) 0) by field.
        change (to_decimal2 0) with 0. unfold cents. field.
      + intros z. exists (20 * z). split; [lia|].
        change (to_decimal2 0) with 0. unfold cents.
        rewrite inject_Z_mult. field. }
  destruct G as [m [Hm [Em Hz]]].
  assert (L : forall n : Z, Z.abs m <= Z.abs n ->
              (inject_Z (Z.abs m) * (1 # 2000)
               <= inject_Z (Z.abs n) * (1 # 2000))%Q).
  { intros n Hn. rewrite Zle_Qle in Hn. lra. }
  split.
  - rewrite Em, Qabs_scaled. specialize (L 10 Hm).
    change (inject_Z (Z.abs 10)) with 10%Q in L. lra.
  - intros z. destruct (Hz z) as [n [Hn En]].
    rewrite Em, En, !Qabs_scaled. apply L. exact Hn.
Qed.



(* ================================================================= *)
(** ** Create-sale: rounding of the commission *)

(** C4.  The commission stored with a created sale has two decimals and is
    total_amount * commission_rate / 100 of the stored row rounded to the
    nearest cent: it is within half a cent of that amount, and no amount of
    whole cents is nearer to it.  The stored rate is 5 for a sales_rep and
    0 otherwise. *)
Theorem stored_commission_rounded (clk : clock) (user : User.t) (req : request)
    (db db' : DB) (resp : response) :
  req_method req = POST ->
  SalesApi.handler clk user req db = (resp, db') ->
  status resp = 201 ->
  exists s,
    body_sale resp = Some s
    /\ In s (sales db')
    /\ (cents (commission_rate s)
        == if String.eqb (User.role user) "sales_rep" then 5 else 0)%Q
    /\ let exact := (cents (total_amount s) * cents (commission_rate s)
                     / 100)%Q in
       (Qabs (cents (commission_amount s) - exact) <= 1 # 200)%Q
       /\ forall z : Z,
            (Qabs (cents (commission_amount s) - exact)
             <= Qabs (cents z - exact))%Q.
Proof.
  intros Hm Hh Hs.
  destruct (created_sale clk user req db db' resp Hm Hh Hs)
    as [items [sub [_ [_ [_ [Hb Hd]]]]]].
  exists (new_sale clk user (req_body req) db sub).
  split; [exact Hb|].
  split; [rewrite Hd; apply in_or_app; right; left; reflexivity|].
  unfold new_sale. cbn [total_amount commission_rate commission_amount].
  split; [apply rate_stored|].
  apply commission_nearest.
Qed.

Lemma stored_commission_rounded_witness :
  exists s,
    body_sale
      (fst (SalesApi.handler clk0 rep (mkRequest POST None cart_2410) db0))
    = Some s
    /\ In s (sales
               (snd (SalesApi.handler clk0 rep
                       (mkRequest POST None cart_2410) db0)))
    /\ (cents (commission_rate s)
        == if String.eqb (User.role rep) "sales_rep" then 5 else 0)%Q
    /\ let exact := (cents (total_amount s) * cents (commission_rate s)
                     / 100)%Q in
       (Qabs (cents (commission_amount s) - exact) <= 1 # 200)%Q
       /\ forall z : Z,
            (Qabs (cents (commission_amount s) - exact)
             <= Qabs (cents z - exact))%Q.
Proof.
  apply (stored_commission_rounded clk0 rep (mkRequest POST None cart_2410) db0
           (snd (SalesApi.handler clk0 rep (mkRequest POST None cart_2410) db0))
           (fst (SalesApi.handler clk0 rep (mkRequest POST None cart_2410) db0))).
  - reflexivity.
  - apply surjective_pairing.
  - vm_compute. reflexivity.
Defined.

(* ================================================================= *)
(** ** Create-sale: stock ledger and customer total *)



Lemma stock_of_after_create (clk : clock) (user : User.t) (body : Req.body)
    (db : DB) (sub : Q) (ls : list line) (p : Z) :
  stock_of (after_create clk user body db sub ls) p
  = option_map (fun st => st - sold ls p) (stock_of db p).
Proof.
  unfold stock_of, after_create. cbn [products].
  rewrite sell_stock_shift, stock_of_shift. reflexivity.
Qed.








(* ================================================================= *)
(** ** No floor on stock or on customer totals *)




(* ================================================================= *)
(** ** Create-sale followed by delete-sale *)





Section CreateThenDelete.

Variables (clk : clock) (user : User.t) (body : Req.body) (db : DB).
Variables (sub : Q) (ls : list line).
Hypothesis Hcons : consistent db = true.

Let sid := sales_id_seq db.
Let row := new_sale clk user body db sub.











End CreateThenDelete.






(* ================================================================= *)
(** ** PUT /api/sales: properties *)

Lemma length_substring_le (n m : nat) (s : string) :
  (String.length (substring n m s) <= m)%nat.
Proof.
  revert n m. induction s as [|c s IH]; intros n m.
  - destruct n, m; simpl; lia.
  - destruct n, m; simpl; try lia; try apply IH.
    specialize (IH 0%nat m). lia.
Qed.

Lemma varchar_fits (n : nat) (s s' : string) :
  varchar n s = Returned s' -> (String.length s' <= n)%nat.
Proof.
  unfold varchar. destruct (String.length s <=? n)%nat eqn:E.
  - intros H. inversion H; subst. apply Nat.leb_le in E. exact E.
  - destruct (all_spaces _); [|discriminate].
    intros H. inversion H; subst. apply length_substring_le.
Qed.

Lemma varchar_stable (n : nat) (s s' : string) :
  varchar n s = Returned s' -> varchar n s' = Returned s'.
Proof.
  intros H. apply varchar_fits in H. unfold varchar.
  apply Nat.leb_le in H. rewrite H. reflexivity.
Qed.

Lemma includes_too_long :
  includes "token" too_long || includes "Invalid" too_long
  || includes "inactive" too_long = false.
Proof. reflexivity. Qed.

Lemma varchar_thrown (n : nat) (s msg : string) :
  varchar n s = Thrown msg -> msg = too_long.
Proof.
  unfold varchar. destruct (_ <=? _)%nat; [discriminate|].
  destruct (all_spaces _); [discriminate|]. intros H; inversion H; reflexivity.
Qed.

Lemma varchar_opt_thrown (n : nat) (v : option string) (msg : string) :
  varchar_opt n v = Thrown msg -> msg = too_long.
Proof.
  destruct v as [s|]; simpl; [|discriminate].
  destruct (varchar n s) eqn:E; [discriminate|].
  intros H; inversion H; subst. eapply varchar_thrown, E.
Qed.

(** What the PUT branch answers, case by case. *)
Lemma handler_put_cases (id : option Z) (body : Upd.body) (db : DB) :
  handler_put id body db =
  match id with
  | None => (mkResponse 400 "Sale ID is required" None, db)
  | Some i =>
      match select_sale db i with
      | [] => (mkResponse 404 "Sale not found" None, db)
      | existing :: _ =>
          match varchar_opt 50 (put_method body existing),
                varchar 20 (put_status body existing) with
          | Returned pm, Returned ps =>
              let rows := map (put_row pm ps (put_notes body existing) i)
                            (sales db) in
              (mkResponse 200 "Sale updated successfully"
                 (hd_error (filter (fun r => sale_id r =? i) rows)),
               mkDB (products db) (customers db) rows (sale_items db)
                    (stock_movements db) (sales_id_seq db)
                    (sale_items_id_seq db) (stock_movements_id_seq db))
          | _, _ => (mkResponse 500 "Server error" None, db)
          end
      end
  end.
Proof.
  unfold handler_put, api_catch, handleUpdateSale.
  destruct id as [i|]; [|reflexivity].
  destruct (select_sale db i) as [|existing more]; [reflexivity|].
  unfold bind, update_sale.
  fold (put_method body existing) (put_status body existing)
       (put_notes body existing).
  fold (varchar_opt 50 (put_method body existing)).
  destruct (varchar_opt 50 (put_method body existing)) as [pm|m1] eqn:E1.
  - destruct (varchar 20 (put_status body existing)) as [ps|m2] eqn:E2.
    + reflexivity.
    + rewrite (varchar_thrown _ _ _ E2), includes_too_long. reflexivity.
  - rewrite (varchar_opt_thrown _ _ _ E1), includes_too_long.
    destruct (varchar 20 (put_status body existing)); reflexivity.
Qed.

Lemma put_row_frozen pm ps nt id r : frozen (put_row pm ps nt id r) = frozen r.
Proof. unfold put_row. destruct (sale_id r =? id); reflexivity. Qed.

Lemma put_row_id pm ps nt id r : sale_id (put_row pm ps nt id r) = sale_id r.
Proof. unfold put_row. destruct (sale_id r =? id); reflexivity. Qed.

Lemma filter_put_rows_other pm ps nt id (rows : list sale) :
  filter (fun r => negb (sale_id r =? id)) (map (put_row pm ps nt id) rows)
  = filter (fun r => negb (sale_id r =? id)) rows.
Proof.
  induction rows as [|r rows IH]; simpl; [reflexivity|].
  rewrite put_row_id. destruct (sale_id r =? id) eqn:E; simpl; [exact IH|].
  unfold put_row at 1. rewrite E, IH. reflexivity.
Qed.

Lemma handler_put_scope (id : option Z) (body : Upd.body) (db : DB) :
  let db' := snd (handler_put id body db) in
  products db' = products db
  /\ customers db' = customers db
  /\ sale_items db' = sale_items db
  /\ stock_movements db' = stock_movements db
  /\ (sales_id_seq db', sale_items_id_seq db', stock_movements_id_seq db')
     = (sales_id_seq db, sale_items_id_seq db, stock_movements_id_seq db)
  /\ map frozen (sales db') = map frozen (sales db)
  /\ forall i, id = Some i ->
       filter (fun r => negb (sale_id r =? i)) (sales db')
       = filter (fun r => negb (sale_id r =? i)) (sales db).
Proof.
  cbv zeta. rewrite handler_put_cases.
  destruct id as [i|]; [|repeat split].
  destruct (select_sale db i) as [|existing more]; [repeat split|].
  destruct (varchar_opt 50 _) as [pm|]; [|repeat split].
  destruct (varchar 20 _) as [ps|]; [|repeat split].
  cbn [snd products customers sales sale_items stock_movements sales_id_seq
       sale_items_id_seq stock_movements_id_seq].
  repeat split.
  - rewrite map_map. apply map_ext. intros r. apply put_row_frozen.
  - intros j Hj. inversion Hj; subst. apply filter_put_rows_other.
Qed.

(** X1.  Whatever it answers, PUT /api/sales leaves [products],
    [customers], [sale_items], [stock_movements] and the sequences as they
    were, keeps every sale with its id, number, customer, sales
    representative and amounts, and leaves the sales with another id
    untouched. *)
Theorem put_sale_scope (id : option Z) (body : Upd.body) (db : DB) :
  let db' := snd (handler_put id body db) in
  products db' = products db
  /\ customers db' = customers db
  /\ sale_items db' = sale_items db
  /\ stock_movements db' = stock_movements db
  /\ (sales_id_seq db', sale_items_id_seq db', stock_movements_id_seq db')
     = (sales_id_seq db, sale_items_id_seq db, stock_movements_id_seq db)
  /\ map frozen (sales db') = map frozen (sales db)
  /\ forall i, id = Some i ->
       filter (fun r => negb (sale_id r =? i)) (sales db')
       = filter (fun r => negb (sale_id r =? i)) (sales db).
Proof.
  exact (handler_put_scope id body db).
Qed.

Lemma filter_map_put_row pm ps nt id (rows : list sale) :
  filter (fun r => sale_id r =? id) (map (put_row pm ps nt id) rows)
  = map (put_row pm ps nt id) (filter (fun r => sale_id r =? id) rows).
Proof.
  induction rows as [|r rows IH]; simpl; [reflexivity|].
  rewrite put_row_id. destruct (sale_id r =? id); simpl; rewrite IH; reflexivity.
Qed.

Lemma put_row_twice pm ps nt id r :
  put_row pm ps nt id (put_row pm ps nt id r) = put_row pm ps nt id r.
Proof.
  unfold put_row at 2. destruct (sale_id r =? id) eqn:E.
  - unfold put_row. cbn [sale_id]. rewrite E. reflexivity.
  - unfold put_row. rewrite E. reflexivity.
Qed.

Lemma varchar_opt_stable (n : nat) (v v' : option string) :
  varchar_opt n v = Returned v' -> varchar_opt n v' = Returned v'.
Proof.
  destruct v as [s|]; simpl.
  - destruct (varchar n s) as [s'|] eqn:E; [|discriminate].
    intros H; inversion H; subst. simpl.
    rewrite (varchar_stable _ _ _ E). reflexivity.
  - intros H; inversion H; subst. reflexivity.
Qed.

Lemma select_sale_id (db : DB) (i : Z) (r : sale) (more : list sale) :
  select_sale db i = r :: more -> sale_id r = i.
Proof.
  intros H. assert (Hin : In r (select_sale db i)) by (rewrite H; left; reflexivity).
  unfold select_sale in Hin. apply filter_In in Hin as [_ E].
  apply Z.eqb_eq in E. exact E.
Qed.

(** X3.  PUT /api/sales is idempotent: sending the same request again gives
    the same answer and leaves the database as the first request left
    it. *)
Theorem put_sale_idempotent (id : option Z) (body : Upd.body) (db : DB) :
  handler_put id body (snd (handler_put id body db))
  = handler_put id body db.
Proof.
  rewrite (handler_put_cases id body db).
  destruct id as [i|]; [|reflexivity].
  destruct (select_sale db i) as [|existing more] eqn:Hsel.
  { cbn [snd]. rewrite handler_put_cases, Hsel. reflexivity. }
  destruct (varchar_opt 50 (put_method body existing)) as [pm|] eqn:E1.
  2:{ cbn [snd]. rewrite handler_put_cases, Hsel, E1. reflexivity. }
  destruct (varchar 20 (put_status body existing)) as [ps|] eqn:E2.
  2:{ cbn [snd]. rewrite handler_put_cases, Hsel, E1, E2. reflexivity. }
  cbv zeta. cbn [snd]. rewrite handler_put_cases.
  unfold select_sale at 1. cbn [sales].
  rewrite filter_map_put_row. fold (select_sale db i). rewrite Hsel.
  cbn [map]. pose proof (select_sale_id db i existing more Hsel) as Hid.
  set (nt := put_notes body existing).
  assert (Hrow : put_row pm ps nt i existing
                 = mkSale (sale_id existing) (sale_number existing)
                     (sale_customer_id existing) (sales_rep_id existing)
                     (subtotal existing) (discount_amount existing)
                     (tax_amount existing) (total_amount existing)
                     (commission_amount existing) (commission_rate existing)
                     pm ps nt).
  { unfold put_row. rewrite Hid, Z.eqb_refl. reflexivity. }
  rewrite Hrow.
  assert (H1 : varchar_opt 50 (put_method body (mkSale (sale_id existing)
                 (sale_number existing) (sale_customer_id existing)
                 (sales_rep_id existing) (subtotal existing)
                 (discount_amount existing) (tax_amount existing)
                 (total_amount existing) (commission_amount existing)
                 (commission_rate existing) pm ps nt)) = Returned pm).
  { unfold put_method, or_else in *. cbn [payment_method].
    destruct (or_null_string (Upd.payment_method body)); [exact E1|].
    apply (varchar_opt_stable _ _ _ E1). }
  assert (H2 : varchar 20 (put_status body (mkSale (sale_id existing)
                 (sale_number existing) (sale_customer_id existing)
                 (sales_rep_id existing) (subtotal existing)
                 (discount_amount existing) (tax_amount existing)
                 (total_amount existing) (commission_amount existing)
                 (commission_rate existing) pm ps nt)) = Returned ps).
  { unfold put_status in *. cbn [payment_status].
    destruct (or_null_string (Upd.payment_status body)); [exact E2|].
    apply (varchar_stable _ _ _ E2). }
  rewrite H1, H2. cbv zeta.
  assert (H3 : put_notes body (mkSale (sale_id existing)
                 (sale_number existing) (sale_customer_id existing)
                 (sales_rep_id existing) (subtotal existing)
                 (discount_amount existing) (tax_amount existing)
                 (total_amount existing) (commission_amount existing)
                 (commission_rate existing) pm ps nt) = nt).
  { unfold nt, put_notes. cbn [notes]. destruct (Upd.notes body); reflexivity. }
  rewrite H3.
  cbn [products customers sales sale_items stock_movements sales_id_seq
       sale_items_id_seq stock_movements_id_seq].
  rewrite map_map.
  rewrite (map_ext (fun x => put_row pm ps nt i (put_row pm ps nt i x))
             (put_row pm ps nt i) (put_row_twice pm ps nt i)).
  rewrite filter_map_put_row. fold (select_sale db i). rewrite Hsel.
  cbn [map]. rewrite Hrow. reflexivity.
Qed.



(** X2.  PUT /api/sales without an id is answered 400 and for an id, a
    value of the INTEGER key, that no sale has 404; a payment status that
    does not fit VARCHAR(20) is not validated: the statement fails and the
    answer is 500.  In the three cases the database is left as it was. *)
Theorem put_sale_errors (body : Upd.body) (db : DB) :
  handler_put None body db = (mkResponse 400 "Sale ID is required" None, db)
  /\ (forall i, int4 i = true -> select_sale db i = [] ->
        handler_put (Some i) body db
        = (mkResponse 404 "Sale not found" None, db))
  /\ (forall i s, select_sale db i <> [] ->
        Upd.payment_status body = Some s ->
        (20 < String.length s)%nat ->
        all_spaces (substring 20 (String.length s - 20) s) = false ->
        handler_put (Some i) body db
        = (mkResponse 500 "Server error" None, db)).
Proof.
  split; [reflexivity|]. split.
  - intros i _ Hsel. rewrite handler_put_cases, Hsel. reflexivity.
  - intros i s Hsel Hs Hlen Hsp. rewrite handler_put_cases.
    destruct (select_sale db i) as [|existing more]; [congruence|].
    assert (E : varchar 20 (put_status body existing) = Thrown too_long).
    { unfold put_status. rewrite Hs.
      destruct s as [|c s']; [simpl in Hlen; lia|]. cbn [or_null_string].
      unfold varchar. apply Nat.leb_gt in Hlen. rewrite Hlen, Hsp. reflexivity. }
    rewrite E. destruct (varchar_opt 50 _); reflexivity.
Qed.

Lemma put_sale_errors_witness :
  handler_put (Some 7) (Upd.mkBody None (Some long_status) None) db1
  = (mkResponse 404 "Sale not found" None, db1)
  /\ handler_put (Some 1) (Upd.mkBody None (Some long_status) None) db1
     = (mkResponse 500 "Server error" None, db1).
Proof.
  split.
  - apply (put_sale_errors (Upd.mkBody None (Some long_status) None) db1);
      vm_compute; reflexivity.
  - apply (proj2 (proj2 (put_sale_errors
                           (Upd.mkBody None (Some long_status) None) db1))
             1 long_status).
    + intros H. vm_compute in H. discriminate.
    + reflexivity.
    + vm_compute. lia.
    + vm_compute. reflexivity.
Defined.

Lemma varchar_nonempty (n : nat) (s s' : string) :
  varchar (S n) s = Returned s' -> s <> EmptyString -> s' <> EmptyString.
Proof.
  unfold varchar. destruct (_ <=? _)%nat.
  - intros H; inversion H; subst. auto.
  - destruct (all_spaces _); [|discriminate].
    intros H Hs; inversion H; subst.
    destruct s as [|c s]; [congruence|]. simpl. discriminate.
Qed.

(** X4.  A PUT answered 200 returns the stored row of the sale.  It cannot
    blank the payment method or the payment status: when the sale had one it
    still has one; the notes are replaced by whatever was sent, empty text
    and null included, and kept when the field is absent. *)
Theorem put_keeps_payment_fields (i : Z) (body : Upd.body) (db db' : DB)
    (existing : sale) (more : list sale) (resp : response) :
  select_sale db i = existing :: more ->
  handler_put (Some i) body db = (resp, db') ->
  status resp = 200 ->
  exists row more',
    body_sale resp = Some row
    /\ select_sale db' i = row :: more'
    /\ frozen row = frozen existing
    /\ (or_null_string (payment_method existing) <> None ->
        or_null_string (payment_method row) <> None)
    /\ (payment_status existing <> EmptyString ->
        payment_status row <> EmptyString)
    /\ notes row = match Upd.notes body with
                   | Some n => n
                   | None => notes existing
                   end.
Proof.
  intros Hsel Hh Hs. rewrite handler_put_cases, Hsel in Hh.
  destruct (varchar_opt 50 (put_method body existing)) as [pm|] eqn:E1.
  2:{ inversion Hh; subst. discriminate. }
  destruct (varchar 20 (put_status body existing)) as [ps|] eqn:E2.
  2:{ inversion Hh; subst. discriminate. }
  cbv zeta in Hh. rewrite filter_map_put_row in Hh.
  fold (select_sale db i) in Hh. rewrite Hsel in Hh. cbn [map hd_error] in Hh.
  pose proof (select_sale_id db i existing more Hsel) as Hid.
  inversion Hh; subst resp db'. clear Hh.
  exists (put_row pm ps (put_notes body existing) i existing),
         (map (put_row pm ps (put_notes body existing) i) more).
  split; [reflexivity|]. split.
  { unfold select_sale. cbn [sales]. rewrite filter_map_put_row.
    fold (select_sale db i). rewrite Hsel. reflexivity. }
  split; [apply put_row_frozen|].
  unfold put_row. rewrite Hid, Z.eqb_refl. cbn [payment_method payment_status notes].
  split; [|split].
  - intros Hpm. unfold put_method, or_else in E1.
    destruct (or_null_string (Upd.payment_method body)) as [s|] eqn:Eb.
    + simpl in E1. destruct (varchar 50 s) as [s'|] eqn:Ev; [|discriminate].
      inversion E1; subst.
      assert (Hne : s <> EmptyString).
      { destruct (Upd.payment_method body) as [[|c t]|]; simpl in Eb;
          inversion Eb; subst; discriminate. }
      pose proof (varchar_nonempty _ _ _ Ev Hne) as Hs'.
      destruct s' as [|c t]; [congruence|]. simpl. discriminate.
    + destruct (payment_method existing) as [s|]; [|simpl in Hpm; congruence].
      simpl in E1. destruct (varchar 50 s) as [s'|] eqn:Ev; [|discriminate].
      inversion E1; subst.
      assert (Hne : s <> EmptyString)
        by (destruct s; [simpl in Hpm; congruence | discriminate]).
      pose proof (varchar_nonempty _ _ _ Ev Hne) as Hs'.
      destruct s' as [|c t]; [congruence|]. simpl. discriminate.
  - intros Hps. unfold put_status in E2.
    destruct (or_null_string (Upd.payment_status body)) as [s|] eqn:Eb.
    + assert (Hne : s <> EmptyString).
      { destruct (Upd.payment_status body) as [[|c t]|]; simpl in Eb;
          inversion Eb; subst; discriminate. }
      apply (varchar_nonempty _ _ _ E2 Hne).
    + apply (varchar_nonempty _ _ _ E2 Hps).
  - reflexivity.
Qed.

Lemma put_keeps_payment_fields_witness :
  exists row more',
    body_sale (fst (handler_put (Some 1) blank_put db1)) = Some row
    /\ select_sale (snd (handler_put (Some 1) blank_put db1)) 1
       = row :: more'
    /\ payment_status row = "completed"
    /\ notes row = Some EmptyString.
Proof.
  destruct (put_keeps_payment_fields 1 blank_put db1
              (snd (handler_put (Some 1) blank_put db1))
              (mkSale 1 "SALE-123456007" (Some 1) 2 2500 200 100 2400 120 500
                 None "completed" None) []
              (fst (handler_put (Some 1) blank_put db1)))
    as (row & more' & Hb & Hsel & _ & _ & _ & Hn).
  - vm_compute. reflexivity.
  - apply surjective_pairing.
  - vm_compute. reflexivity.
  - exists row, more'. split; [exact Hb|]. split; [exact Hsel|].
    vm_compute in Hb. inversion Hb; subst row. split; reflexivity.
Defined.

(* ================================================================= *)
(** ** All or nothing *)

Lemma bind_returned {A B} (m : Tx A) (k : A -> Tx B) (db db' : DB) (b : B) :
  bind m k db = (Returned b, db') ->
  exists a d, m db = (Returned a, d) /\ k a d = (Returned b, db').
Proof.
  unfold bind. destruct (m db) as [[a|msg] d]; [|discriminate].
  intros H. exists a, d. auto.
Qed.

Lemma transaction_thrown {A} (body : Tx A) (db db' : DB) (msg : string) :
  transaction body db = (Thrown msg, db') -> tables db' = tables db.
Proof.
  unfold transaction. destruct (body db) as [[a|m] d]; [discriminate|].
  intros H. inversion H; subst. reflexivity.
Qed.

Lemma transaction_returned {A} (body : Tx A) (db db' : DB) (a : A) :
  transaction body db = (Returned a, db') -> body db = (Returned a, db').
Proof.
  unfold transaction. destruct (body db) as [[a'|m] d]; [|discriminate].
  intros H. inversion H; subst. reflexivity.
Qed.

Lemma api_catch_thrown_status (m : Tx response) (db d : DB) (msg : string) :
  m db = (Thrown msg, d) ->
  status (fst (api_catch m db)) = 401 \/ status (fst (api_catch m db)) = 500.
Proof.
  intros H. unfold api_catch. rewrite H.
  destruct (_ || _ || _); [left | right]; reflexivity.
Qed.

(** The body of the transaction of delete-sale returns only the 200
    answer. *)
Lemma handleDeleteSale_returned (user : User.t) (id : option Z)
    (db db' : DB) (r : response) :
  handleDeleteSale user id db = (Returned r, db') ->
  status r = 200 \/ db' = db.
Proof.
  unfold handleDeleteSale. destruct id as [i|].
  2:{ intros H. inversion H. right; reflexivity. }
  destruct (negb _).
  { intros H. inversion H. right; reflexivity. }
  destruct (select_sale db i) as [|row more].
  { intros H. inversion H. right; reflexivity. }
  intros H. apply transaction_returned in H.
  apply bind_returned in H as (a1 & d1 & _ & H).
  apply bind_returned in H as (a2 & d2 & _ & H).
  apply bind_returned in H as (a3 & d3 & _ & H).
  inversion H. left; reflexivity.
Qed.

Lemma handleDeleteSale_thrown (user : User.t) (id : option Z)
    (db db' : DB) (msg : string) :
  handleDeleteSale user id db = (Thrown msg, db') -> tables db' = tables db.
Proof.
  unfold handleDeleteSale. destruct id as [i|]; [|discriminate].
  destruct (negb _); [discriminate|].
  destruct (select_sale db i) as [|row more]; [discriminate|].
  apply transaction_thrown.
Qed.

Lemma handleCreateSale_returned (clk : clock) (user : User.t) (body : Req.body)
    (db db' : DB) (r : response) :
  handleCreateSale clk user body db = (Returned r, db') ->
  status r = 201 \/ db' = db.
Proof.
  unfold handleCreateSale.
  destruct (Req.items body) as [[|it rest]|].
  1,3: intros H; inversion H; right; reflexivity.
  intros H. apply transaction_returned in H.
  apply bind_returned in H as (a1 & d1 & _ & H).
  apply bind_returned in H as (a2 & d2 & _ & H).
  apply bind_returned in H as (a3 & d3 & _ & H).
  apply bind_returned in H as (a4 & d4 & _ & H).
  inversion H. left; reflexivity.
Qed.

Lemma handleCreateSale_thrown (clk : clock) (user : User.t) (body : Req.body)
    (db db' : DB) (msg : string) :
  handleCreateSale clk user body db = (Thrown msg, db') ->
  tables db' = tables db.
Proof.
  unfold handleCreateSale.
  destruct (Req.items body) as [[|it rest]|]; try discriminate.
  apply transaction_thrown.
Qed.

Lemma rejected_request_unchanged (clk : clock) (user : User.t) (req : request)
    (db : DB) :
  (req_method req = POST ->
   status (fst (SalesApi.handler clk user req db)) <> 201 ->
   tables (snd (SalesApi.handler clk user req db)) = tables db)
  /\ (req_method req = DELETE ->
      status (fst (SalesApi.handler clk user req db)) <> 200 ->
      tables (snd (SalesApi.handler clk user req db)) = tables db).
Proof.
  unfold SalesApi.handler, api_catch. split; intros Hm; rewrite Hm.
  - destruct (handleCreateSale clk user (req_body req) db) as [[r|msg] d] eqn:E.
    + cbn [fst snd]. intros Hs.
      destruct (handleCreateSale_returned _ _ _ _ _ _ E) as [H|H];
        [contradiction | subst; reflexivity].
    + cbn [snd]. intros _. eapply handleCreateSale_thrown, E.
  - destruct (handleDeleteSale user (query_id req) db) as [[r|msg] d] eqn:E.
    + cbn [fst snd]. intros Hs.
      destruct (handleDeleteSale_returned _ _ _ _ _ E) as [H|H];
        [contradiction | subst; reflexivity].
    + cbn [snd]. intros _. eapply handleDeleteSale_thrown, E.
Qed.

(** X7.  The writes of a sales request are all or nothing: a POST that is
    not answered 201 and a DELETE that is not answered 200 leave every
    table as it was, whatever statement failed and however many statements
    had run before it. *)
Theorem sales_requests_atomic (clk : clock) (user : User.t) (req : request)
    (db : DB) :
  (req_method req = POST ->
   status (fst (SalesApi.handler clk user req db)) <> 201 ->
   tables (snd (SalesApi.handler clk user req db)) = tables db)
  /\ (req_method req = DELETE ->
      status (fst (SalesApi.handler clk user req db)) <> 200 ->
      tables (snd (SalesApi.handler clk user req db)) = tables db).
Proof.
  exact (rejected_request_unchanged clk user req db).
Qed.

Lemma sales_requests_atomic_witness :
  status (fst (SalesApi.handler clk0 rep
                 (mkRequest POST None cart_unknown_product) db0)) = 500
  /\ tables (snd (SalesApi.handler clk0 rep
                    (mkRequest POST None cart_unknown_product) db0))
     = tables db0.
Proof.
  split; [vm_compute; reflexivity|].
  apply (proj1 (sales_requests_atomic clk0 rep
                  (mkRequest POST None cart_unknown_product) db0)).
  - reflexivity.
  - vm_compute. discriminate.
Defined.

Lemma has_sale_ids (db db' : DB) :
  map sale_id (sales db') = map sale_id (sales db) ->
  forall i, has_sale db' i = has_sale db i.
Proof.
  unfold has_sale. intros H i.
  rewrite <- (map_id (sales db')), <- (map_id (sales db)).
  change (existsb (fun r => sale_id r =? i) (map id (sales db')))
    with (existsb (fun r => sale_id r =? i) (map (fun r => r) (sales db'))).
  assert (G : forall l, existsb (fun r => sale_id r =? i) l
                        = existsb (fun z => z =? i) (map sale_id l)).
  { induction l as [|r l IH]; simpl; [reflexivity | rewrite IH; reflexivity]. }
  rewrite !map_id, !G, H. reflexivity.
Qed.

Lemma has_product_ids (db db' : DB) :
  map product_id (products db') = map product_id (products db) ->
  forall p, has_product db' p = has_product db p.
Proof.
  unfold has_product. intros H p.
  assert (G : forall l, existsb (fun r => product_id r =? p) l
                        = existsb (fun z => z =? p) (map product_id l)).
  { induction l as [|r l IH]; simpl; [reflexivity | rewrite IH; reflexivity]. }
  rewrite !G, H. reflexivity.
Qed.

Lemma shift_stock_ids (d : Z -> Z) (ps : list product) :
  map product_id (shift_stock d ps) = map product_id ps.
Proof. unfold shift_stock. rewrite map_map. reflexivity. Qed.

(** [consistent] looks at the sales only through their ids, at the products
    only through theirs. *)
Lemma consistent_same_keys (db db' : DB) :
  map sale_id (sales db') = map sale_id (sales db) ->
  map product_id (products db') = map product_id (products db) ->
  sale_items db' = sale_items db ->
  sales_id_seq db <= sales_id_seq db' ->
  consistent db = true -> consistent db' = true.
Proof.
  intros Hs Hp Hi Hq. unfold consistent. intros H.
  apply andb_true_iff in H as [H1 H2]. apply andb_true_iff. split.
  - assert (G : forall (q : Z) l, forallb (fun s => sale_id s <? q) l
                            = forallb (fun z => z <? q) (map sale_id l)).
    { intros q. induction l as [|r l IH]; simpl; [reflexivity | rewrite IH; reflexivity]. }
    rewrite G, Hs. rewrite G in H1.
    rewrite forallb_forall in *. intros z Hz. specialize (H1 z Hz).
    apply Z.ltb_lt in H1. apply Z.ltb_lt. lia.
  - rewrite Hi. rewrite forallb_forall in *. intros it Hit.
    specialize (H2 it Hit).
    rewrite (has_sale_ids db db' Hs), (has_product_ids db db' Hp). exact H2.
Qed.

Lemma sound_same_keys (db db' : DB) :
  map frozen (sales db') = map frozen (sales db) ->
  map product_id (products db') = map product_id (products db) ->
  sale_items db' = sale_items db ->
  sales_id_seq db <= sales_id_seq db' ->
  sound db -> sound db'.
Proof.
  intros Hf Hp Hi Hq (Hc & Hid & Hnum).
  assert (Hs : map sale_id (sales db') = map sale_id (sales db)).
  { apply (f_equal (map (fun t => fst (fst (fst (fst (fst t))))))) in Hf.
    rewrite !map_map in Hf. exact Hf. }
  assert (Hn : map sale_number (sales db') = map sale_number (sales db)).
  { apply (f_equal (map (fun t => snd (fst (fst (fst (fst t))))))) in Hf.
    rewrite !map_map in Hf. exact Hf. }
  split; [|split].
  - apply (consistent_same_keys db db'); assumption.
  - rewrite Hs. exact Hid.
  - rewrite Hn. exact Hnum.
Qed.

(** The sequence of [sales] never goes back. *)
Lemma create_sale_items_seq (sid : Z) (num : string) (uid : Z)
    (ls : list line) (db : DB) :
  sales_id_seq (snd (create_sale_items sid num uid ls db)) = sales_id_seq db.
Proof.
  revert db. induction ls as [|l rest IH]; intros db; [reflexivity|].
  cbn [create_sale_items]. unfold bind at 1. unfold insert_sale_item.
  destruct (has_sale db sid && has_product db (line_product l)); [|reflexivity].
  unfold bind at 1. unfold update_stock.
  unfold bind at 1. unfold insert_stock_movement at 1.
  destruct (has_product _ _); [|reflexivity].
  rewrite IH. reflexivity.
Qed.

Lemma handleCreateSale_seq (clk : clock) (user : User.t) (body : Req.body)
    (db : DB) :
  sales_id_seq db <= sales_id_seq (snd (handleCreateSale clk user body db)).
Proof.
  unfold handleCreateSale.
  destruct (Req.items body) as [[|it rest]|]; try (cbn; lia).
  unfold transaction, bind, lift.
  destruct (calculate_totals (it :: rest) 0%Q) as [[sub ls]|msg]; [|cbn; lia].
  cbn [fst snd]. unfold insert_sale.
  destruct (existsb _ (sales db)); [cbn; lia|].
  destruct (match or_null (Req.customer_id body) with
            | Some c => has_customer db c
            | None => true
            end); [|cbn; lia].
  match goal with
  | |- context [create_sale_items ?a ?b ?c ?d ?e] =>
      pose proof (create_sale_items_seq a b c d e) as Hq;
      destruct (create_sale_items a b c d e) as [[u|m] d1]
  end; cbn [snd sales_id_seq] in Hq.
  - destruct (or_null (Req.customer_id body));
      unfold update_purchases, ret; cbn; lia.
  - cbn. lia.
Qed.

Lemma NoDup_keys_filter {K R} (key : R -> K) (keep : R -> bool)
    (rows : list R) :
  NoDup (map key rows) -> NoDup (map key (filter keep rows)).
Proof.
  induction rows as [|r rows IH]; cbn [map filter]; intros H; [constructor|].
  inversion H as [|x xs Hnew Hrest]; subst.
  destruct (keep r); cbn [map]; [|now apply IH].
  constructor; [|now apply IH].
  intros Hin. apply Hnew.
  apply in_map_iff in Hin as (r' & E & Hr').
  apply filter_In in Hr' as [Hr' _].
  apply in_map_iff. now exists r'.
Qed.

Lemma sell_stock_ids (ls : list line) (ps : list product) :
  map product_id (sell_stock ls ps) = map product_id ps.
Proof. rewrite sell_stock_shift. apply shift_stock_ids. Qed.

Lemma restock_ids (its : list sale_item) (ps : list product) :
  map product_id (restock its ps) = map product_id ps.
Proof. rewrite restock_shift. apply shift_stock_ids. Qed.

Lemma item_rows_resolve (sid next : Z) (ls : list line) (db : DB) :
  products_resolve ls db = true ->
  forall it, In it (item_rows sid next ls) ->
    item_sale_id it = sid /\ has_product db (item_product_id it) = true.
Proof.
  unfold products_resolve. revert next.
  induction ls as [|l rest IH]; intros next H it Hin; simpl in *.
  - contradiction.
  - apply andb_true_iff in H as [H1 H2].
    destruct Hin as [<- | Hin]; [split; [reflexivity | exact H1]|].
    apply (IH (next + 1) H2 it Hin).
Qed.

Lemma sound_after_create (clk : clock) (user : User.t) (body : Req.body)
    (db : DB) (sub : Q) (ls : list line) :
  sound db ->
  number_taken clk db = false ->
  products_resolve ls db = true ->
  sound (after_create clk user body db sub ls).
Proof.
  intros (Hc & Hid & Hnum) Hn Hp.
  pose proof Hc as Hc'. unfold consistent in Hc'.
  apply andb_true_iff in Hc' as [H1 H2].
  rewrite forallb_forall in H1, H2.
  assert (Hprod : forall p,
             has_product (after_create clk user body db sub ls) p
             = has_product db p).
  { apply has_product_ids. unfold after_create. cbn [products].
    apply sell_stock_ids. }
  assert (Hsale : forall i, has_sale db i = true ->
             has_sale (after_create clk user body db sub ls) i = true).
  { intros i Hi. unfold has_sale, after_create in *. cbn [sales].
    rewrite existsb_app, Hi. reflexivity. }
  split; [|split].
  - unfold consistent. apply andb_true_iff. split.
    + apply forallb_forall. intros r Hr.
      unfold after_create in Hr |- *. cbn [sales sales_id_seq] in *.
      apply in_app_or in Hr as [Hr | [<- | []]].
      * specialize (H1 r Hr). apply Z.ltb_lt in H1. apply Z.ltb_lt. lia.
      * cbn [new_sale sale_id]. apply Z.ltb_lt. lia.
    + apply forallb_forall. intros it Hit.
      unfold after_create in Hit. cbn [sale_items] in Hit.
      apply in_app_or in Hit as [Hit | Hit].
      * specialize (H2 it Hit). apply andb_true_iff in H2 as [Ha Hb].
        rewrite Hprod, Hb, (Hsale _ Ha). reflexivity.
      * destruct (item_rows_resolve _ _ _ _ Hp it Hit) as [Ha Hb].
        rewrite Hprod, Hb, Ha, andb_true_r.
        unfold has_sale, after_create. cbn [sales].
        rewrite existsb_app. cbn [existsb new_sale sale_id].
        rewrite Z.eqb_refl. rewrite orb_true_r. reflexivity.
  - unfold after_create. cbn [sales]. rewrite map_app. cbn [map new_sale sale_id].
    apply NoDup_app_remove_l with (l := []).
    rewrite app_nil_l.
    apply NoDup_app.
    + exact Hid.
    + constructor; [intros [] | constructor].
    + intros z Hz [<- | []]. apply in_map_iff in Hz as [r [E Hr]].
      specialize (H1 r Hr). apply Z.ltb_lt in H1. lia.
  - unfold after_create. cbn [sales]. rewrite map_app. cbn [map new_sale sale_number].
    apply NoDup_app.
    + exact Hnum.
    + constructor; [intros [] | constructor].
    + intros z Hz [<- | []]. apply in_map_iff in Hz as [r [E Hr]].
      unfold number_taken in Hn.
      assert (Ht : existsb (fun r => (sale_number r =? generateSaleNumber clk)%string)
                     (sales db) = true).
      { apply existsb_exists. exists r. split; [exact Hr|].
        apply String.eqb_eq. exact E. }
      congruence.
Qed.

Lemma sound_after_delete (user : User.t) (i : Z) (row : sale) (db : DB) :
  sound db -> sound (after_delete user i row db).
Proof.
  intros (Hc & Hid & Hnum).
  pose proof Hc as Hc'. unfold consistent in Hc'.
  apply andb_true_iff in Hc' as [H1 H2].
  rewrite forallb_forall in H1, H2.
  assert (Hprod : forall p,
             has_product (after_delete user i row db) p = has_product db p).
  { apply has_product_ids. unfold after_delete. cbn [products].
    apply restock_ids. }
  split; [|split].
  - unfold consistent. apply andb_true_iff. split.
    + apply forallb_forall. intros r Hr.
      unfold after_delete in Hr |- *. cbn [sales sales_id_seq] in *.
      apply filter_In in Hr as [Hr _]. apply H1, Hr.
    + apply forallb_forall. intros it Hit.
      unfold after_delete in Hit. cbn [sale_items] in Hit.
      apply filter_In in Hit as [Hit Hne].
      specialize (H2 it Hit). apply andb_true_iff in H2 as [Ha Hb].
      rewrite Hprod, Hb, andb_true_r.
      unfold has_sale in *. apply existsb_exists in Ha as [r [Hr E]].
      apply existsb_exists. exists r. split; [|exact E].
      unfold after_delete. cbn [sales]. apply filter_In. split; [exact Hr|].
      apply Z.eqb_eq in E. rewrite E. exact Hne.
  - unfold after_delete. cbn [sales]. apply NoDup_keys_filter, Hid.
  - unfold after_delete. cbn [sales]. apply NoDup_keys_filter, Hnum.
Qed.

Lemma handleDeleteSale_db (user : User.t) (i : Z) (db : DB) :
  consistent db = true ->
  snd (handleDeleteSale user (Some i) db) = db
  \/ exists row, snd (handleDeleteSale user (Some i) db)
                 = after_delete user i row db.
Proof.
  intros Hc.
  destruct (String.eqb (User.role user) "admin") eqn:Hr.
  - destruct (select_sale db i) as [|row more] eqn:Hsel.
    + left. unfold handleDeleteSale. rewrite Hr. cbn [negb]. rewrite Hsel.
      reflexivity.
    + right. exists row.
      rewrite (handleDeleteSale_run user i db row more Hr Hsel
                 (consistent_items_resolve db i Hc)).
      reflexivity.
  - left. unfold handleDeleteSale. rewrite Hr. reflexivity.
Qed.

(** X6.  Every request to the sales endpoint, whatever it answers, keeps
    the integrity of the database: the references of [sale_items] resolve,
    every sale id is below the sequence, and no two sales share an id or a
    sale number. *)
Theorem sales_requests_keep_sound (clk : clock) (user : User.t)
    (req : request) (id : option Z) (body : Upd.body) (db : DB) :
  sound db ->
  sound (snd (SalesApi.handler clk user req db))
  /\ sound (snd (handler_put id body db)).
Proof.
  intros Hs. split.
  - destruct (req_method req) eqn:Hm.
    + (* POST *)
      destruct (Z.eq_dec (status (fst (SalesApi.handler clk user req db))) 201)
        as [H201 | Hne].
      * destruct (created_inv clk user req db _ _ Hm
                    (surjective_pairing _) H201)
          as (items & sub & _ & _ & _ & _ & Hn & _ & Hp & _ & Hd).
        rewrite Hd. apply sound_after_create; assumption.
      * pose proof (proj1 (rejected_request_unchanged clk user req db) Hm Hne) as Ht.
        unfold tables in Ht. inversion Ht as [[Hpr Hcu Hsa Hit Hmo]].
        apply (sound_same_keys db); try (rewrite Hsa || rewrite Hpr); auto.
        unfold SalesApi.handler, api_catch. rewrite Hm.
        pose proof (handleCreateSale_seq clk user (req_body req) db) as Hq.
        destruct (handleCreateSale clk user (req_body req) db) as [[r|m] d];
          exact Hq.
    + (* DELETE *)
      unfold SalesApi.handler, api_catch. rewrite Hm.
      destruct (query_id req) as [i|]; [|exact Hs].
      destruct (handleDeleteSale_db user i db (proj1 Hs)) as [E | [row E]].
      * destruct (handleDeleteSale user (Some i) db) as [[r|m] d];
          cbn [snd] in *; subst; exact Hs.
      * destruct (handleDeleteSale user (Some i) db) as [[r|m] d];
          cbn [snd] in *; subst; apply sound_after_delete, Hs.
    + unfold SalesApi.handler. rewrite Hm. exact Hs.
    + unfold SalesApi.handler. rewrite Hm. exact Hs.
  - destruct (handler_put_scope id body db) as (Hp & _ & Hi & _ & Hq & Hf & _).
    apply (sound_same_keys db); auto.
    + rewrite Hp. reflexivity.
    + inversion Hq as [[Hq1 Hq2 Hq3]]. rewrite Hq1. lia.
Qed.

Lemma sales_requests_keep_sound_witness :
  sound (snd (SalesApi.handler clk0 rep (mkRequest POST None cart0) db0))
  /\ sound (snd (handler_put (Some 1)
                   (Upd.mkBody (Some "card") None None) db0)).
Proof.
  apply (sales_requests_keep_sound clk0 rep (mkRequest POST None cart0)
           (Some 1) (Upd.mkBody (Some "card") None None) db0).
  split; [reflexivity|]. split; constructor.
Defined.

Lemma net_of_app (ms ms' : list stock_movement) (p : Z) :
  net_of (ms ++ ms') p = net_of ms p + net_of ms' p.
Proof.
  unfold net_of. induction ms as [|m ms IH]; simpl; [reflexivity|].
  rewrite IH. ring.
Qed.

Lemma net_of_out (sid : Z) (num : string) (uid next : Z) (ls : list line)
    (p : Z) :
  net_of (out_movements sid num uid next ls) p = - sold ls p.
Proof.
  revert next. induction ls as [|l rest IH]; intros next; [reflexivity|].
  unfold net_of, sold in *. cbn [out_movements fold_right movement_product_id].
  rewrite IH. unfold movement_delta. cbn.
  destruct (line_product l =? p); ring.
Qed.

Lemma net_of_in (num : string) (uid next : Z) (its : list sale_item) (p : Z) :
  net_of (in_movements num uid next its) p = returned its p.
Proof.
  revert next. induction its as [|it rest IH]; intros next; [reflexivity|].
  unfold net_of, returned in *. cbn [in_movements fold_right movement_product_id].
  rewrite IH. unfold movement_delta. cbn.
  destruct (item_product_id it =? p); ring.
Qed.

Lemma off_ledger_after_create (clk : clock) (user : User.t) (body : Req.body)
    (db : DB) (sub : Q) (ls : list line) (p : Z) :
  off_ledger (after_create clk user body db sub ls) p = off_ledger db p.
Proof.
  unfold off_ledger. rewrite stock_of_after_create.
  unfold after_create. cbn [stock_movements].
  rewrite net_of_app, net_of_out.
  destruct (stock_of db p) as [st|]; [|reflexivity]. simpl. f_equal. ring.
Qed.

Lemma off_ledger_after_delete (user : User.t) (i : Z) (row : sale) (db : DB)
    (p : Z) :
  off_ledger (after_delete user i row db) p = off_ledger db p.
Proof.
  unfold off_ledger, stock_of, after_delete.
  cbn [products stock_movements].
  rewrite restock_shift, stock_of_shift, net_of_app, net_of_in.
  destruct (find _ (products db)) as [r|]; [|reflexivity]. simpl. f_equal. ring.
Qed.

Lemma off_ledger_same_tables (db db' : DB) (p : Z) :
  products db' = products db ->
  stock_movements db' = stock_movements db ->
  off_ledger db' p = off_ledger db p.
Proof.
  intros H1 H2. unfold off_ledger, stock_of. rewrite H1, H2. reflexivity.
Qed.

Lemma restore_items_fail (num : string) (uid : Z) (its : list sale_item)
    (db : DB) :
  items_resolve its db = false ->
  exists db', restore_items num uid its db = (Thrown fk_violation_insert, db').
Proof.
  revert db. induction its as [|it rest IH]; intros db Hp.
  - discriminate.
  - unfold items_resolve in Hp. simpl in Hp.
    cbn [restore_items]. unfold bind, update_stock.
    unfold insert_stock_movement at 1.
    unfold has_product at 1. cbn [products].
    rewrite existsb_add_stock. fold (has_product db (item_product_id it)).
    destruct (has_product db (item_product_id it)) eqn:Hit.
    + apply IH. simpl in Hp. etransitivity; [|exact Hp].
      apply items_resolve_same_ids. intros q.
      unfold has_product. cbn [products]. apply existsb_add_stock.
    + eexists; reflexivity.
Qed.

Lemma handleDeleteSale_any (user : User.t) (i : Z) (db : DB) :
  tables (snd (handleDeleteSale user (Some i) db)) = tables db
  \/ exists row, snd (handleDeleteSale user (Some i) db)
                 = after_delete user i row db.
Proof.
  destruct (String.eqb (User.role user) "admin") eqn:Hr.
  - destruct (select_sale db i) as [|row more] eqn:Hsel.
    + left. unfold handleDeleteSale. rewrite Hr. cbn [negb]. rewrite Hsel.
      reflexivity.
    + destruct (items_resolve (select_sale_items db i) db) eqn:Hres.
      * right. exists row.
        rewrite (handleDeleteSale_run user i db row more Hr Hsel Hres).
        reflexivity.
      * left.
        destruct (restore_items_fail (sale_number row) (User.id user) _ _ Hres)
          as [d Hf].
        unfold handleDeleteSale. rewrite Hr. cbn [negb]. rewrite Hsel.
        unfold transaction, bind. rewrite Hf. reflexivity.
  - left. unfold handleDeleteSale. rewrite Hr. reflexivity.
Qed.

(** X8.  Stock and ledger never drift apart: for every product, the stock
    minus the sum of its movements (in rows added, out rows subtracted) is
    the same before and after any request to the sales endpoint, whatever
    the request and its answer. *)
Theorem sales_requests_keep_ledger (clk : clock) (user : User.t)
    (req : request) (id : option Z) (body : Upd.body) (db : DB) (p : Z) :
  off_ledger (snd (SalesApi.handler clk user req db)) p = off_ledger db p
  /\ off_ledger (snd (handler_put id body db)) p = off_ledger db p.
Proof.
  split.
  - destruct (req_method req) eqn:Hm.
    + destruct (Z.eq_dec (status (fst (SalesApi.handler clk user req db))) 201)
        as [H201 | Hne].
      * destruct (created_inv clk user req db _ _ Hm
                    (surjective_pairing _) H201)
          as (items & sub & _ & _ & _ & _ & _ & _ & _ & _ & Hd).
        rewrite Hd. apply off_ledger_after_create.
      * pose proof (proj1 (rejected_request_unchanged clk user req db) Hm Hne) as Ht.
        unfold tables in Ht. inversion Ht as [[Hpr Hcu Hsa Hit Hmo]].
        apply off_ledger_same_tables; assumption.
    + unfold SalesApi.handler, api_catch. rewrite Hm.
      destruct (query_id req) as [i|]; [|reflexivity].
      destruct (handleDeleteSale_any user i db) as [E | [row E]].
      * destruct (handleDeleteSale user (Some i) db) as [[r|m] d];
          cbn [snd] in *; unfold tables in E; inversion E;
          apply off_ledger_same_tables; assumption.
      * destruct (handleDeleteSale user (Some i) db) as [[r|m] d];
          cbn [snd] in *; subst; apply off_ledger_after_delete.
    + unfold SalesApi.handler. rewrite Hm. reflexivity.
    + unfold SalesApi.handler. rewrite Hm. reflexivity.
  - destruct (handler_put_scope id body db) as (Hp & _ & _ & Hmv & _).
    apply off_ledger_same_tables; assumption.
Qed.







Section SaleNumberDigits.
Import Decimal DecimalFacts DecimalPos DecimalN.
Local Open Scope N_scope.

Lemma string_of_uint_list (u : uint) :
  NilEmpty.string_of_uint u = string_of_digits (to_list u).
Proof. induction u; simpl; [reflexivity | rewrite IHu; reflexivity ..]. Qed.

Lemma string_of_digits_app (l l' : list digits) :
  string_of_digits (l ++ l') = (string_of_digits l ++ string_of_digits l')%string.
Proof. induction l as [|dg l IH]; simpl; [reflexivity | rewrite IH; reflexivity]. Qed.

Lemma of_uint_snoc (l : list digits) (dg : digits) :
  N.of_uint (of_list (l ++ [dg])) = 10 * N.of_uint (of_list l) + digit_of dg.
Proof.
  unfold N.of_uint. rewrite !Unsigned.of_uint_alt.
  assert (R : forall l0, rev (of_list l0) = of_list (List.rev l0)).
  { intros l0. apply to_list_inj. rewrite rev_spec, !to_list_of_list. reflexivity. }
  rewrite !R, rev_app_distr. cbn [List.rev List.app].
  destruct dg; cbn [of_list Unsigned.of_lu digit_of]; lia.
Qed.

Lemma below_ten (n : N) : n < 10 -> In n (map N.of_nat (seq 0 10)).
Proof.
  intros H. rewrite <- (N2Nat.id n). apply in_map, in_seq. lia.
Qed.

Lemma to_uint_small (n : N) :
  n < 10 -> to_list (N.to_uint n) = [match n with
                                     | 0 => d0 | 1 => d1 | 2 => d2 | 3 => d3
                                     | 4 => d4 | 5 => d5 | 6 => d6 | 7 => d7
                                     | 8 => d8 | _ => d9 end].
Proof.
  intros H.
  pose proof (below_ten n H) as C. vm_compute in C.
  repeat (destruct C as [<- | C]; [reflexivity|]). destruct C.
Qed.

Lemma digit_of_at (n : N) : digit_of (digit_at n) = n mod 10.
Proof.
  unfold digit_at. pose proof (N.mod_upper_bound n 10 ltac:(discriminate)) as H.
  set (r := n mod 10) in *. clearbody r.
  assert (C : r = 0 \/ r = 1 \/ r = 2 \/ r = 3 \/ r = 4 \/ r = 5 \/ r = 6
              \/ r = 7 \/ r = 8 \/ r = 9) by lia.
  repeat (destruct C as [-> | C]; [reflexivity|]). subst. reflexivity.
Qed.

Lemma digit_char_at (n : N) : digit_char (digit_of (digit_at n)) = digit_char n.
Proof.
  rewrite digit_of_at. unfold digit_char.
  rewrite N.Div0.mod_mod. reflexivity.
Qed.

Lemma to_uint_normal (m : N) :
  1 <= m ->
  exists x l, to_list (N.to_uint m) = (x :: l)%list /\ x <> d0.
Proof.
  intros Hm.
  assert (Hn : unorm (N.to_uint m) = N.to_uint m).
  { rewrite <- (DecimalN.Unsigned.to_of (N.to_uint m)), DecimalN.Unsigned.of_to.
    reflexivity. }
  apply (f_equal to_list) in Hn. rewrite unorm_spec in Hn.
  unfold lunorm in Hn.
  destruct (to_list (N.to_uint m)) as [|x l] eqn:El.
  - simpl in Hn. discriminate.
  - exists x, l. split; [reflexivity|]. intros ->.
    simpl in Hn. destruct (lnzhead l) as [|y l'] eqn:Ez.
    + inversion Hn; subst.
      assert (Hu : N.to_uint m = D0 Nil).
      { apply to_list_inj. rewrite El. reflexivity. }
      pose proof (DecimalN.Unsigned.of_to m) as Hof. rewrite Hu in Hof.
      simpl in Hof. lia.
    + rewrite <- Ez in Hn. revert Hn. apply lnzhead_neq_d0_head.
Qed.

Lemma to_uint_tenfold (m x : N) :
  1 <= m -> x < 10 ->
  to_list (N.to_uint (10 * m + x))
  = (to_list (N.to_uint m) ++ [digit_at x])%list.
Proof.
  intros Hm Hx.
  set (l := to_list (N.to_uint m)).
  assert (Hof : N.of_uint (of_list (l ++ [digit_at x])) = 10 * m + x).
  { rewrite of_uint_snoc. unfold l.
    rewrite of_list_to_list, DecimalN.Unsigned.of_to, digit_of_at.
    rewrite N.mod_small by exact Hx. reflexivity. }
  rewrite <- Hof, DecimalN.Unsigned.to_of, unorm_spec, to_list_of_list.
  destruct (to_uint_normal m Hm) as (y & l' & El & Hy).
  fold l in El. rewrite El. unfold lunorm.
  cbn [List.app]. rewrite lnzhead_head_nd0 by exact Hy. reflexivity.
Qed.

(** [toString], digit by digit. *)
Lemma toString_step (n : N) :
  toString n
  = ((if (n <? 10)%N then EmptyString else toString (n / 10)%N)
     ++ String (digit_char n) EmptyString)%string.
Proof.
  unfold toString. destruct (n <? 10) eqn:E.
  - apply N.ltb_lt in E. rewrite string_of_uint_list, (to_uint_small n E).
    pose proof (below_ten n E) as C. vm_compute in C.
    repeat (destruct C as [<- | C]; [reflexivity|]). destruct C.
  - apply N.ltb_ge in E.
    rewrite (N.div_mod n 10) at 1 by discriminate.
    rewrite !string_of_uint_list, to_uint_tenfold.
    + rewrite string_of_digits_app. cbn [string_of_digits].
      rewrite digit_char_at. unfold digit_char at 1.
      rewrite N.Div0.mod_mod. reflexivity.
    + apply N.div_le_lower_bound; lia.
    + apply N.mod_upper_bound. discriminate.
Qed.

(** ** Strings *)

Lemma substring_zero_len (n : nat) (s : string) : substring n 0 s = EmptyString.
Proof.
  revert n. induction s as [|c s IH]; intros n; destruct n; simpl; auto.
Qed.

Lemma substring_all (k : nat) (s : string) :
  (String.length s <= k)%nat -> substring 0 k s = s.
Proof.
  revert k. induction s as [|c s IH]; intros k H.
  - destruct k; reflexivity.
  - destruct k; simpl in *; [lia|]. rewrite IH by lia. reflexivity.
Qed.

Lemma slice_last_short (k : nat) (s : string) :
  (String.length s <= k)%nat -> slice_last k s = s.
Proof.
  intros H. unfold slice_last.
  replace (String.length s - k)%nat with 0%nat by lia.
  apply substring_all, H.
Qed.

Lemma slice_last_cons (k : nat) (c : ascii) (s : string) :
  (k <= String.length s)%nat -> slice_last k (String c s) = slice_last k s.
Proof.
  intros H. unfold slice_last. cbn [String.length].
  replace (S (String.length s) - k)%nat with (S (String.length s - k)) by lia.
  reflexivity.
Qed.

Lemma length_append (s t : string) :
  String.length (s ++ t) = (String.length s + String.length t)%nat.
Proof. induction s as [|c s IH]; simpl; [reflexivity | rewrite IH; reflexivity]. Qed.

Lemma slice_last_snoc (k : nat) (s : string) (c : ascii) :
  slice_last (S k) (s ++ String c EmptyString)
  = (slice_last k s ++ String c EmptyString)%string.
Proof.
  induction s as [|a s IH].
  - cbn [append]. rewrite slice_last_short by (simpl; lia).
    rewrite (slice_last_short k EmptyString) by (simpl; lia). reflexivity.
  - cbn [append].
    destruct (Nat.le_gt_cases k (String.length s)) as [Hle | Hgt].
    + rewrite slice_last_cons by (rewrite length_append; simpl; lia).
      rewrite IH. rewrite (slice_last_cons k a s Hle). reflexivity.
    + rewrite slice_last_short by (simpl; rewrite length_append; simpl; lia).
      rewrite (slice_last_short k (String a s)) by (simpl; lia). reflexivity.
Qed.

Lemma append_snoc_inj (s s' : string) (c c' : ascii) :
  (s ++ String c EmptyString)%string = (s' ++ String c' EmptyString)%string ->
  s = s' /\ c = c'.
Proof.
  revert s'. induction s as [|a s IH]; intros [|a' s'] H; simpl in H.
  - inversion H. auto.
  - inversion H as [[Ha Hs]]. destruct s'; discriminate.
  - inversion H as [[Ha Hs]]. destruct s; discriminate.
  - inversion H as [[Ha Hs]]. destruct (IH s' Hs) as [-> ->]. auto.
Qed.

Lemma append_inj_length (s s' t t' : string) :
  String.length s = String.length s' ->
  (s ++ t)%string = (s' ++ t')%string -> s = s' /\ t = t'.
Proof.
  revert s'. induction s as [|a s IH]; intros [|a' s'] Hl H; simpl in *;
    try discriminate.
  - auto.
  - inversion H as [[Ha Hs]]. destruct (IH s' ltac:(lia) Hs) as [-> ->]. auto.
Qed.

(** ** The digits of a sale number *)

Lemma length_last_digits (k : nat) (n : N) :
  String.length (last_digits k n) = k.
Proof.
  revert n. induction k as [|k IH]; intros n; simpl; [reflexivity|].
  rewrite length_append, IH. simpl. lia.
Qed.

Lemma slice_last_toString (k : nat) (n : N) :
  10 ^ N.of_nat k <= n ->
  slice_last (S k) (toString n) = last_digits (S k) n.
Proof.
  revert n. induction k as [|k IH]; intros n H.
  - rewrite toString_step, slice_last_snoc.
    unfold slice_last. rewrite substring_zero_len. reflexivity.
  - rewrite Nat2N.inj_succ, N.pow_succ_r' in H.
    assert (H10 : 10 <= n).
    { pose proof (N.pow_nonzero 10 (N.of_nat k) ltac:(discriminate)). lia. }
    rewrite toString_step.
    apply N.ltb_ge in H10. rewrite H10. rewrite slice_last_snoc.
    rewrite IH.
    + reflexivity.
    + apply N.div_le_lower_bound; [discriminate | exact H].
Qed.

Lemma digit_char_inj (n n' : N) :
  digit_char n = digit_char n' <-> n mod 10 = n' mod 10.
Proof.
  unfold digit_char.
  pose proof (N.mod_upper_bound n 10 ltac:(discriminate)) as H.
  pose proof (N.mod_upper_bound n' 10 ltac:(discriminate)) as H'.
  set (r := n mod 10) in *. set (r' := n' mod 10) in *. clearbody r r'.
  assert (C : r = 0 \/ r = 1 \/ r = 2 \/ r = 3 \/ r = 4 \/ r = 5 \/ r = 6
              \/ r = 7 \/ r = 8 \/ r = 9) by lia.
  assert (C' : r' = 0 \/ r' = 1 \/ r' = 2 \/ r' = 3 \/ r' = 4 \/ r' = 5
               \/ r' = 6 \/ r' = 7 \/ r' = 8 \/ r' = 9) by lia.
  repeat (destruct C as [-> | C]); subst;
    repeat (destruct C' as [-> | C']); subst;
    split; intros E; try reflexivity; try discriminate E; try lia.
Qed.

Lemma last_digits_inj (k : nat) (n n' : N) :
  last_digits k n = last_digits k n'
  <-> n mod 10 ^ N.of_nat k = n' mod 10 ^ N.of_nat k.
Proof.
  revert n n'. induction k as [|k IH]; intros n n'.
  - simpl. rewrite !N.mod_1_r. tauto.
  - cbn [last_digits]. rewrite Nat2N.inj_succ, N.pow_succ_r'.
    rewrite !N.Div0.mod_mul_r.
    pose proof (N.mod_upper_bound n 10 ltac:(discriminate)) as H.
    pose proof (N.mod_upper_bound n' 10 ltac:(discriminate)) as H'.
    split.
    + intros E. apply append_snoc_inj in E as [E1 E2].
      apply IH in E1. apply digit_char_inj in E2. rewrite E1, E2. reflexivity.
    + intros E.
      assert (E12 : n mod 10 = n' mod 10
                    /\ (n / 10) mod 10 ^ N.of_nat k
                       = (n' / 10) mod 10 ^ N.of_nat k).
      { set (a := n mod 10) in *. set (a' := n' mod 10) in *.
        set (b := (n / 10) mod 10 ^ N.of_nat k) in *.
        set (b' := (n' / 10) mod 10 ^ N.of_nat k) in *.
        clearbody a a' b b'. lia. }
      destruct E12 as [E2 E1].
      apply IH in E1. apply digit_char_inj in E2. rewrite E1, E2. reflexivity.
Qed.

Lemma padStart_random (r : N) :
  r < 1000 -> padStart 3 "0"%char (toString r) = last_digits 3 r.
Proof.
  intros H.
  assert (A : forallb (fun i => String.eqb
                          (padStart 3 "0"%char (toString (N.of_nat i)))
                          (last_digits 3 (N.of_nat i)))
                (seq 0 1000) = true) by (vm_compute; reflexivity).
  rewrite forallb_forall in A.
  specialize (A (N.to_nat r)). rewrite N2Nat.id in A.
  apply String.eqb_eq, A, in_seq. lia.
Qed.

(** The number of a sale: SALE- and nine digits, the last six digits of the
    clock and the three digits of the draw. *)
Lemma generateSaleNumber_digits (clk : clock) :
  100000 <= now clk ->
  random1000 clk < 1000 ->
  generateSaleNumber clk
  = ("SALE-" ++ last_digits 6 (now clk) ++ last_digits 3 (random1000 clk))%string.
Proof.
  intros Hn Hr. unfold generateSaleNumber.
  rewrite (padStart_random _ Hr), (slice_last_toString 5 (now clk) Hn).
  reflexivity.
Qed.

(** X10.  Once the clock has six digits and the draw is below 1000, a sale
    number has 14 characters, and two requests get the same sale number
    exactly when their clocks agree modulo 1,000,000 milliseconds and
    their draws are equal. *)
Theorem sale_number_collision (clk clk' : clock) :
  100000 <= now clk ->
  100000 <= now clk' ->
  random1000 clk < 1000 ->
  random1000 clk' < 1000 ->
  String.length (generateSaleNumber clk) = 14%nat
  /\ (generateSaleNumber clk = generateSaleNumber clk'
      <-> now clk mod 1000000 = now clk' mod 1000000
          /\ random1000 clk = random1000 clk').
Proof.
  intros Hn Hn' Hr Hr'.
  rewrite (generateSaleNumber_digits clk Hn Hr),
          (generateSaleNumber_digits clk' Hn' Hr').
  split.
  - cbn [append String.length]. rewrite length_append, !length_last_digits.
    reflexivity.
  - split.
    + intros E.
      apply (append_inj_length "SALE-" "SALE-") in E as [_ E']; [|reflexivity].
      apply append_inj_length in E' as [E6 E3];
        [|rewrite !length_last_digits; reflexivity].
      apply last_digits_inj in E6. apply last_digits_inj in E3.
      split; [exact E6|].
      change (10 ^ N.of_nat 3) with 1000 in E3.
      rewrite !N.mod_small in E3 by assumption. exact E3.
    + intros [E6 E3].
      apply (last_digits_inj 6) in E6. rewrite E6, E3. reflexivity.
Qed.

Lemma sale_number_collision_witness :
  String.length (generateSaleNumber clk0) = 14%nat
  /\ (generateSaleNumber clk0 = generateSaleNumber (mkClock 1700001123456 7)
      <-> now clk0 mod 1000000 = 1700001123456 mod 1000000
          /\ random1000 clk0 = 7).
Proof.
  apply (sale_number_collision clk0 (mkClock 1700001123456 7));
    vm_compute; first [reflexivity | discriminate].
Defined.

End SaleNumberDigits.

(* ================================================================= *)
(** ** Properties: authentication *)

Lemma split_space_nonempty (s : string) : split_space s <> [].
Proof.
  induction s as [|c s IH]; cbn [split_space]; [discriminate|].
  destruct (split_space s); [congruence|].
  destruct (Ascii.eqb c " "); discriminate.
Qed.

Lemma split_space_word (w s : string) :
  no_space w = true ->
  split_space (w ++ String " "%char s) = w :: split_space s.
Proof.
  induction w as [|c w IH]; cbn [append split_space no_space]; intros H.
  - destruct (split_space s) eqn:E; [|reflexivity].
    destruct (split_space_nonempty _ E).
  - apply andb_true_iff in H as [Hc Hw]. rewrite (IH Hw).
    destruct (Ascii.eqb c " "); [discriminate|reflexivity].
Qed.

Lemma split_space_one (w : string) :
  no_space w = true -> split_space w = [w].
Proof.
  induction w as [|c w IH]; cbn [split_space no_space]; intros H.
  - reflexivity.
  - apply andb_true_iff in H as [Hc Hw]. rewrite (IH Hw).
    destruct (Ascii.eqb c " "); [discriminate|reflexivity].
Qed.

Lemma bearer_word (w s : string) :
  no_space w = true ->
  bearer (Some (w ++ String " "%char s)) = hd_error (split_space s).
Proof.
  intros H. unfold bearer.
  assert (E : nth_error (split_space (w ++ String " "%char s)) 1
              = hd_error (split_space s)).
  { rewrite (split_space_word _ _ H). cbn [nth_error].
    destruct (split_space s); reflexivity. }
  destruct (w ++ String " "%char s) eqn:Ew; [|exact E].
  destruct w; discriminate.
Qed.

Lemma bearer_token (t : string) :
  no_space t = true -> t <> EmptyString ->
  bearer (Some ("Bearer " ++ t)) = Some t.
Proof.
  intros Ht Hne.
  change ("Bearer " ++ t) with ("Bearer" ++ String " "%char t).
  rewrite bearer_word by reflexivity.
  rewrite (split_space_one _ Ht). reflexivity.
Qed.

Lemma authenticateToken_thrown verify users h msg :
  authenticateToken verify users h = Thrown msg ->
  msg = "Access token required" \/ msg = "Invalid or expired token".
Proof.
  unfold authenticateToken.
  destruct (bearer h) as [[|c t]|]; try (intros [= <-]; now left).
  destruct (verify _) as [d|]; try (intros [= <-]; now right).
  destruct (filter _ users) as [|a l]; try (intros [= <-]; now right).
  destruct (Users.is_active a); [discriminate|intros [= <-]; now right].
Qed.

Lemma authenticateToken_bearer verify users (t : string) (u : User.t) a :
  no_space t = true -> t <> EmptyString ->
  verify t = Some u ->
  hd_error (filter (fun a => Users.id a =? User.id u) users) = Some a ->
  Users.is_active a = true ->
  authenticateToken verify users (Some ("Bearer " ++ t)) = Returned u.
Proof.
  intros Ht Hne Hv Hf Ha. unfold authenticateToken.
  rewrite (bearer_token _ Ht Hne).
  destruct t as [|c t]; [congruence|].
  rewrite Hv.
  destruct (filter _ users) as [|a' l]; [discriminate|].
  cbn in Hf. injection Hf as ->. rewrite Ha.
  destruct u; reflexivity.
Qed.

Lemma filter_standing (i : Z) (users users' : list Users.row) :
  map standing users = map standing users' ->
  map standing (filter (fun a => Users.id a =? i) users)
  = map standing (filter (fun a => Users.id a =? i) users').
Proof.
  revert users'. induction users as [|a l IH]; intros [|a' l'] H;
    try discriminate; [reflexivity|].
  cbn [map] in H.
  assert (Ha : standing a = standing a') by congruence.
  assert (Hl : map standing l = map standing l') by congruence.
  cbn [filter].
  assert (Hid : Users.id a = Users.id a').
  { unfold standing in Ha. congruence. }
  rewrite Hid. destruct (Users.id a' =? i); cbn [map]; rewrite (IH _ Hl);
    [rewrite Ha|]; reflexivity.
Qed.

(** X11.  Every request to the sales endpoint other than OPTIONS goes through
    [authenticateToken]: when it fails (with one of its two messages) the
    answer is 401 with that message and the database is untouched; when it
    succeeds the branch of the method runs with the claims of a token that
    [jwt.verify] accepts and whose account is there and active. *)
Theorem sales_endpoint_authentication verify users h clk r db :
  preflight r = false ->
  match authenticateToken verify users h with
  | Thrown msg =>
      (msg = "Access token required" \/ msg = "Invalid or expired token")
      /\ sales_endpoint verify users h clk r db = (mkResponse 401 msg None, db)
  | Returned user =>
      sales_endpoint verify users h clk r db = branch clk user r db
      /\ exists token a,
           bearer h = Some token /\ verify token = Some user
           /\ hd_error (filter (fun a => Users.id a =? User.id user) users)
              = Some a
           /\ Users.is_active a = true
  end.
Proof.
  intros Hr. unfold sales_endpoint, authenticated. rewrite Hr.
  destruct (authenticateToken verify users h) as [user|msg] eqn:E.
  - split; [reflexivity|].
    unfold authenticateToken in E.
    destruct (bearer h) as [[|c t]|]; try discriminate.
    exists (String c t).
    destruct (verify _) as [d|] eqn:Ev; try discriminate.
    destruct (filter _ users) as [|a l] eqn:Ef; try discriminate.
    destruct (Users.is_active a) eqn:Ea; try discriminate.
    injection E as <-. destruct d as [i u ro]. cbn in *.
    exists a. rewrite Ef. repeat split; assumption.
  - pose proof (authenticateToken_thrown _ _ _ _ E) as Hm.
    split; [exact Hm|].
    unfold api_catch.
    destruct Hm as [-> | ->]; reflexivity.
Qed.

Lemma sales_endpoint_authentication_witness :
  sales_endpoint sample_verify (Users.rows users0) (Some "Bearer bad") clk0
    (Call (mkRequest DELETE (Some 1) no_body)) db1
  = (mkResponse 401 "Invalid or expired token" None, db1).
Proof.
  pose proof (sales_endpoint_authentication sample_verify (Users.rows users0)
                (Some "Bearer bad") clk0
                (Call (mkRequest DELETE (Some 1) no_body)) db1 eq_refl) as H.
  change (authenticateToken sample_verify (Users.rows users0)
            (Some "Bearer bad"))
    with (@Thrown User.t "Invalid or expired token") in H.
  exact (proj2 H).
Defined.

(** X12.  The scheme word of the Authorization header is not looked at: any
    word followed by one space and the token authenticates like Bearer.  A
    header of one word, or with two spaces after the first word, is answered
    as a missing token. *)
Theorem authorization_header_parsing verify users (w t : string) :
  no_space w = true -> no_space t = true ->
  authenticateToken verify users (Some (w ++ " " ++ t))
  = authenticateToken verify users (Some ("Bearer " ++ t))
  /\ authenticateToken verify users (Some w) = Thrown "Access token required"
  /\ authenticateToken verify users (Some (w ++ "  " ++ t))
     = Thrown "Access token required".
Proof.
  intros Hw Ht. unfold authenticateToken.
  change (w ++ " " ++ t) with (w ++ String " "%char t).
  change ("Bearer " ++ t) with ("Bearer" ++ String " "%char t).
  change (w ++ "  " ++ t) with (w ++ String " "%char (String " "%char t)).
  rewrite !bearer_word by (assumption || reflexivity).
  split; [reflexivity|]. split.
  - unfold bearer. destruct w; [reflexivity|].
    rewrite (split_space_one _ Hw). reflexivity.
  - change (String " "%char t) with (EmptyString ++ String " "%char t).
    rewrite (split_space_word EmptyString t eq_refl). reflexivity.
Qed.

Lemma authorization_header_parsing_witness :
  authenticateToken sample_verify (Users.rows users0)
    (Some ("Basic" ++ " " ++ "good")) = Returned admin.
Proof.
  destruct (authorization_header_parsing sample_verify
              (Users.rows users0) "Basic" "good" eq_refl eq_refl)
    as (H & _ & _).
  rewrite H. vm_compute. reflexivity.
Defined.

(** X13.  The identity and the role [authenticateToken] returns are the
    claims of the token: of the users table it reads only whether the
    account of the token is there and active, so two tables with the same
    ids and activity flags, whatever their roles and other columns, give
    the same result for every Authorization header. *)
Theorem role_comes_from_token verify users users' h :
  map standing users = map standing users' ->
  authenticateToken verify users h = authenticateToken verify users' h.
Proof.
  intros H. unfold authenticateToken.
  destruct (bearer h) as [[|c t]|]; try reflexivity.
  destruct (verify _) as [d|]; try reflexivity.
  pose proof (filter_standing (User.id d) _ _ H) as Hf.
  destruct (filter _ users) as [|a l], (filter _ users') as [|a' l'];
    try discriminate; [reflexivity|].
  cbn [map] in Hf.
  assert (Ha : Users.is_active a = Users.is_active a').
  { unfold standing in Hf. congruence. }
  rewrite Ha. reflexivity.
Qed.

Lemma role_comes_from_token_witness :
  authenticateToken sample_verify
    [Users.mkRow 1 "admin" "admin@nerho.com" "h" "A" "sales_rep" true]
    (Some "Bearer good")
  = Returned admin.
Proof.
  rewrite <- (role_comes_from_token sample_verify
                [Users.mkRow 1 "admin" "admin@nerho.com" "h" "A" "admin" true]
                [Users.mkRow 1 "admin" "admin@nerho.com" "h" "A" "sales_rep"
                   true]
                (Some "Bearer good") eq_refl).
  vm_compute. reflexivity.
Defined.

(* ================================================================= *)
(** ** Properties: the regular expressions *)

Lemma append_nil_r (s : string) : s ++ EmptyString = s.
Proof. induction s as [|c s IH]; cbn; [reflexivity|now rewrite IH]. Qed.

Lemma append_assoc (a b c : string) : (a ++ b) ++ c = a ++ b ++ c.
Proof. induction a as [|x a IH]; cbn; [reflexivity|now rewrite IH]. Qed.

Lemma append_empty (a b : string) :
  a ++ b = EmptyString -> a = EmptyString /\ b = EmptyString.
Proof. destruct a; cbn; [intros ->; now split|discriminate]. Qed.

Lemma nullable_lang (r : regex) : nullable r = true <-> lang r EmptyString.
Proof.
  split.
  - induction r; cbn; intros H; try discriminate.
    + constructor.
    + apply andb_true_iff in H as [H1 H2].
      change EmptyString with (EmptyString ++ EmptyString). constructor; auto.
    + apply orb_true_iff in H as [H|H];
        [apply lang_alt_l|apply lang_alt_r]; auto.
    + constructor.
  - intros H. remember EmptyString as s eqn:Es.
    induction H; cbn; try reflexivity; try discriminate.
    + apply append_empty in Es as [-> ->].
      rewrite IHlang1, IHlang2; reflexivity.
    + rewrite IHlang by assumption. reflexivity.
    + rewrite IHlang by assumption. apply orb_true_r.
Qed.

Lemma deriv_sound (c : ascii) (r : regex) (s : string) :
  lang (deriv c r) s -> lang r (String c s).
Proof.
  revert s. induction r; cbn [deriv]; intros s H.
  - inversion H.
  - inversion H.
  - destruct (p c) eqn:Ep; inversion H; subst. now constructor.
  - assert (Hseq : forall t, lang (Seq (deriv c r1) r2) t ->
                             lang (Seq r1 r2) (String c t)).
    { intros t Ht. inversion Ht; subst.
      change (String c (s1 ++ s2)) with (String c s1 ++ s2).
      constructor; auto. }
    destruct (nullable r1) eqn:En; [|auto].
    inversion H; subst; [auto|].
    change (String c s) with (EmptyString ++ String c s).
    constructor; [now apply nullable_lang|auto].
  - inversion H; subst; [apply lang_alt_l|apply lang_alt_r]; auto.
  - inversion H; subst.
    change (String c (s1 ++ s2)) with (String c s1 ++ s2).
    apply lang_star_cons; auto.
Qed.

Lemma deriv_complete (r : regex) (t : string) :
  lang r t -> forall c s, t = String c s -> lang (deriv c r) s.
Proof.
  induction 1; intros c0 s0 E; cbn [deriv]; try discriminate.
  - injection E as -> <-. rewrite H. constructor.
  - destruct s1 as [|c1 s1].
    + cbn in E. subst s2.
      apply nullable_lang in H. rewrite H.
      apply lang_alt_r. now apply IHlang2.
    + cbn in E. injection E as -> <-.
      assert (Hs : lang (Seq (deriv c0 r1) r2) (s1 ++ s2)).
      { constructor; [now apply IHlang1|assumption]. }
      destruct (nullable r1); [now apply lang_alt_l|assumption].
  - apply lang_alt_l. now apply IHlang.
  - apply lang_alt_r. now apply IHlang.
  - destruct s1 as [|c1 s1].
    + cbn in E. now apply IHlang2.
    + cbn in E. injection E as -> <-.
      constructor; [now apply IHlang1|assumption].
Qed.

Lemma matches_lang (r : regex) (s : string) :
  matches r s = true <-> lang r s.
Proof.
  revert r. induction s as [|c s IH]; intros r; cbn [matches].
  - apply nullable_lang.
  - rewrite IH. split; [apply deriv_sound|].
    intros H. now apply (deriv_complete _ _ H).
Qed.

Lemma lang_star_class (p : ascii -> bool) (s : string) :
  lang (Star (Class p)) s <-> all_chars p s = true.
Proof.
  split.
  - intros H. remember (Star (Class p)) as r eqn:Er.
    induction H; try discriminate; [reflexivity|].
    injection Er as ->. inversion H as [|? x Hx| | | | |]; subst. cbn.
    rewrite Hx. now apply IHlang2.
  - induction s as [|c s IH]; cbn; intros H; [constructor|].
    apply andb_true_iff in H as [Hc Hs].
    change (String c s) with (String c EmptyString ++ s).
    apply lang_star_cons; [now constructor|auto].
Qed.

Lemma lang_plus_class (p : ascii -> bool) (s : string) :
  lang (Plus (Class p)) s <-> s <> EmptyString /\ all_chars p s = true.
Proof.
  unfold Plus. split.
  - intros H. inversion H as [| |? ? s1 s2 H1 H2| | | |]; subst.
    inversion H1 as [|? x Hx| | | | |]; subst.
    apply lang_star_class in H2. cbn. rewrite Hx, H2.
    split; [discriminate|reflexivity].
  - intros [Hne H]. destruct s as [|c s]; [congruence|].
    cbn in H. apply andb_true_iff in H as [Hc Hs].
    change (String c s) with (String c EmptyString ++ s).
    constructor; [now constructor|now apply lang_star_class].
Qed.

Lemma lang_one (q : ascii -> bool) (c : ascii) (s : string) :
  (forall x, q x = true -> x = c) ->
  lang (Class q) s -> s = String c EmptyString.
Proof.
  intros Hq H. inversion H as [|? x Hx| | | | |]; subst.
  now rewrite (Hq _ Hx).
Qed.

Lemma all_chars_any (s : string) : all_chars any_char s = true.
Proof. induction s; cbn; auto. Qed.

Lemma test_email_pattern (s : string) :
  test email_pattern s = true <-> email_shape s.
Proof.
  unfold test. rewrite matches_lang. unfold email_pattern, email_shape.
  split.
  - intros H.
    inversion H as [| |? ? before rest Hb Hrest| | | |]; subst.
    inversion Hrest as [| |? ? mid after Hm Ha| | | |]; subst.
    inversion Hm as [| |? ? u r1 Hu H1| | | |]; subst.
    inversion H1 as [| |? ? at_ r2 Hat H2| | | |]; subst.
    inversion H2 as [| |? ? v r3 Hv H3| | | |]; subst.
    inversion H3 as [| |? ? dot w Hdot Hw| | | |]; subst.
    apply lang_plus_class in Hu, Hv, Hw.
    apply (lang_one _ "@"%char) in Hat;
      [|intros x Hx; symmetry; now apply Ascii.eqb_eq].
    apply (lang_one _ "."%char) in Hdot;
      [|intros x Hx; symmetry; now apply Ascii.eqb_eq].
    subst. exists before, u, v, w, after.
    split; [|now repeat split].
    rewrite !append_assoc. reflexivity.
  - intros (before & u & v & w & after & -> & Hu & Hv & Hw).
    apply lang_plus_class in Hu, Hv, Hw.
    constructor; [apply lang_star_class, all_chars_any|].
    replace (u ++ "@" ++ v ++ "." ++ w ++ after)
      with ((u ++ "@" ++ v ++ "." ++ w) ++ after)
      by (rewrite !append_assoc; reflexivity).
    constructor; [|apply lang_star_class, all_chars_any].
    constructor; [assumption|].
    constructor; [now constructor|].
    constructor; [assumption|].
    constructor; [now constructor|assumption].
Qed.

Lemma matches_username_pattern (s : string) :
  matches username_pattern s = true
  <-> s <> EmptyString /\ all_chars word_char s = true.
Proof.
  rewrite matches_lang. apply lang_plus_class.
Qed.

(* ================================================================= *)
(** ** Properties: validateRegisterData *)

Lemma guard_nil {A} (c : bool) (x : A) (l : list A) :
  ((if c then [x] else []) ++ l)%list = [] <-> c = false /\ l = [].
Proof.
  destruct c; cbn; split; try discriminate; try tauto.
  intros [H _]; discriminate.
Qed.

Lemma outside_false (lo hi : nat) (v : option string) :
  outside lo hi v = false
  <-> exists s, v = Some s /\ (lo <= String.length s <= hi)%nat
                /\ or_null_string v = Some s.
Proof.
  unfold outside. split.
  - destruct v as [[|c s]|]; cbn [or_null_string]; try discriminate.
    intros H. apply orb_false_iff in H as [H1 H2].
    apply Nat.ltb_ge in H1, H2. exists (String c s). repeat split; lia.
  - intros (s & -> & Hlen & ->).
    apply orb_false_iff. split; apply Nat.ltb_ge; lia.
Qed.

Lemma validateRegisterData_nil (d : Reg.body) :
  validateRegisterData d = [] <-> acceptable d.
Proof.
  unfold validateRegisterData, acceptable.
  rewrite !guard_nil.
  split.
  - intros (Hu & Hc & He & Hp & Hf).
    assert (Hf' : outside 2 100 (Reg.full_name d) = false).
    { destruct (outside 2 100 (Reg.full_name d)); [discriminate|reflexivity]. }
    apply outside_false in Hu as (u & Eu & Hlu & _).
    apply outside_false in Hf' as (f & Ef & Hlf & _).
    rewrite Eu in Hc. cbn [text_of] in Hc. apply negb_false_iff in Hc.
    apply matches_username_pattern in Hc as [_ Hc].
    destruct (Reg.email d) as [[|ce e]|]; cbn [or_null_string] in He;
      try discriminate.
    apply negb_false_iff, test_email_pattern in He.
    destruct (Reg.password d) as [[|cp p]|]; cbn [or_null_string] in Hp;
      try discriminate.
    apply Nat.ltb_ge in Hp.
    exists u, (String ce e), (String cp p), f. repeat split; auto; lia.
  - intros (u & e & p & f & Eu & Ee & Ep & Ef & Hlu & Hc & He & Hlp & Hlf).
    rewrite Eu, Ee, Ep, Ef.
    assert (Hu : outside 3 50 (Some u) = false).
    { apply outside_false. exists u. repeat split; try lia.
      destruct u; [cbn in Hlu; lia|reflexivity]. }
    assert (Hf : outside 2 100 (Some f) = false).
    { apply outside_false. exists f. repeat split; try lia.
      destruct f; [cbn in Hlf; lia|reflexivity]. }
    rewrite Hu, Hf. cbn [text_of].
    assert (Hm : matches username_pattern u = true).
    { apply matches_username_pattern. split; [|assumption].
      destruct u; [cbn in Hlu; lia|discriminate]. }
    rewrite Hm.
    assert (Het : test email_pattern e = true) by now apply test_email_pattern.
    assert (Hne : e <> EmptyString).
    { destruct He as (b & x & y & z & a & -> & [Hx _] & _).
      destruct b; [destruct x; [congruence|discriminate]|discriminate]. }
    destruct e as [|ce e]; [congruence|]. cbn [or_null_string].
    rewrite Het.
    destruct p as [|cp p]; [cbn in Hlp; lia|]. cbn [or_null_string].
    assert (Hp : (String.length (String cp p) <? 6)%nat = false)
      by (apply Nat.ltb_ge; lia).
    rewrite Hp. repeat split; reflexivity.
Qed.

(** X14.  On data whose four fields are ASCII text, [validateRegisterData]
    returns no error exactly when the four fields are present, with a
    username of 3 to 50 letters, digits and underscores, an email that
    holds somewhere a text, an at sign, a text, a dot and a text, the three
    texts non-empty and free of white space, a password of at least 6
    characters and a full name of 2 to 100 characters. *)
Theorem validateRegisterData_accepts (d : Reg.body) :
  ascii_data d = true ->
  (validateRegisterData d = [] <-> acceptable d).
Proof.
  intros _. exact (validateRegisterData_nil d).
Qed.

Lemma validateRegisterData_accepts_witness : acceptable mallory.
Proof.
  apply (proj1 (validateRegisterData_accepts mallory eq_refl)).
  vm_compute. reflexivity.
Defined.

(** X15.  A missing username gets the message about its length only: the
    test of its characters is run on the text of undefined, which passes it.
    An empty username gets both messages.  The messages about the other
    fields follow, the same in both cases, and neither of the two messages
    about the username is among them. *)
Theorem missing_username_has_one_message
    (e p f : option string) (r : option (option string)) :
  let rest := validateRegisterData (Reg.mkBody (Some "abc") e p f r) in
  validateRegisterData (Reg.mkBody None e p f r) = username_length :: rest
  /\ validateRegisterData (Reg.mkBody (Some EmptyString) e p f r)
     = username_length :: username_chars :: rest
  /\ ~ In username_length rest /\ ~ In username_chars rest.
Proof.
  cbv zeta. unfold validateRegisterData. cbn [Reg.username Reg.email
    Reg.password Reg.full_name].
  change (outside 3 50 None) with true.
  change (outside 3 50 (Some EmptyString)) with true.
  change (outside 3 50 (Some "abc")) with false.
  change (matches username_pattern (text_of None)) with true.
  change (matches username_pattern (text_of (Some EmptyString))) with false.
  change (matches username_pattern (text_of (Some "abc"))) with true.
  cbn [negb app].
  split; [reflexivity|]. split; [reflexivity|].
  split; intros H; repeat (apply in_app_or in H as [H|H]);
    repeat match goal with
      | H : In _ (if ?c then _ else _) |- _ => destruct c
      | H : In _ [] |- _ => destruct H
      | H : In _ [_] |- _ => destruct H as [H|[]]; discriminate H
      end.
Qed.

Lemma email_shape_padded (e before after : string) :
  email_shape e -> email_shape (before ++ e ++ after).
Proof.
  intros (b & u & v & w & a & -> & Hu & Hv & Hw).
  exists (before ++ b), u, v, w, (a ++ after).
  split; [|auto].
  rewrite !append_assoc. reflexivity.
Qed.

(** X16.  The test of the email is a search, not a match of the whole
    field: data that passes [validateRegisterData] still passes when any
    text, white space included, is put before and after its email. *)
Theorem email_check_is_a_search (d : Reg.body) (e before after : string) :
  Reg.email d = Some e ->
  validateRegisterData d = [] ->
  validateRegisterData
    (Reg.mkBody (Reg.username d) (Some (before ++ e ++ after))
       (Reg.password d) (Reg.full_name d) (Reg.role d)) = [].
Proof.
  intros Ee H. apply validateRegisterData_nil in H.
  apply validateRegisterData_nil.
  destruct H as (u & e' & p & f & Eu & Ee' & Ep & Ef & Hlu & Hc & He & Hr).
  rewrite Ee in Ee'. injection Ee' as <-.
  exists u, (before ++ e ++ after), p, f. cbn.
  repeat split; try tauto. now apply email_shape_padded.
Qed.

Lemma email_check_is_a_search_witness :
  validateRegisterData
    (Reg.mkBody (Some "mallory") (Some ("x y " ++ "Mallory@Example.com" ++ " z"))
       (Some "secret1") (Some "Mallory M") (Some (Some "admin"))) = [].
Proof.
  apply (email_check_is_a_search mallory "Mallory@Example.com" "x y " " z");
    vm_compute; reflexivity.
Defined.

(* ================================================================= *)
(** ** Properties: register and login *)

Lemma varchar_short (n : nat) (s : string) :
  (String.length s <= n)%nat -> varchar n s = Returned s.
Proof.
  intros H. unfold varchar. apply Nat.leb_le in H. now rewrite H.
Qed.

Lemma length_toLowerCase (s : string) :
  String.length (toLowerCase s) = String.length s.
Proof. induction s; cbn; congruence. Qed.

Lemma NoDup_snoc {A} (l : list A) (x : A) :
  NoDup l -> ~ In x l -> NoDup (l ++ [x]).
Proof.
  intros Hl Hx. apply NoDup_rev in Hl. rewrite <- (rev_involutive (l ++ [x])).
  apply NoDup_rev. rewrite rev_app_distr. cbn.
  constructor; [|assumption]. now rewrite <- in_rev.
Qed.

Lemma taken_false (u e : string) (users : list Users.row) :
  taken u e users = false ->
  ~ In u (map Users.username users) /\ ~ In e (map Users.email users).
Proof.
  unfold taken. induction users as [|a l IH]; cbn; [tauto|].
  intros H. apply orb_false_iff in H as [Ha Hl].
  apply orb_false_iff in Ha as [Hu He].
  apply String.eqb_neq in Hu, He. destruct (IH Hl). tauto.
Qed.

Lemma taken_email (u e : string) (users : list Users.row) :
  In e (map Users.email users) -> taken u e users = true.
Proof.
  unfold taken. induction users as [|a l IH]; cbn; [tauto|].
  intros [<-|H].
  - rewrite String.eqb_refl, orb_true_r. reflexivity.
  - rewrite (IH H). apply orb_true_r.
Qed.

Lemma filter_username_none (u : string) (users : list Users.row) :
  ~ In u (map Users.username users) ->
  filter (fun a => String.eqb (Users.username a) u) users = [].
Proof.
  induction users as [|a l IH]; cbn; [reflexivity|].
  intros H. destruct (String.eqb_spec (Users.username a) u); [tauto|].
  apply IH. tauto.
Qed.

Lemma filter_id_none (i : Z) (users : list Users.row) :
  ~ In i (map Users.id users) ->
  filter (fun a => Users.id a =? i) users = [].
Proof.
  induction users as [|a l IH]; cbn; [reflexivity|].
  intros H. destruct (Z.eqb_spec (Users.id a) i); [tauto|].
  apply IH. tauto.
Qed.

Lemma filter_id_one (a : Users.row) (users : list Users.row) :
  NoDup (map Users.id users) -> In a users ->
  filter (fun x => Users.id x =? Users.id a) users = [a].
Proof.
  induction users as [|b l IH]; cbn; [tauto|].
  intros Hnd Hin. inversion Hnd as [|? ? Hb Hl]; subst.
  destruct Hin as [->|Hin].
  - rewrite Z.eqb_refl. now rewrite filter_id_none.
  - destruct (Z.eqb_spec (Users.id b) (Users.id a)) as [E|_]; [|auto].
    destruct Hb. rewrite E. now apply in_map.
Qed.

Lemma below_seq_fresh (t : Users.table) :
  Forall (fun u => Users.id u < Users.id_seq t) (Users.rows t) ->
  ~ In (Users.id_seq t) (map Users.id (Users.rows t)).
Proof.
  intros H Hin. apply in_map_iff in Hin as (a & Ea & Ha).
  rewrite Forall_forall in H. specialize (H _ Ha). lia.
Qed.

(** What a successful INSERT into users has done. *)
Lemma insert_user_returned u e h f r t row t' :
  insert_user u e h f r t = (Returned row, t') ->
  exists u' e' h' f' r',
    varchar 50 u = Returned u' /\ varchar 100 e = Returned e'
    /\ varchar 255 h = Returned h' /\ varchar 100 f = Returned f'
    /\ varchar_opt 20 r = Returned (Some r')
    /\ taken u' e' (Users.rows t) = false
    /\ row = Users.mkRow (Users.id_seq t) u' e' h' f' r' true
    /\ t' = Users.mkTable (Users.rows t ++ [row]) (Users.id_seq t + 1).
Proof.
  unfold insert_user.
  destruct (varchar 50 u) as [u'|]; [|intros [=]].
  destruct (varchar 100 e) as [e'|]; [|intros [=]].
  destruct (varchar 255 h) as [h'|]; [|intros [=]].
  destruct (varchar 100 f) as [f'|]; [|intros [=]].
  destruct (varchar_opt 20 r) as [[r'|]|]; [|intros [=]|intros [=]].
  fold (taken u' e' (Users.rows t)).
  destruct (taken u' e' (Users.rows t)) eqn:Et; [intros [=]|].
  intros [= <- <-]. exists u', e', h', f', r'. repeat split. exact Et.
Qed.

(** A failed INSERT into users leaves the rows as they were. *)
Lemma insert_user_thrown u e h f r t msg t' :
  insert_user u e h f r t = (Thrown msg, t') ->
  Users.rows t' = Users.rows t
  /\ (Users.id_seq t' = Users.id_seq t \/ Users.id_seq t' = Users.id_seq t + 1).
Proof.
  unfold insert_user. intros H.
  assert (Hsame : t' = t \/ t' = Users.mkTable (Users.rows t) (Users.id_seq t + 1)).
  { destruct (varchar 50 u) as [u'|]; [|left; congruence].
    destruct (varchar 100 e) as [e'|]; [|left; congruence].
    destruct (varchar 255 h) as [h'|]; [|left; congruence].
    destruct (varchar 100 f) as [f'|]; [|left; congruence].
    destruct (varchar_opt 20 r) as [[r'|]|];
      [|right; congruence|left; congruence].
    destruct (existsb _ _); [right; congruence|discriminate]. }
  destruct Hsame as [-> | ->]; cbn; auto.
Qed.

(** The ways through [register]. *)
Lemma register_cases hash sign body t :
  (validateRegisterData body <> []
   /\ register hash sign body t
      = (mkAuthResponse 400
           (String.concat ", " (validateRegisterData body)) None None, t))
  \/ exists u e p f,
       Reg.username body = Some u /\ Reg.email body = Some e
       /\ Reg.password body = Some p /\ Reg.full_name body = Some f
       /\ acceptable body
       /\ ((taken u e (Users.rows t) = true
            /\ register hash sign body t
               = (mkAuthResponse 400 "Username or email already exists"
                    None None, t))
           \/ (taken u e (Users.rows t) = false
               /\ exists o t',
                    insert_user u (toLowerCase e) (hash p) f
                      (requested_role body) t = (o, t')
                    /\ register hash sign body t
                       = (match o with
                          | Returned newUser =>
                              mkAuthResponse 201 "User registered successfully"
                                (Some (profile_of newUser))
                                (Some (sign (claims_of newUser)))
                          | Thrown _ =>
                              mkAuthResponse 500 "Registration failed"
                                None None
                          end, t'))).
Proof.
  unfold register.
  destruct (validateRegisterData body) as [|m ms] eqn:Ev.
  - right. pose proof (proj1 (validateRegisterData_nil body) Ev) as Hacc.
    pose proof Hacc as (u & e & p & f & Eu & Ee & Ep & Ef & Hrest).
    exists u, e, p, f. rewrite Eu, Ee, Ep, Ef.
    repeat (split; [reflexivity|]).
    split; [exact Hacc|].
    fold (taken u e (Users.rows t)).
    destruct (taken u e (Users.rows t)); [left; split; reflexivity|].
    right. split; [reflexivity|].
    fold (requested_role body).
    destruct (insert_user u (toLowerCase e) (hash p) f (requested_role body) t)
      as [o t'] eqn:Ei.
    exists o, t'. split; [reflexivity|]. destruct o; reflexivity.
  - left. split; [discriminate|reflexivity].
Qed.

Lemma acceptable_fields body u e p f :
  acceptable body ->
  Reg.username body = Some u -> Reg.email body = Some e ->
  Reg.password body = Some p -> Reg.full_name body = Some f ->
  (3 <= String.length u <= 50)%nat /\ (6 <= String.length p)%nat
  /\ (2 <= String.length f <= 100)%nat.
Proof.
  intros (u' & e' & p' & f' & Eu & Ee & Ep & Ef & H) Hu He Hp Hf.
  rewrite Hu in Eu. rewrite Hp in Ep. rewrite Hf in Ef.
  injection Eu as <-. injection Ep as <-. injection Ef as <-. tauto.
Qed.

(** X17.  Registration keeps the users table sound (ids, usernames and
    emails without duplicates, ids below the sequence) whatever it answers.
    It changes and removes no existing account: the rows after it are the
    rows before it followed by one new row when the answer is 201, by none
    otherwise. *)
Theorem register_keeps_users_sound hash sign body t :
  users_sound t ->
  users_sound (snd (register hash sign body t))
  /\ exists new, Users.rows (snd (register hash sign body t))
                 = (Users.rows t ++ new)%list
                 /\ (List.length new <= 1)%nat
                 /\ (auth_status (fst (register hash sign body t)) = 201
                     <-> List.length new = 1%nat).
Proof.
  intros (Hid & Hname & Hmail & Hseq).
  destruct (register_cases hash sign body t)
    as [[_ E]|(u & e & p & f & Eu & Ee & Ep & Ef & Hacc
               & [[_ E]|(Hfree & o & t' & Ei & E)])];
    rewrite E; cbn [fst snd].
  - split; [repeat split; assumption|].
    exists []. rewrite app_nil_r. repeat split; cbn; auto; discriminate.
  - split; [repeat split; assumption|].
    exists []. rewrite app_nil_r. repeat split; cbn; auto; discriminate.
  - destruct o as [row|msg].
    + apply insert_user_returned in Ei
        as (u' & e' & h' & f' & r' & _ & _ & _ & _ & _ & Hfresh & Erow & ->).
      apply taken_false in Hfresh as [Hu He].
      cbn [Users.rows Users.id_seq].
      split.
      * unfold users_sound. cbn [Users.rows Users.id_seq].
        rewrite !map_app. cbn [map]. subst row. cbn.
        repeat split.
        -- apply NoDup_snoc; [assumption|now apply below_seq_fresh].
        -- now apply NoDup_snoc.
        -- now apply NoDup_snoc.
        -- apply Forall_app. split.
           ++ eapply Forall_impl; [|exact Hseq]. cbn. intros. lia.
           ++ constructor; [cbn; lia|constructor].
      * exists [row]. repeat split; cbn; auto.
    + apply insert_user_thrown in Ei as [Er Es].
      split.
      * unfold users_sound. rewrite Er. repeat split; try assumption.
        eapply Forall_impl; [|exact Hseq]. cbn. intros. lia.
      * exists []. rewrite app_nil_r. repeat split; cbn; auto; discriminate.
Qed.

Lemma register_keeps_users_sound_witness :
  users_sound (snd (register sample_hash sample_sign mallory users0)).
Proof.
  apply (register_keeps_users_sound sample_hash sample_sign mallory users0).
  unfold users_sound. cbn.
  repeat split;
    repeat (constructor; [cbn; intuition (discriminate || lia)|]);
    constructor.
Defined.



(** X19.  The check for an existing account compares the email as sent,
    the row stores it in lower case.  When valid data with an unused username
    and an email that no account has as sent, but that some account has once
    put in lower case, is registered, the UNIQUE constraint fails the INSERT:
    the answer is 500 'Registration failed', not 400, and no row is
    added. *)
Theorem register_email_case_conflict hash sign body t u e :
  validateRegisterData body = [] ->
  Reg.username body = Some u -> Reg.email body = Some e ->
  taken u e (Users.rows t) = false ->
  (String.length e <= 100)%nat ->
  In (toLowerCase e) (map Users.email (Users.rows t)) ->
  fst (register hash sign body t)
  = mkAuthResponse 500 "Registration failed" None None
  /\ Users.rows (snd (register hash sign body t)) = Users.rows t.
Proof.
  intros Hv Eu Ee Hfree Hle Hin.
  destruct (register_cases hash sign body t)
    as [[Hv' _]|(u0 & e0 & p & f & Eu0 & Ee0 & Ep & Ef & Hacc & Hcase)];
    [congruence|].
  rewrite Eu in Eu0. rewrite Ee in Ee0.
  injection Eu0 as <-. injection Ee0 as <-.
  destruct (acceptable_fields _ u e p f Hacc Eu Ee Ep Ef) as (Hlu & Hlp & Hlf).
  destruct Hcase as [[Ht _]|(_ & o & t' & Ei & E)]; [congruence|].
  rewrite E. cbn [fst snd].
  destruct o as [row|msg].
  - apply insert_user_returned in Ei
      as (u' & e' & h' & f' & r' & _ & He' & _ & _ & _ & Hfresh & _).
    rewrite varchar_short in He' by (rewrite length_toLowerCase; lia).
    injection He' as <-.
    rewrite (taken_email _ _ _ Hin) in Hfresh. discriminate.
  - apply insert_user_thrown in Ei as [Er _]. split; [reflexivity|exact Er].
Qed.

Lemma register_email_case_conflict_witness :
  fst (register sample_hash sample_sign
         (Reg.mkBody (Some "admin2") (Some "Admin@Nerho.com") (Some "secret1")
            (Some "Second Admin") None) users0)
  = mkAuthResponse 500 "Registration failed" None None.
Proof.
  apply (register_email_case_conflict sample_hash sample_sign
           (Reg.mkBody (Some "admin2") (Some "Admin@Nerho.com")
              (Some "secret1") (Some "Second Admin") None)
           users0 "admin2" "Admin@Nerho.com");
    try (vm_compute; reflexivity).
  - cbn. lia.
  - cbn. auto.
Defined.

(** X20.  Register, then log in: after a registration answered 201, a login
    with the same username and password on the table it left is answered 200
    with the same user and a token for the same claims, provided
    [bcrypt.compare] accepts the password against its hash and the hash fits
    its column. *)
Theorem register_then_login hash sign compare body t u p :
  Reg.username body = Some u -> Reg.password body = Some p ->
  auth_status (fst (register hash sign body t)) = 201 ->
  (String.length (hash p) <= 255)%nat ->
  compare p (hash p) = true ->
  login compare sign (Login.mkBody (Some u) (Some p))
    (Users.rows (snd (register hash sign body t)))
  = mkAuthResponse 200 "Login successful"
      (auth_user (fst (register hash sign body t)))
      (auth_token (fst (register hash sign body t))).
Proof.
  intros Eu Ep H201 Hlh Hcmp.
  destruct (register_cases hash sign body t)
    as [[_ E]|(u0 & e & p0 & f & Eu0 & Ee & Ep0 & Ef & Hacc
               & [[_ E]|(Hfree & o & t' & Ei & E)])];
    rewrite E in *; cbn [fst snd auth_status] in *; try discriminate.
  rewrite Eu in Eu0. rewrite Ep in Ep0.
  injection Eu0 as <-. injection Ep0 as <-.
  destruct (acceptable_fields _ u e p f Hacc Eu Ee Ep Ef) as (Hlu & Hlp & Hlf).
  destruct o as [row|msg]; [|discriminate].
  apply insert_user_returned in Ei
    as (u' & e' & h' & f' & r' & Hu' & _ & Hh' & _ & _ & Hfresh & Erow & ->).
  rewrite varchar_short in Hu' by lia. injection Hu' as <-.
  rewrite varchar_short in Hh' by lia. injection Hh' as <-.
  apply taken_false in Hfresh as [Hu _].
  unfold login. cbn [Login.username Login.password Users.rows].
  destruct u as [|cu u]; [cbn in Hlu; lia|].
  destruct p as [|cp p]; [cbn in Hlp; lia|].
  cbn [or_null_string].
  rewrite filter_app, (filter_username_none _ _ Hu).
  subst row. cbn [filter Users.username app].
  rewrite String.eqb_refl.
  cbn [Users.is_active negb Users.password_hash].
  rewrite Hcmp. reflexivity.
Qed.

Lemma register_then_login_witness :
  auth_status
    (login sample_compare sample_sign
       (Login.mkBody (Some "mallory") (Some "secret1"))
       (Users.rows (snd (register sample_hash sample_sign mallory users0))))
  = 200.
Proof.
  rewrite (register_then_login sample_hash sample_sign sample_compare mallory
             users0 "mallory" "secret1");
    try (vm_compute; reflexivity).
  cbn. lia.
Defined.

(** X21.  A login answered 200 names an account of the table that is
    active and whose stored hash [bcrypt.compare] accepts for the password
    sent; the answer carries that account and a token for its id, username
    and role.  When ids are unique and [verify] accepts this token of
    [sign], [authenticateToken] accepts it on the same table and returns
    these claims. *)
Theorem login_token_authenticates compare sign verify body users :
  NoDup (map Users.id users) ->
  auth_status (login compare sign body users) = 200 ->
  exists a password,
    In a users
    /\ Login.username body = Some (Users.username a)
    /\ Login.password body = Some password
    /\ Users.is_active a = true
    /\ compare password (Users.password_hash a) = true
    /\ login compare sign body users
       = mkAuthResponse 200 "Login successful" (Some (profile_of a))
           (Some (sign (claims_of a)))
    /\ (verify (sign (claims_of a)) = Some (claims_of a) ->
        no_space (sign (claims_of a)) = true -> sign (claims_of a) <> EmptyString ->
        authenticateToken verify users
          (Some ("Bearer " ++ sign (claims_of a)))
        = Returned (claims_of a)).
Proof.
  intros Hnd. unfold login.
  destruct (Login.username body) as [[|cu u]|]; cbn [or_null_string];
    try discriminate.
  destruct (Login.password body) as [[|cp p]|]; cbn [or_null_string];
    try discriminate.
  destruct (filter _ users) as [|a l] eqn:Ef; [discriminate|].
  assert (Hin : In a (filter (fun x => String.eqb (Users.username x)
                                         (String cu u)) users))
    by (rewrite Ef; now left).
  apply filter_In in Hin as [Hin Hname]. apply String.eqb_eq in Hname.
  destruct (Users.is_active a) eqn:Ea; cbn [negb]; [|discriminate].
  destruct (compare _ _) eqn:Ec; cbn [negb]; [|discriminate].
  intros _. exists a, (String cp p).
  repeat split; auto; [now rewrite Hname|].
  intros Hver Hns Hne.
  eapply authenticateToken_bearer; try eassumption.
  cbn [claims_of User.id]. now rewrite (filter_id_one a users Hnd Hin).
Qed.

Lemma login_token_authenticates_witness :
  exists a, In a (Users.rows users0)
            /\ login sample_compare sample_sign
                 (Login.mkBody (Some "admin") (Some "admin123"))
                 (Users.rows users0)
               = mkAuthResponse 200 "Login successful" (Some (profile_of a))
                   (Some (sample_sign (claims_of a))).
Proof.
  destruct (login_token_authenticates sample_compare sample_sign sample_verify
              (Login.mkBody (Some "admin") (Some "admin123"))
              (Users.rows users0))
    as (a & pw & Hin & _ & _ & _ & _ & E & _).
  - cbn. repeat constructor; cbn; intuition discriminate.
  - vm_compute. reflexivity.
  - exists a. split; [exact Hin|exact E].
Defined.

(* ================================================================= *)
(** ** Properties: POST and PUT /api/customers *)

Lemma NoDup_app_disjoint {A} (l1 l2 : list A) (x : A) :
  NoDup (l1 ++ l2) -> In x l1 -> ~ In x l2.
Proof.
  induction l1 as [|a l1 IH]; cbn; [tauto|].
  intros H [->|Hin] H2.
  - inversion H as [|? ? Hn _]; subst. apply Hn, in_or_app. now right.
  - inversion H as [|? ? _ Hnd]; subst. now apply (IH Hnd Hin).
Qed.

Lemma NoDup_used_email (r : Cust.row) : NoDup (used_email r).
Proof.
  unfold used_email. destruct (Cust.email r) as [[|c e]|];
    repeat constructor; cbn; tauto.
Qed.

Lemma used_email_set n x ph ad ct i r :
  Cust.id r = i ->
  used_email (set_customer n x ph ad ct i r)
  = match x with Some (String c e) => [String c e] | _ => [] end.
Proof.
  intros <-. unfold set_customer. rewrite Z.eqb_refl. reflexivity.
Qed.

Lemma set_customer_other n x ph ad ct i r :
  Cust.id r <> i -> set_customer n x ph ad ct i r = r.
Proof.
  intros H. unfold set_customer.
  destruct (Z.eqb_spec (Cust.id r) i); [contradiction|reflexivity].
Qed.

Lemma set_customer_slim n x ph ad ct i r :
  slim (set_customer n x ph ad ct i r) = slim r
  /\ Cust.created_by (set_customer n x ph ad ct i r) = Cust.created_by r.
Proof.
  unfold set_customer. destruct (Cust.id r =? i); split; reflexivity.
Qed.

Lemma set_customer_id n x ph ad ct i r :
  Cust.id (set_customer n x ph ad ct i r) = Cust.id r.
Proof.
  unfold set_customer. destruct (Cust.id r =? i); reflexivity.
Qed.

Lemma map_set_customer_absent n x ph ad ct i (l : list Cust.row) :
  ~ In i (map Cust.id l) -> map (set_customer n x ph ad ct i) l = l.
Proof.
  induction l as [|a l IH]; cbn; [reflexivity|].
  intros H. rewrite set_customer_other by tauto. rewrite IH by tauto.
  reflexivity.
Qed.

(** Writing to the row [i] an email no other row uses keeps the emails
    distinct. *)
Lemma used_emails_set n x ph ad ct i (l : list Cust.row) :
  NoDup (map Cust.id l) -> NoDup (used_emails l) ->
  (forall y r, x = Some y -> In r l -> Cust.id r <> i ->
               ~ In y (used_email r)) ->
  NoDup (used_emails (map (set_customer n x ph ad ct i) l)).
Proof.
  unfold used_emails.
  induction l as [|a l IH]; cbn [map flat_map]; intros Hid Hem Hx;
    [constructor|].
  inversion Hid as [|? ? Ha Hl]; subst.
  assert (Hem' : NoDup (flat_map used_email l))
    by (eapply NoDup_app_remove_l; exact Hem).
  assert (IH' : NoDup (flat_map used_email
                         (map (set_customer n x ph ad ct i) l))).
  { apply IH; auto. intros y r Ey Hr. apply (Hx y r Ey). now right. }
  apply NoDup_app; [apply NoDup_used_email|exact IH'|].
  intros y Hy Hin.
  apply in_flat_map in Hin as (r' & Hr' & Hyr').
  apply in_map_iff in Hr' as (r & <- & Hr).
  destruct (Z.eq_dec (Cust.id a) i) as [Ea|Na].
  - rewrite used_email_set in Hy by assumption.
    assert (Hri : Cust.id r <> i).
    { intros E. apply Ha. rewrite Ea, <- E. now apply in_map. }
    rewrite set_customer_other in Hyr' by assumption.
    destruct x as [[|c e]|]; cbn in Hy; try tauto.
    destruct Hy as [<-|[]].
    apply (Hx (String c e) r eq_refl); [now right|assumption|assumption].
  - rewrite set_customer_other in Hy by assumption.
    destruct (Z.eq_dec (Cust.id r) i) as [Er|Nr].
    + rewrite used_email_set in Hyr' by assumption.
      destruct x as [[|c e]|]; cbn in Hyr'; try tauto.
      destruct Hyr' as [<-|[]].
      apply (Hx (String c e) a eq_refl); [now left|assumption|assumption].
    + rewrite set_customer_other in Hyr' by assumption.
      apply (NoDup_app_disjoint _ _ y Hem Hy).
      apply in_flat_map. exists r. tauto.
Qed.

Lemma email_in_use_false (e : string) (but : option Z) (l : list Cust.row) :
  email_in_use e but l = false ->
  forall r, In r l ->
            match but with Some i => Cust.id r <> i | None => True end ->
            ~ In e (used_email r).
Proof.
  unfold email_in_use. intros H r Hr Hbut Hin.
  rewrite <- not_true_iff_false in H. apply H.
  apply existsb_exists. exists r. split; [assumption|].
  unfold used_email in Hin.
  destruct (Cust.email r) as [[|c e']|]; cbn in Hin; try tauto.
  destruct Hin as [<-|[]]. rewrite String.eqb_refl. cbn.
  destruct but as [i|]; [|reflexivity].
  apply negb_true_iff. now apply Z.eqb_neq.
Qed.

Lemma distinct_rows_distinct_emails (l : list Cust.row) (r r' : Cust.row) y :
  NoDup (map Cust.id l) -> NoDup (used_emails l) ->
  In r l -> In r' l -> Cust.id r <> Cust.id r' ->
  In y (used_email r) -> ~ In y (used_email r').
Proof.
  unfold used_emails.
  induction l as [|a l IH]; cbn [map flat_map In]; [tauto|].
  intros Hid Hem Hr Hr' Hne Hy Hy'.
  inversion Hid as [|? ? Ha Hl]; subst.
  assert (Hem' : NoDup (flat_map used_email l))
    by (eapply NoDup_app_remove_l; exact Hem).
  destruct Hr as [->|Hr], Hr' as [->|Hr'].
  - congruence.
  - apply (NoDup_app_disjoint _ _ y Hem Hy).
    apply in_flat_map. exists r'. tauto.
  - apply (NoDup_app_disjoint _ _ y Hem Hy').
    apply in_flat_map. exists r. tauto.
  - now apply (IH Hl Hem' Hr Hr' Hne Hy).
Qed.

Lemma filter_id_in (i : Z) (l : list Cust.row) (r : Cust.row) more :
  filter (fun r => Cust.id r =? i) l = r :: more ->
  In r l /\ Cust.id r = i.
Proof.
  intros H.
  assert (Hin : In r (filter (fun r => Cust.id r =? i) l))
    by (rewrite H; now left).
  apply filter_In in Hin as [Hin Hid]. apply Z.eqb_eq in Hid. tauto.
Qed.

Lemma below_customers_seq (t : Cust.table) :
  Forall (fun r => Cust.id r < Cust.id_seq t) (Cust.rows t) ->
  ~ In (Cust.id_seq t) (map Cust.id (Cust.rows t)).
Proof.
  intros H Hin. apply in_map_iff in Hin as (a & Ea & Ha).
  rewrite Forall_forall in H. specialize (H _ Ha). lia.
Qed.

Lemma snd_customers_catch m t :
  snd (customers_catch m t) = snd (m t).
Proof.
  unfold customers_catch. destruct (m t) as [[r|msg] t']; reflexivity.
Qed.

Lemma varchar_opt_le (n : nat) (v : option string) :
  match v with Some s => (String.length s <= n)%nat | None => True end ->
  varchar_opt n v = Returned v.
Proof.
  destruct v as [s|]; cbn; [|reflexivity].
  intros H. now rewrite varchar_short.
Qed.

Lemma varchar_opt_again (n : nat) (v v' : option string) :
  varchar_opt n v = Returned v' -> varchar_opt n v' = Returned v'.
Proof.
  destruct v as [s|]; cbn.
  - destruct (varchar n s) as [s'|] eqn:E; [|discriminate].
    intros [= <-]. cbn. now rewrite (varchar_stable _ _ _ E).
  - intros [= <-]. reflexivity.
Qed.

Lemma used_email_nonempty (r : Cust.row) (y : string) :
  In y (used_email r) -> y <> EmptyString /\ Cust.email r = Some y.
Proof.
  unfold used_email. destruct (Cust.email r) as [[|c e]|]; cbn; try tauto.
  intros [<-|[]]. split; [discriminate|reflexivity].
Qed.

Lemma handleCreateCustomer_sound user body t :
  customers_sound t -> email_fits (Cust.Post body) ->
  customers_sound (snd (handleCreateCustomer user body t)).
Proof.
  intros Hs Hfit. pose proof Hs as (Hid & Hseq & Hcol & Hem).
  unfold email_fits, email_sent in Hfit.
  unfold handleCreateCustomer.
  destruct (or_null_string (Cust.c_name body)) as [name|]; [|exact Hs].
  destruct (match or_null_string (Cust.c_email body) with
            | Some email => email_in_use email None (Cust.rows t)
            | None => false
            end) eqn:Echeck; [exact Hs|].
  unfold insert_customer.
  destruct (varchar 255 name) as [name'|]; [|exact Hs].
  assert (Ev : varchar_opt 100 (or_null_string (Cust.c_email body))
               = Returned (or_null_string (Cust.c_email body))).
  { apply varchar_opt_le.
    destruct (Cust.c_email body) as [[|c e]|]; cbn; auto. }
  rewrite Ev.
  destruct (varchar_opt 20 _) as [phone'|]; [|exact Hs].
  destruct (varchar_opt 20 _) as [type'|]; [|exact Hs].
  cbn [snd]. unfold customers_sound. cbn [Cust.rows Cust.id_seq].
  rewrite map_app. cbn [map Cust.id].
  repeat split.
  - apply NoDup_app; [assumption|repeat constructor; cbn; tauto|].
    intros a Ha [<-|[]]. now apply (below_customers_seq t).
  - apply Forall_app. split.
    + eapply Forall_impl; [|exact Hseq]. cbn. intros. lia.
    + repeat constructor. cbn. lia.
  - apply Forall_app. split; [assumption|].
    repeat constructor. cbn [Cust.email]. exact Ev.
  - unfold used_emails. rewrite flat_map_app. cbn [flat_map].
    rewrite app_nil_r.
    apply NoDup_app; [assumption|apply NoDup_used_email|].
    intros y Hy Hy'. apply used_email_nonempty in Hy' as [Hne Ey].
    cbn [Cust.email] in Ey. rewrite Ey in Echeck.
    apply in_flat_map in Hy as (r & Hr & Hyr).
    now apply (email_in_use_false _ _ _ Echeck r Hr I).
Qed.

Lemma handleUpdateCustomer_sound id body t :
  customers_sound t -> email_fits (Cust.Put id body) ->
  customers_sound (snd (handleUpdateCustomer id body t)).
Proof.
  intros Hs Hfit. pose proof Hs as (Hid & Hseq & Hcol & Hem).
  unfold email_fits, email_sent in Hfit.
  unfold handleUpdateCustomer.
  destruct id as [i|]; [|exact Hs].
  destruct (filter _ (Cust.rows t)) as [|current more] eqn:Ef; [exact Hs|].
  apply filter_id_in in Ef as [Hcur Hcid].
  match goal with |- context [if ?c then _ else _] =>
    destruct c eqn:Echeck end; [exact Hs|].
  unfold update_customer.
  destruct (varchar 255 _) as [name'|]; [|exact Hs].
  set (x := unless_undefined (Cust.u_email body) (Cust.email current)).
  assert (Ev : varchar_opt 100 x = Returned x).
  { unfold x, unless_undefined.
    destruct (Cust.u_email body) as [e|].
    - now apply varchar_opt_le.
    - rewrite Forall_forall in Hcol. now apply Hcol. }
  rewrite Ev.
  destruct (varchar_opt 20 _) as [phone'|]; [|exact Hs].
  destruct (varchar_opt 20 _) as [type'|]; [|exact Hs].
  cbn [snd]. unfold customers_sound. cbn [Cust.rows Cust.id_seq].
  assert (Hids : forall l, map Cust.id (map (set_customer name' x phone'
             (unless_undefined (Cust.u_address body) (Cust.address current))
             type' i) l) = map Cust.id l).
  { intros l. rewrite map_map. apply map_ext. intros r.
    apply set_customer_id. }
  repeat split.
  - now rewrite Hids.
  - apply Forall_map. eapply Forall_impl; [|exact Hseq].
    cbn. intros r Hr. now rewrite set_customer_id.
  - apply Forall_map. rewrite Forall_forall in Hcol |- *.
    intros r Hr. unfold set_customer.
    destruct (Cust.id r =? i); [exact Ev|now apply Hcol].
  - apply used_emails_set; try assumption.
    intros y r Ex Hr Hri Hy.
    apply used_email_nonempty in Hy as Hy'. destruct Hy' as [Hne Ey].
    unfold x, unless_undefined in Ex.
    assert (Hsame : Cust.email current = Some y -> False).
    { intros Ec.
      apply (distinct_rows_distinct_emails (Cust.rows t) current r y);
        try assumption; [congruence|].
      unfold used_email. rewrite Ec. destruct y; [congruence|now left]. }
    destruct (Cust.u_email body) as [[[|c e]|]|]; try discriminate;
      try (injection Ex as <-; congruence); [|auto].
    injection Ex as <-.
    destruct (Cust.email current) as [e'|] eqn:Ec.
    + destruct (String.eqb_spec (String c e) e') as [<-|_]; [auto|].
      cbn [negb] in Echeck.
      now apply (email_in_use_false _ _ _ Echeck r Hr Hri).
    + now apply (email_in_use_false _ _ _ Echeck r Hr Hri).
Qed.

(** X22.  No two customers share a non-empty email.  The column has no
    UNIQUE constraint; the checks of the handlers are enough: POST and PUT
    /api/customers, whatever they answer, keep the table sound (ids unique
    and below the sequence, emails within their column, non-empty emails
    without duplicates) as long as the email sent has at most 100
    characters. *)
Theorem customers_keep_emails_unique user (r : Cust.request) (t : Cust.table) :
  customers_sound t -> email_fits r ->
  customers_sound (snd (customers_endpoint user r t)).
Proof.
  intros Hs Hfit. destruct r as [body|id body]; cbn [customers_endpoint];
    rewrite snd_customers_catch.
  - now apply handleCreateCustomer_sound.
  - now apply handleUpdateCustomer_sound.
Qed.

Lemma customers_keep_emails_unique_witness :
  customers_sound
    (snd (customers_endpoint rep
            (Cust.Put (Some 1)
               (Cust.mkUpdate None (Some (Some "sarah.j@email.com")) None None
                  None)) customers0))
  /\ Cust.status
       (fst (customers_endpoint rep
               (Cust.Put (Some 1)
                  (Cust.mkUpdate None (Some (Some "sarah.j@email.com")) None
                     None None)) customers0)) = 400.
Proof.
  split; [|vm_compute; reflexivity].
  apply (customers_keep_emails_unique rep
           (Cust.Put (Some 1)
              (Cust.mkUpdate None (Some (Some "sarah.j@email.com")) None None
                 None)) customers0).
  - unfold customers_sound. cbn.
    repeat split;
      repeat (constructor; [cbn; intuition (discriminate || lia)|]);
      constructor.
  - cbn. lia.
Defined.

(** X23.  Whatever it answers, PUT /api/customers leaves the id, the
    total of purchases and the creator of every customer and the sequence as
    they were, and leaves the customers with another id untouched. *)
Theorem put_customer_scope user (id : option Z) (body : Cust.update)
    (t : Cust.table) :
  let t' := snd (customers_endpoint user (Cust.Put id body) t) in
  map slim (Cust.rows t') = map slim (Cust.rows t)
  /\ map Cust.created_by (Cust.rows t') = map Cust.created_by (Cust.rows t)
  /\ Cust.id_seq t' = Cust.id_seq t
  /\ forall i, id = Some i ->
       filter (fun r => negb (Cust.id r =? i)) (Cust.rows t')
       = filter (fun r => negb (Cust.id r =? i)) (Cust.rows t).
Proof.
  cbv zeta. cbn [customers_endpoint]. rewrite snd_customers_catch.
  unfold handleUpdateCustomer.
  destruct id as [i|]; [|repeat split; discriminate].
  destruct (filter _ (Cust.rows t)) as [|current more];
    [repeat split|].
  match goal with |- context [if ?c then _ else _] =>
    destruct c end; [repeat split|].
  unfold update_customer.
  destruct (varchar 255 _) as [name'|]; [|repeat split].
  destruct (varchar_opt 100 _) as [email'|]; [|repeat split].
  destruct (varchar_opt 20 _) as [phone'|]; [|repeat split].
  destruct (varchar_opt 20 _) as [type'|]; [|repeat split].
  cbn [snd Cust.rows Cust.id_seq].
  repeat split.
  - rewrite map_map. apply map_ext. intros r. apply set_customer_slim.
  - rewrite map_map. apply map_ext. intros r. apply set_customer_slim.
  - intros j [= <-]. induction (Cust.rows t) as [|a l IH]; cbn [map filter];
      [reflexivity|].
    rewrite set_customer_id.
    destruct (Z.eqb_spec (Cust.id a) i) as [E|N]; cbn [negb]; [exact IH|].
    rewrite set_customer_other by assumption. now rewrite IH.
Qed.

Lemma includes_too_long_customers :
  includes "token" too_long || includes "Invalid" too_long
  || includes "inactive" too_long = false.
Proof. vm_compute. reflexivity. Qed.

(** X24.  POST /api/customers answers 201, 400 or 500.  It answers 400
    exactly when the name is missing or empty, or the email sent is non-empty
    and is the email of a customer.  Unless it answers 201 the table is left
    as it was.  When it answers 201, one row is appended with the next id of
    the sequence, a total of purchases of 0, the caller as creator and the
    type 'individual' when the request names none, and the answer carries
    that row. *)
Theorem post_customer_outcome user (body : Cust.create) (t : Cust.table) :
  let resp := fst (customers_endpoint user (Cust.Post body) t) in
  let t' := snd (customers_endpoint user (Cust.Post body) t) in
  (Cust.status resp = 201 \/ Cust.status resp = 400 \/ Cust.status resp = 500)
  /\ (Cust.status resp <> 201 -> t' = t)
  /\ (Cust.status resp = 400 <->
      or_null_string (Cust.c_name body) = None
      \/ exists e, or_null_string (Cust.c_email body) = Some e
                   /\ In (Some e) (map Cust.email (Cust.rows t)))
  /\ (Cust.status resp = 201 ->
      exists row,
        Cust.customer resp = Some row
        /\ Cust.rows t' = (Cust.rows t ++ [row])%list
        /\ Cust.id_seq t' = Cust.id_seq t + 1
        /\ slim row = mkCustomer (Cust.id_seq t) 0
        /\ Cust.created_by row = User.id user
        /\ (Cust.c_customer_type body = None ->
            Cust.customer_type row = Some "individual")).
Proof.
  cbv zeta. cbn [customers_endpoint]. unfold customers_catch.
  unfold handleCreateCustomer.
  destruct (or_null_string (Cust.c_name body)) as [name|] eqn:En.
  2:{ cbn. repeat split; auto; try discriminate. }
  assert (Huse : forall e, email_in_use e None (Cust.rows t) = true
                           <-> In (Some e) (map Cust.email (Cust.rows t))).
  { intros e. unfold email_in_use. rewrite existsb_exists, in_map_iff.
    split.
    - intros (r & Hr & H). exists r. split; [|assumption].
      rewrite andb_true_r in H.
      destruct (Cust.email r) as [e'|]; [|discriminate].
      apply String.eqb_eq in H. now subst.
    - intros (r & E & Hr). exists r. split; [assumption|].
      rewrite E, String.eqb_refl. reflexivity. }
  assert (Hfree : (if match or_null_string (Cust.c_email body) with
                      | Some email => email_in_use email None (Cust.rows t)
                      | None => false
                      end then True
                   else ~ (Some name = None
                           \/ exists e,
                                or_null_string (Cust.c_email body) = Some e
                                /\ In (Some e)
                                     (map Cust.email (Cust.rows t))))).
  { destruct (or_null_string (Cust.c_email body)) as [e|].
    - destruct (email_in_use e None (Cust.rows t)) eqn:Eu; [exact I|].
      intros [E|(e' & [= <-] & H)]; [discriminate|].
      apply Huse in H. congruence.
    - intros [E|(e' & E & _)]; discriminate. }
  destruct (match or_null_string (Cust.c_email body) with
            | Some email => email_in_use email None (Cust.rows t)
            | None => false
            end) eqn:Echeck.
  - cbn. repeat split; auto; try discriminate.
    intros _. right.
    destruct (or_null_string (Cust.c_email body)) as [e|]; [|discriminate].
    exists e. split; [reflexivity|now apply Huse].
  - assert (H500 : forall Q : Prop,
              (500 = 201 \/ 500 = 400 \/ 500 = 500)
              /\ (500 <> 201 -> t = t)
              /\ (500 = 400 <-> Some name = None
                               \/ exists e,
                                    or_null_string (Cust.c_email body) = Some e
                                    /\ In (Some e)
                                         (map Cust.email (Cust.rows t)))
              /\ (500 = 201 -> Q)).
    { intros Q. repeat split; auto; try discriminate.
      intros H. now destruct (Hfree H). }
    unfold insert_customer.
    destruct (varchar 255 name) as [name'|];
      [|rewrite includes_too_long_customers; cbn; now apply H500].
    destruct (varchar_opt 100 _) as [email'|];
      [|rewrite includes_too_long_customers; cbn; now apply H500].
    destruct (varchar_opt 20 _) as [phone'|];
      [|rewrite includes_too_long_customers; cbn; now apply H500].
    destruct (varchar_opt 20 _) as [type'|] eqn:Et;
      [|rewrite includes_too_long_customers; cbn; now apply H500].
    cbn. split; [auto|]. split; [intros H; now destruct H|].
    split; [split; [discriminate|intros H; now destruct (Hfree H)]|].
    intros _. eexists. repeat split.
    intros Ec. rewrite Ec in Et. vm_compute in Et. cbn. congruence.
Qed.

(* ================================================================= *)
(** ** Properties: POST and PUT /api/products *)

Lemma snd_products_catch m st :
  snd (products_catch m st) = snd (m st).
Proof.
  unfold products_catch. destruct (m st) as [[r|msg] st']; reflexivity.
Qed.

Lemma set_product_id n d c s cp sp q m i r :
  Prod.id (set_product n d c s cp sp q m i r) = Prod.id r.
Proof.
  unfold set_product. destruct (Prod.id r =? i); reflexivity.
Qed.

Lemma map_set_product_ids n d c s cp sp q m i (l : list Prod.row) :
  map Prod.id (map (set_product n d c s cp sp q m i) l) = map Prod.id l.
Proof.
  rewrite map_map. apply map_ext. intros r. apply set_product_id.
Qed.

Lemma same_id_same_row (l : list Prod.row) (a b : Prod.row) :
  NoDup (map Prod.id l) -> In a l -> In b l -> Prod.id a = Prod.id b -> a = b.
Proof.
  induction l as [|x l IH]; cbn [map In]; [tauto|].
  intros Hnd Ha Hb E. inversion Hnd as [|? ? Hx Hl]; subst.
  destruct Ha as [->|Ha], Hb as [->|Hb]; auto.
  - destruct Hx. rewrite E. now apply in_map.
  - destruct Hx. rewrite <- E. now apply in_map.
Qed.

Lemma last_logged_other (h : list Prod.price) (x : Prod.price) (p : Z) :
  Prod.price_product x <> p -> last_logged (h ++ [x]) p = last_logged h p.
Proof.
  intros H. unfold last_logged. rewrite filter_app. cbn [filter].
  destruct (Z.eqb_spec (Prod.price_product x) p); [contradiction|].
  now rewrite app_nil_r.
Qed.

Lemma last_logged_new (h : list Prod.price) (x : Prod.price) :
  last_logged (h ++ [x]) (Prod.price_product x) = Some (Prod.new_price x).
Proof.
  unfold last_logged. rewrite filter_app. cbn [filter].
  rewrite Z.eqb_refl, rev_app_distr. reflexivity.
Qed.

Lemma below_products_seq (st : Prod.state) :
  Forall (fun r => Prod.id r < Prod.id_seq st) (Prod.rows st) ->
  ~ In (Prod.id_seq st) (map Prod.id (Prod.rows st)).
Proof.
  intros H Hin. apply in_map_iff in Hin as (a & Ea & Ha).
  rewrite Forall_forall in H. specialize (H _ Ha). lia.
Qed.

Lemma products_sound_next (st : Prod.state) :
  products_sound st -> products_sound (next_product_id st).
Proof.
  intros (Hid & Hseq & Href & Hlog). unfold products_sound, next_product_id.
  cbn [Prod.rows Prod.id_seq Prod.history]. repeat split; try assumption.
  eapply Forall_impl; [|exact Hseq]. cbn. intros. lia.
Qed.

(** What a successful INSERT into products has done. *)
Lemma insert_product_returned n d c s cp sp q m u st row st' :
  insert_product n d c s cp sp q m u st = (Returned row, st') ->
  exists n' s',
    varchar 255 n = Returned n' /\ varchar_opt 100 s = Returned s'
    /\ category_missing c st = false
    /\ row = Prod.mkRow (Prod.id_seq st) n' d c s' (to_decimal2 cp)
               (to_decimal2 sp) q m u
    /\ st' = Prod.mkState (Prod.rows st ++ [row]) (Prod.id_seq st + 1)
               (Prod.categories st) (Prod.history st) (Prod.history_seq st).
Proof.
  unfold insert_product.
  destruct (varchar 255 n) as [n'|]; [|discriminate].
  destruct (varchar_opt 100 s) as [s'|]; [|discriminate].
  destruct (category_missing c st) eqn:Ec; [discriminate|].
  match goal with |- context [if ?b then _ else _] => destruct b end;
    [discriminate|].
  intros [= <- <-]. exists n', s'. repeat split.
Qed.

(** A failed INSERT into products leaves the rows and the history. *)
Lemma insert_product_thrown n d c s cp sp q m u st msg st' :
  insert_product n d c s cp sp q m u st = (Thrown msg, st') ->
  (st' = st \/ st' = next_product_id st)
  /\ includes "token" msg || includes "Invalid" msg
     || includes "inactive" msg = false.
Proof.
  unfold insert_product.
  destruct (varchar 255 n) as [n'|];
    [|intros [= <- <-]; split; [now left|reflexivity]].
  destruct (varchar_opt 100 s) as [s'|];
    [|intros [= <- <-]; split; [now left|reflexivity]].
  destruct (category_missing c st) eqn:Ec;
    [intros [= <- <-]; split; [now right|reflexivity]|].
  match goal with |- context [if ?b then _ else _] => destruct b end;
    [intros [= <- <-]; split; [now right|reflexivity]|discriminate].
Qed.

Lemma handleCreateProduct_sound user body st :
  products_sound st -> products_sound (snd (handleCreateProduct user body st)).
Proof.
  intros Hs. unfold handleCreateProduct.
  destruct (or_null_string (Prod.c_name body)) as [name|]; [|exact Hs].
  destruct (if truthyQ (Prod.c_cost_price body) then _ else _) as [cp|];
    [|exact Hs].
  destruct (if truthyQ (Prod.c_selling_price body) then _ else _) as [sp|];
    [|exact Hs].
  match goal with |- context [if ?b then _ else _] => destruct b end;
    [exact Hs|].
  destruct (insert_product _ _ _ _ _ _ _ _ _ st) as [[row|msg] st'] eqn:Ei.
  - apply insert_product_returned in Ei as (n' & s' & _ & _ & _ & Erow & ->).
    destruct Hs as (Hid & Hseq & Href & Hlog).
    assert (Hrid : Prod.id row = Prod.id_seq st) by (subst row; reflexivity).
    assert (Hsp : Prod.selling_price row = to_decimal2 sp)
      by (subst row; reflexivity).
    cbn [snd]. unfold products_sound, insert_price.
    cbn [Prod.rows Prod.id_seq Prod.history]. rewrite map_app. cbn [map].
    repeat split.
    + apply NoDup_snoc; [assumption|].
      rewrite Hrid. now apply below_products_seq.
    + apply Forall_app. split.
      * eapply Forall_impl; [|exact Hseq]. cbn. intros. lia.
      * constructor; [lia|constructor].
    + apply Forall_app. split.
      * eapply Forall_impl; [|exact Href]. cbn. intros x Hx.
        apply in_or_app. now left.
      * constructor; [|constructor]. cbn [Prod.price_product].
        apply in_or_app. right. now left.
    + apply Forall_app. split.
      * rewrite Forall_forall in Hlog, Hseq |- *. intros r Hr.
        rewrite last_logged_other; [now apply Hlog|].
        cbn [Prod.price_product]. specialize (Hseq r Hr). lia.
      * constructor; [|constructor]. right.
        rewrite <- Hsp.
        apply (last_logged_new (Prod.history st)
                 (Prod.mkPrice (Prod.history_seq st) (Prod.id row) "created"
                    None (Prod.selling_price row) (User.id user))).
  - apply insert_product_thrown in Ei as [[-> | ->] _]; cbn [snd];
      [exact Hs|now apply products_sound_next].
Qed.

Lemma filter_product_in (i : Z) (l : list Prod.row) (r : Prod.row) more :
  filter (fun r => Prod.id r =? i) l = r :: more ->
  In r l /\ Prod.id r = i.
Proof.
  intros H.
  assert (Hin : In r (filter (fun r => Prod.id r =? i) l))
    by (rewrite H; now left).
  apply filter_In in Hin as [Hin Hid]. apply Z.eqb_eq in Hid. tauto.
Qed.

(** What a successful UPDATE of products has done. *)
Lemma update_product_returned n d c s cp sp q m i st rows st' :
  update_product n d c s cp sp q m i st = (Returned rows, st') ->
  exists n' s',
    varchar 255 n = Returned n' /\ varchar_opt 100 s = Returned s'
    /\ st' = Prod.mkState
               (map (set_product n' d c s' cp sp q m i) (Prod.rows st))
               (Prod.id_seq st) (Prod.categories st) (Prod.history st)
               (Prod.history_seq st)
    /\ rows = filter (fun r => Prod.id r =? i) (Prod.rows st').
Proof.
  unfold update_product.
  destruct (varchar 255 n) as [n'|]; [|discriminate].
  destruct (varchar_opt 100 s) as [s'|]; [|discriminate].
  destruct (category_missing c st); [discriminate|].
  match goal with |- context [if ?b then _ else _] => destruct b end;
    [discriminate|].
  intros [= <- <-]. exists n', s'. repeat split.
Qed.

(** A failed UPDATE of products changes nothing. *)
Lemma update_product_thrown n d c s cp sp q m i st msg st' :
  update_product n d c s cp sp q m i st = (Thrown msg, st') ->
  st' = st
  /\ includes "token" msg || includes "Invalid" msg
     || includes "inactive" msg = false.
Proof.
  unfold update_product.
  destruct (varchar 255 n) as [n'|];
    [|intros [= <- <-]; split; reflexivity].
  destruct (varchar_opt 100 s) as [s'|];
    [|intros [= <- <-]; split; reflexivity].
  destruct (category_missing c st);
    [intros [= <- <-]; split; reflexivity|].
  match goal with |- context [if ?b then _ else _] => destruct b end;
    [intros [= <- <-]; split; reflexivity|discriminate].
Qed.

Lemma handleUpdateProduct_sound user id body st :
  products_sound st ->
  products_sound (snd (handleUpdateProduct user id body st)).
Proof.
  intros Hs. pose proof Hs as (Hid & Hseq & Href & Hlog).
  unfold handleUpdateProduct.
  destruct id as [i|]; [|exact Hs].
  destruct (filter _ (Prod.rows st)) as [|current more] eqn:Ef; [exact Hs|].
  apply filter_product_in in Ef as [Hcur Hcid].
  match goal with |- context [if ?b then _ else _] => destruct b end;
    [exact Hs|].
  fold (put_price body current).
  destruct (update_product _ _ _ _ _ _ _ _ i st) as [[rows|msg] st'] eqn:Eu.
  2:{ apply update_product_thrown in Eu as [-> _]. exact Hs. }
  apply update_product_returned in Eu as (n' & s' & _ & _ & -> & _).
  cbn [snd].
  set (upd := set_product n' _ _ s' _ (put_price body current) _ _ i).
  assert (Hrows : forall r, In r (Prod.rows st) ->
            Prod.id (upd r) = Prod.id r
            /\ (Prod.id r <> i -> upd r = r)
            /\ (Prod.id r = i ->
                Prod.selling_price (upd r) = put_price body current
                /\ r = current)).
  { intros r Hr. unfold upd. rewrite set_product_id. split; [reflexivity|].
    unfold set_product.
    destruct (Z.eqb_spec (Prod.id r) i) as [E|N]; split; try tauto.
    intros _. split; [reflexivity|].
    apply (same_id_same_row (Prod.rows st)); auto. congruence. }
  assert (Hsound : forall h,
            Forall (fun x => In (Prod.price_product x)
                               (map Prod.id (Prod.rows st))) h ->
            (forall r, In r (Prod.rows st) ->
               last_logged h (Prod.id r) = None
               \/ last_logged h (Prod.id r)
                  = Some (Prod.selling_price (upd r))) ->
            forall hs,
            products_sound
              (Prod.mkState (map upd (Prod.rows st)) (Prod.id_seq st)
                 (Prod.categories st) h hs)).
  { intros h Hh Hl hs. unfold products_sound.
    cbn [Prod.rows Prod.id_seq Prod.history].
    assert (Hids : map Prod.id (map upd (Prod.rows st))
                   = map Prod.id (Prod.rows st))
      by apply map_set_product_ids.
    rewrite Hids. split; [assumption|]. split; [|split].
    - apply Forall_map. eapply Forall_impl; [|exact Hseq].
      cbn. intros r Hr. unfold upd. now rewrite set_product_id.
    - exact Hh.
    - apply Forall_map. apply Forall_forall. intros r Hr.
      destruct (Hrows r Hr) as (E & _). rewrite E. now apply Hl. }
  rewrite Forall_forall in Hlog.
  assert (Hquiet : put_price body current = Prod.selling_price current ->
            forall r, In r (Prod.rows st) ->
              last_logged (Prod.history st) (Prod.id r) = None
              \/ last_logged (Prod.history st) (Prod.id r)
                 = Some (Prod.selling_price (upd r))).
  { intros Hp r Hr. destruct (Hrows r Hr) as (_ & Hother & Hsame).
    destruct (Z.eq_dec (Prod.id r) i) as [E|N].
    - destruct (Hsame E) as [-> ->]. rewrite Hp. now apply Hlog.
    - rewrite (Hother N). now apply Hlog. }
  unfold put_price in *.
  destruct (Prod.u_selling_price body) as [q|];
    [|now apply Hsound; [assumption|apply Hquiet]].
  destruct (truthyQ (Some q));
    [|now apply Hsound; [assumption|apply Hquiet]].
  unfold insert_price. cbn [Prod.rows Prod.id_seq Prod.history
    Prod.history_seq Prod.categories].
  apply Hsound.
  - apply Forall_app. split; [assumption|].
    constructor; [|constructor]. cbn [Prod.price_product].
    rewrite <- Hcid. now apply in_map.
  - intros r Hr. destruct (Hrows r Hr) as (_ & Hother & Hsame).
    destruct (Z.eq_dec (Prod.id r) i) as [E|N].
    + right. destruct (Hsame E) as [-> _]. rewrite E.
      apply (last_logged_new (Prod.history st)
               (Prod.mkPrice (Prod.history_seq st) i "updated"
                  (Some (Prod.selling_price current)) (to_decimal2 q)
                  (User.id user))).
    + rewrite (Hother N). rewrite last_logged_other by (cbn; congruence).
      now apply Hlog.
Qed.

(** X25.  The price history follows the prices: POST and PUT /api/products,
    whatever they answer, keep the catalogue sound; in particular every row
    of the price history belongs to a product, and a product that has a
    price history sells at the price its history ends with. *)
Theorem products_keep_price_history user (r : Prod.request) (st : Prod.state) :
  products_sound st -> products_sound (snd (products_endpoint user r st)).
Proof.
  intros Hs. destruct r as [body|id body]; cbn [products_endpoint];
    rewrite snd_products_catch.
  - now apply handleCreateProduct_sound.
  - now apply handleUpdateProduct_sound.
Qed.

Lemma products_keep_price_history_witness :
  products_sound
    (snd (products_endpoint rep
            (Prod.Put (Some 1)
               (Prod.mkUpdate None None None None None (Some (12999 # 100))
                  (Some 40) None)) products0))
  /\ last_logged
       (Prod.history
          (snd (products_endpoint rep
                  (Prod.Put (Some 1)
                     (Prod.mkUpdate None None None None None
                        (Some (12999 # 100)) (Some 40) None)) products0))) 1
     = Some 12999.
Proof.
  split; [|vm_compute; reflexivity].
  apply (products_keep_price_history rep
           (Prod.Put (Some 1)
              (Prod.mkUpdate None None None None None (Some (12999 # 100))
                 (Some 40) None)) products0).
  unfold products_sound. cbn.
  repeat split;
    repeat (constructor; [cbn; intuition (discriminate || lia)|]);
    constructor.
Defined.

(** X26.  Only one product can have its SKU blanked.  PUT skips its check
    for an empty SKU and writes the empty text, not NULL; once a product has
    the empty SKU, a PUT that sends the empty SKU for another product fails
    on the UNIQUE constraint: the answer is 500 and nothing is changed. *)
Theorem put_blank_sku_conflict user (i : Z) (body : Prod.update)
    (st : Prod.state) (other : Prod.row) :
  In other (Prod.rows st) -> Prod.id other <> i ->
  Prod.sku other = Some EmptyString ->
  In i (map Prod.id (Prod.rows st)) ->
  Prod.u_sku body = Some (Some EmptyString) ->
  products_endpoint user (Prod.Put (Some i) body) st
  = (Prod.mkResponse 500 "Server error" None, st).
Proof.
  intros Hother Hne Hsku Hin Hbody.
  cbn [products_endpoint]. unfold products_catch, handleUpdateProduct.
  destruct (filter (fun r => Prod.id r =? i) (Prod.rows st))
    as [|current more] eqn:Ef.
  { apply in_map_iff in Hin as (r & Er & Hr).
    assert (Hf : In r (filter (fun r => Prod.id r =? i) (Prod.rows st))).
    { apply filter_In. split; [assumption|]. now apply Z.eqb_eq. }
    rewrite Ef in Hf. destruct Hf. }
  rewrite Hbody.
  destruct (update_product _ _ _ _ _ _ _ _ i st) as [[rows|msg] st'] eqn:Eu.
  - exfalso. unfold update_product in Eu.
    destruct (varchar 255 _) as [n'|]; [|discriminate].
    cbn [unless_undefined varchar_opt] in Eu.
    change (varchar 100 EmptyString) with (Returned EmptyString) in Eu.
    cbn iota in Eu.
    destruct (category_missing _ st); [discriminate|].
    assert (Huse : sku_in_use EmptyString (Some i) (Prod.rows st) = true).
    { unfold sku_in_use. apply existsb_exists. exists other.
      split; [assumption|]. rewrite Hsku. cbn.
      apply negb_true_iff. now apply Z.eqb_neq. }
    rewrite Huse in Eu. discriminate.
  - apply update_product_thrown in Eu as [-> Hmsg]. rewrite Hmsg.
    reflexivity.
Qed.

Lemma put_blank_sku_conflict_witness :
  Prod.status
    (fst (products_endpoint rep
            (Prod.Put (Some 1)
               (Prod.mkUpdate None None None (Some (Some EmptyString)) None
                  None None None)) products0)) = 500.
Proof.
  rewrite (put_blank_sku_conflict rep 1
             (Prod.mkUpdate None None None (Some (Some EmptyString)) None None
                None None) products0
             (Prod.mkRow 2 "Premium Cotton T-Shirt" (Some "Comfortable")
                (Some 2) (Some EmptyString) 800 2499 100 20 1)).
  - reflexivity.
  - cbn. auto.
  - discriminate.
  - reflexivity.
  - cbn. auto.
  - reflexivity.
Defined.

(** X27.  POST /api/products answers 201, 400 or 500.  It answers 400
    exactly when the name is missing or empty, the cost price or the selling
    price is missing or zero, or the SKU sent is non-empty and is the SKU of
    a product.  Unless it answers 201, products and price history are left
    as they were.  When it answers 201, one product is appended with the
    next id of the sequence, the prices rounded to two decimals, the stock
    sent (0 when none is sent) and the caller as creator, the answer carries
    that row, and one row is appended to the price history, of type
    'created', for that product, with its stored selling price. *)
Theorem post_product_outcome user (body : Prod.create) (st : Prod.state) :
  let resp := fst (products_endpoint user (Prod.Post body) st) in
  let st' := snd (products_endpoint user (Prod.Post body) st) in
  (Prod.status resp = 201 \/ Prod.status resp = 400 \/ Prod.status resp = 500)
  /\ (Prod.status resp <> 201 ->
      Prod.rows st' = Prod.rows st /\ Prod.history st' = Prod.history st)
  /\ (Prod.status resp = 400 <->
      or_null_string (Prod.c_name body) = None
      \/ truthyQ (Prod.c_cost_price body) = false
      \/ truthyQ (Prod.c_selling_price body) = false
      \/ exists s, or_null_string (Prod.c_sku body) = Some s
                   /\ In (Some s) (map Prod.sku (Prod.rows st)))
  /\ (Prod.status resp = 201 ->
      exists row cost price,
        Prod.product resp = Some row
        /\ Prod.c_cost_price body = Some cost
        /\ Prod.c_selling_price body = Some price
        /\ Prod.rows st' = (Prod.rows st ++ [row])%list
        /\ Prod.id row = Prod.id_seq st
        /\ Prod.cost_price row = to_decimal2 cost
        /\ Prod.selling_price row = to_decimal2 price
        /\ Prod.stock_quantity row
           = match Prod.c_stock_quantity body with Some q => q | None => 0 end
        /\ Prod.created_by row = User.id user
        /\ Prod.history st'
           = (Prod.history st
              ++ [Prod.mkPrice (Prod.history_seq st) (Prod.id row) "created"
                    None (Prod.selling_price row) (User.id user)])%list).
Proof.
  cbv zeta. cbn [products_endpoint]. unfold products_catch.
  unfold handleCreateProduct.
  assert (Huse : forall s, sku_in_use s None (Prod.rows st) = true
                           <-> In (Some s) (map Prod.sku (Prod.rows st))).
  { intros s. unfold sku_in_use. rewrite existsb_exists, in_map_iff.
    split.
    - intros (r & Hr & H). exists r. split; [|assumption].
      rewrite andb_true_r in H.
      destruct (Prod.sku r) as [s'|]; [|discriminate].
      apply String.eqb_eq in H. now subst.
    - intros (r & E & Hr). exists r. split; [assumption|].
      rewrite E, String.eqb_refl. reflexivity. }
  destruct (or_null_string (Prod.c_name body)) as [name|] eqn:En.
  2:{ cbn. repeat split; auto; try discriminate. }
  destruct (truthyQ (Prod.c_cost_price body)) eqn:Ec.
  2:{ cbn. repeat split; auto; try discriminate. }
  destruct (Prod.c_cost_price body) as [cost|] eqn:Ecost; [|discriminate].
  destruct (truthyQ (Prod.c_selling_price body)) eqn:Ep.
  2:{ cbn. repeat split; auto; try discriminate. }
  destruct (Prod.c_selling_price body) as [price|] eqn:Eprice; [|discriminate].
  assert (Hfree : (if match or_null_string (Prod.c_sku body) with
                      | Some sku => sku_in_use sku None (Prod.rows st)
                      | None => false
                      end then True
                   else ~ (Some name = None \/ true = false \/ true = false
                           \/ exists s,
                                or_null_string (Prod.c_sku body) = Some s
                                /\ In (Some s)
                                     (map Prod.sku (Prod.rows st))))).
  { destruct (or_null_string (Prod.c_sku body)) as [s|].
    - destruct (sku_in_use s None (Prod.rows st)) eqn:Eu; [exact I|].
      intros [E|[E|[E|(s' & [= <-] & H)]]]; try discriminate.
      apply Huse in H. congruence.
    - intros [E|[E|[E|(s' & E & _)]]]; discriminate. }
  destruct (match or_null_string (Prod.c_sku body) with
            | Some sku => sku_in_use sku None (Prod.rows st)
            | None => false
            end) eqn:Echeck.
  - cbn. repeat split; auto; try discriminate.
    intros _. right. right. right.
    destruct (or_null_string (Prod.c_sku body)) as [s|]; [|discriminate].
    exists s. split; [reflexivity|now apply Huse].
  - destruct (insert_product _ _ _ _ _ _ _ _ _ st) as [[row|msg] st'] eqn:Ei.
    + apply insert_product_returned in Ei as (n' & s' & _ & _ & _ & Erow & ->).
      cbn [fst snd Prod.status Prod.product].
      split; [auto|]. split; [intros H; now destruct H|].
      split; [split; [discriminate|intros H; now destruct (Hfree H)]|].
      intros _. exists row, cost, price. subst row.
      repeat split.
    + apply insert_product_thrown in Ei as [Hst Hmsg]. rewrite Hmsg.
      cbn [fst snd Prod.status].
      split; [auto|]. split.
      { intros _. destruct Hst as [-> | ->]; split; reflexivity. }
      split; [split; [discriminate|intros H; now destruct (Hfree H)]|].
      discriminate.
Qed.

(* ================================================================= *)
(** ** Properties: init-db *)

Lemma filter_admin_nil (s : Seed.db) :
  filter (fun u => String.eqb (Users.username u) "admin")
    (Users.rows (Seed.users s)) = [] <-> has_admin s = false.
Proof.
  unfold has_admin. induction (Users.rows (Seed.users s)) as [|u l IH];
    cbn [filter existsb]; [tauto|].
  destruct (String.eqb (Users.username u) "admin"); cbn [orb].
  - split; discriminate.
  - exact IH.
Qed.

Lemma has_admin_app (rows more : list Users.row) id_seq id_seq' c cs p ps k :
  has_admin (Seed.mkDb (Users.mkTable rows id_seq) c cs p ps k) = true ->
  has_admin (Seed.mkDb (Users.mkTable (rows ++ more) id_seq') c cs p ps k)
  = true.
Proof.
  unfold has_admin. cbn. intros H. rewrite existsb_app, H. reflexivity.
Qed.

Lemma has_admin_rows (s s' : Seed.db) :
  Users.rows (Seed.users s') = Users.rows (Seed.users s) ->
  has_admin s' = has_admin s.
Proof. unfold has_admin. now intros ->. Qed.

Lemma seed_user_returned u e h f r s s' :
  seed_user u e h f r s = (Returned tt, s') ->
  exists row,
    Users.username row = match varchar 50 u with
                         | Returned u' => u'
                         | Thrown _ => u
                         end
    /\ grows s s' [row] [] [] [].
Proof.
  unfold seed_user.
  destruct (insert_user u e h f (Some r) (Seed.users s)) as [[row|msg] t] eqn:E;
    [|discriminate].
  intros [= <-].
  apply insert_user_returned in E
    as (u' & e' & h' & f' & r' & Eu & _ & _ & _ & _ & _ & Erow & ->).
  exists row. rewrite Eu. subst row. unfold grows. cbn.
  rewrite !app_nil_r. repeat split.
Qed.

Lemma grows_trans s1 s2 s3 lu lc lp lk lu' lc' lp' lk' :
  grows s1 s2 lu lc lp lk -> grows s2 s3 lu' lc' lp' lk' ->
  grows s1 s3 (lu ++ lu') (lc ++ lc') (lp ++ lp') (lk ++ lk').
Proof.
  intros (A & B & C & D) (A' & B' & C' & D'). unfold grows.
  rewrite A', B', C', D', A, B, C, D, !app_assoc. repeat split.
Qed.

Lemma grows_refl s : grows s s [] [] [] [].
Proof. unfold grows. rewrite !app_nil_r. repeat split. Qed.

Lemma seed_users_block_returned hash s s' :
  seed_users_block hash s = (Returned tt, s') ->
  has_admin s' = true
  /\ exists lu, grows s s' lu [] [] []
                /\ (has_admin s = true -> lu = []).
Proof.
  unfold seed_users_block.
  destruct (filter _ (Users.rows (Seed.users s))) as [|a l] eqn:Ef.
  - apply filter_admin_nil in Ef. unfold seed_bind.
    destruct (seed_user "admin" _ _ _ _ s) as [[[]|msg] s1] eqn:E1;
      [|discriminate].
    intros E2.
    apply seed_user_returned in E1 as (r1 & N1 & G1).
    apply seed_user_returned in E2 as (r2 & N2 & G2).
    pose proof (grows_trans _ _ _ _ _ _ _ _ _ _ _ G1 G2) as G.
    cbn [app] in G. split.
    + destruct G as (A & _). unfold has_admin. rewrite A.
      rewrite existsb_app. cbn [existsb]. rewrite N1.
      change (varchar 50 "admin") with (Returned "admin").
      cbn. apply orb_true_r.
    + exists [r1; r2]. split; [exact G|]. congruence.
  - intros [= <-]. split.
    + destruct (has_admin s) eqn:H; [reflexivity|].
      apply filter_admin_nil in H. congruence.
    + exists []. split; [apply grows_refl|reflexivity].
Qed.

Lemma seed_categories_block_returned s :
  exists s' lc,
    seed_categories_block s = (Returned tt, s')
    /\ Seed.categories s' <> []
    /\ grows s s' [] lc [] []
    /\ (Seed.categories s <> [] -> lc = []).
Proof.
  unfold seed_categories_block.
  destruct (Seed.categories s) as [|c l] eqn:E.
  - eexists. eexists. split; [reflexivity|].
    split; [cbn; rewrite E; discriminate|].
    split; [|intros H; now destruct H].
    unfold grows. cbn. rewrite E. cbn.
    repeat split; now rewrite app_nil_r.
  - exists s, []. split; [reflexivity|].
    split; [rewrite E; discriminate|].
    split; [apply grows_refl|reflexivity].
Qed.

Lemma seed_products_block_returned s s' :
  seed_products_block s = (Returned tt, s') ->
  Seed.products s' <> []
  /\ exists lp, grows s s' [] [] lp []
                /\ (Seed.products s <> [] -> lp = []).
Proof.
  unfold seed_products_block.
  destruct (Seed.products s) as [|p l] eqn:E.
  - unfold seed_bind, user_named, category_named.
    destruct (filter _ (Users.rows (Seed.users s))) as [|a la];
      [discriminate|].
    destruct (filter _ (Seed.categories s)) as [|c1 l1]; [discriminate|].
    destruct (filter _ (Seed.categories s)) as [|c2 l2]; [discriminate|].
    destruct (filter _ (Seed.categories s)) as [|c3 l3]; [discriminate|].
    unfold seed_products. intros [= <-].
    split; [cbn; rewrite E; discriminate|].
    eexists. split; [|intros H; now destruct H].
    unfold grows. cbn. rewrite E. cbn.
    repeat split; now rewrite app_nil_r.
  - intros [= <-]. split; [rewrite E; discriminate|].
    exists []. split; [apply grows_refl|reflexivity].
Qed.

Lemma seed_customers_block_returned s s' :
  seed_customers_block s = (Returned tt, s') ->
  Cust.rows (Seed.customers s') <> []
  /\ exists lk, grows s s' [] [] [] lk
                /\ (Cust.rows (Seed.customers s) <> [] -> lk = []).
Proof.
  unfold seed_customers_block.
  destruct (Cust.rows (Seed.customers s)) as [|k l] eqn:E.
  - unfold seed_bind, user_named.
    destruct (filter _ (Users.rows (Seed.users s))) as [|a la];
      [discriminate|].
    unfold seed_customers. intros [= <-].
    split; [cbn; rewrite E; discriminate|].
    eexists. split; [|intros H; now destruct H].
    unfold grows. cbn. rewrite E. cbn.
    repeat split; now rewrite app_nil_r.
  - intros [= <-]. split; [rewrite E; discriminate|].
    exists []. split; [apply grows_refl|reflexivity].
Qed.

(** A seed that commits has run its four blocks. *)
Lemma seedInitialData_returned hash s s' :
  seedInitialData hash s = (Returned tt, s') ->
  seeded s'
  /\ exists lu lc lp lk,
       grows s s' lu lc lp lk
       /\ (has_admin s = true -> lu = [])
       /\ (Seed.categories s <> [] -> lc = [])
       /\ (Seed.products s <> [] -> lp = [])
       /\ (Cust.rows (Seed.customers s) <> [] -> lk = []).
Proof.
  unfold seedInitialData, seed_bind.
  destruct (seed_users_block hash s) as [[[]|m1] s1] eqn:E1; [|discriminate].
  destruct (seed_categories_block_returned s1)
    as (s2 & lc & E2 & C2 & G2 & N2).
  rewrite E2.
  destruct (seed_products_block s2) as [[[]|m3] s3] eqn:E3; [|discriminate].
  destruct (seed_customers_block s3) as [[[]|m4] s4] eqn:E4; [|discriminate].
  intros [= <-].
  apply seed_users_block_returned in E1 as (A1 & lu & G1 & N1).
  apply seed_products_block_returned in E3 as (P3 & lp & G3 & N3).
  apply seed_customers_block_returned in E4 as (K4 & lk & G4 & N4).
  pose proof (grows_trans _ _ _ _ _ _ _ _ _ _ _
                (grows_trans _ _ _ _ _ _ _ _ _ _ _
                   (grows_trans _ _ _ _ _ _ _ _ _ _ _ G1 G2) G3) G4) as G.
  cbn [app] in G. rewrite !app_nil_r in G.
  pose proof G1 as (U1 & C1 & Q1 & K1).
  pose proof G2 as (U2 & _ & Q2 & K2).
  pose proof G3 as (U3 & C3 & _ & K3).
  pose proof G4 as (U4 & C4 & Q4 & _).
  rewrite app_nil_r in *.
  split.
  - unfold seeded. repeat split.
    + rewrite (has_admin_rows s3 s4 U4), (has_admin_rows s2 s3 U3),
        (has_admin_rows s1 s2 U2). exact A1.
    + rewrite C4, C3. exact C2.
    + rewrite Q4. exact P3.
    + exact K4.
  - exists lu, lc, lp, lk. split; [exact G|].
    split; [exact N1|]. split.
    + intros H. apply N2. now rewrite C1.
    + split.
      * intros H. apply N3. now rewrite Q2, Q1.
      * intros H. apply N4. now rewrite K3, K2, K1.
Qed.

(** On a seeded database [seedInitialData] does nothing. *)
Lemma seedInitialData_seeded hash s :
  seeded s -> seedInitialData hash s = (Returned tt, s).
Proof.
  intros (A & C & P & K).
  unfold seedInitialData, seed_bind, seed_users_block, seed_categories_block,
    seed_products_block, seed_customers_block, seed_ret.
  destruct (filter _ (Users.rows (Seed.users s))) as [|a l] eqn:Ef.
  { apply filter_admin_nil in Ef. congruence. }
  destruct (Seed.categories s); [congruence|].
  destruct (Seed.products s); [congruence|].
  destruct (Cust.rows (Seed.customers s)); [congruence|].
  reflexivity.
Qed.

Lemma seedInitialData_thrown hash s msg s' :
  seedInitialData hash s = (Thrown msg, s') -> Seed.tables s' = Seed.tables s.
Proof.
  unfold seedInitialData.
  match goal with |- context [match ?m with _ => _ end] =>
    destruct m as [[[]|m0] s0] end; [discriminate|].
  intros [= _ <-]. reflexivity.
Qed.

Lemma keys_differ_spec (a b : option string) :
  keys_differ a b = true <-> a <> b.
Proof.
  destruct a as [a|], b as [b|]; cbn; split; try discriminate; try congruence.
  - intros H E. injection E as ->. rewrite String.eqb_refl in H.
    discriminate.
  - intros H. apply negb_true_iff. apply String.eqb_neq. congruence.
Qed.

(** X28.  The POST branch of init-db answers 403 exactly when the key of
    the request is not the configured one; a request without a key passes
    when no key is configured.  Unless it answers 200 the rows of the four
    tables are as they were: a seed that fails is rolled back as a whole.
    When it answers 200 the database is seeded (the admin account is there
    and categories, products and customers are not empty), rows were only
    appended, and nothing was appended to a table that had rows (for users:
    that had the admin account). *)
Theorem init_db_effect configured init_key hash (s : Seed.db) :
  let resp := fst (init_db configured init_key hash s) in
  let s' := snd (init_db configured init_key hash s) in
  (Seed.status resp = 403 <-> init_key <> configured)
  /\ (Seed.status resp <> 200 -> Seed.tables s' = Seed.tables s)
  /\ (Seed.status resp = 200 ->
      seeded s'
      /\ exists lu lc lp lk,
           grows s s' lu lc lp lk
           /\ (has_admin s = true -> lu = [])
           /\ (Seed.categories s <> [] -> lc = [])
           /\ (Seed.products s <> [] -> lp = [])
           /\ (Cust.rows (Seed.customers s) <> [] -> lk = [])).
Proof.
  cbv zeta. unfold init_db.
  destruct (keys_differ init_key configured) eqn:Ek.
  - cbn [fst snd Seed.status].
    split; [split; [intros _; now apply keys_differ_spec|reflexivity]|].
    split; [reflexivity|discriminate].
  - assert (Hk : ~ init_key <> configured).
    { intros H. apply keys_differ_spec in H. congruence. }
    destruct (seedInitialData hash s) as [[[]|msg] s1] eqn:E;
      cbn [fst snd Seed.status].
    + split; [split; [discriminate|intros H; now destruct (Hk H)]|].
      split; [intros H; now destruct H|].
      intros _. now apply (seedInitialData_returned hash).
    + split; [split; [discriminate|intros H; now destruct (Hk H)]|].
      split; [|discriminate].
      intros _. now apply (seedInitialData_thrown hash s msg).
Qed.

(** X29.  Initialising twice is initialising once: after a POST to init-db
    answered 200, a second one with the same key is answered 200 and leaves
    the database, sequences included, as the first one left it. *)
Theorem init_db_idempotent configured init_key hash hash' (s : Seed.db) :
  Seed.status (fst (init_db configured init_key hash s)) = 200 ->
  init_db configured init_key hash' (snd (init_db configured init_key hash s))
  = (Seed.mkResponse 200 "Database initialized successfully",
     snd (init_db configured init_key hash s)).
Proof.
  unfold init_db.
  destruct (keys_differ init_key configured) eqn:Ek; [discriminate|].
  destruct (seedInitialData hash s) as [[[]|msg] s1] eqn:E;
    cbn [fst snd Seed.status]; [|discriminate].
  intros _. apply seedInitialData_returned in E as [Hs _].
  now rewrite (seedInitialData_seeded hash' s1 Hs).
Qed.

Lemma init_db_idempotent_witness :
  init_db None None sample_hash
    (snd (init_db None None sample_hash empty_db))
  = (Seed.mkResponse 200 "Database initialized successfully",
     snd (init_db None None sample_hash empty_db)).
Proof.
  apply (init_db_idempotent None None sample_hash sample_hash empty_db).
  vm_compute. reflexivity.
Defined.
